(** * react-viz: the project scanner (backend.go and the alias configuration)

    A shallow embedding of the Go analysis pipeline: per-file classification,
    display names, alias resolution, the directory walk, reverse import edges
    and the directory tree.  Go strings are byte strings ([string]); Go maps
    are [gmap]s, and wherever the source ranges over a map the order of the
    enumeration is an explicit argument, because Go leaves it unspecified. *)

From Stdlib Require Import Ascii String List Arith Lia Permutation.
From stdpp Require Import base option list strings gmap fin_maps.

Local Open Scope string_scope.
Local Open Scope list_scope.

(** ** The [strings] package *)

Module Strings.

Fixpoint sdrop (n : nat) (s : string) : string :=
  match n, s with
  | O, _ => s
  | S n', String _ s' => sdrop n' s'
  | S _, EmptyString => EmptyString
  end.

Fixpoint stake (n : nat) (s : string) : string :=
  match n, s with
  | O, _ => EmptyString
  | S n', String c s' => String c (stake n' s')
  | S _, EmptyString => EmptyString
  end.

(** [strings.HasPrefix(s, prefix)] *)
Fixpoint HasPrefix (s prefix : string) {struct prefix} : bool :=
  match prefix, s with
  | EmptyString, _ => true
  | String p prefix', String c s' => Ascii.eqb c p && HasPrefix s' prefix'
  | String _ _, EmptyString => false
  end.

(** [strings.HasSuffix(s, suffix)] *)
Definition HasSuffix (s suffix : string) : bool :=
  (String.length suffix <=? String.length s)%nat &&
  String.eqb (sdrop (String.length s - String.length suffix) s) suffix.

(** [strings.Contains(s, substr)] *)
Fixpoint Contains (s substr : string) : bool :=
  HasPrefix s substr ||
  match s with
  | EmptyString => false
  | String _ s' => Contains s' substr
  end.

(** [strings.TrimPrefix(s, prefix)] *)
Definition TrimPrefix (s prefix : string) : string :=
  if HasPrefix s prefix then sdrop (String.length prefix) s else s.

(** [strings.TrimSuffix(s, suffix)] *)
Definition TrimSuffix (s suffix : string) : string :=
  if HasSuffix s suffix
  then stake (String.length s - String.length suffix) s
  else s.

(** [strings.Replace(s, old, new, 1)]: the first occurrence only. *)
Fixpoint ReplaceFirst (s old new : string) : string :=
  if HasPrefix s old then new +:+ sdrop (String.length old) s
  else match s with
       | EmptyString => EmptyString
       | String c s' => String c (ReplaceFirst s' old new)
       end.

(** [strings.ToLower] on the ASCII letters (the only ones that can turn a
    file extension into one of the four the scanner accepts). *)
Definition lowerByte (c : ascii) : ascii :=
  let n := nat_of_ascii c in
  if (65 <=? n)%nat && (n <=? 90)%nat then ascii_of_nat (n + 32) else c.

Fixpoint ToLower (s : string) : string :=
  match s with
  | EmptyString => EmptyString
  | String c s' => String (lowerByte c) (ToLower s')
  end.

(** [strings.Split(s, sep)] for a one-byte separator: the elements between
    the separators, always at least one. *)
Fixpoint Split (sep : ascii) (s : string) : list string :=
  match s with
  | EmptyString => [EmptyString]
  | String c s' =>
      if Ascii.eqb c sep then EmptyString :: Split sep s'
      else match Split sep s' with
           | e :: es => String c e :: es
           | [] => [String c EmptyString]
           end
  end.

(** [strings.Join(elems, sep)] *)
Fixpoint Join (elems : list string) (sep : string) : string :=
  match elems with
  | [] => EmptyString
  | [e] => e
  | e :: es => e +:+ sep +:+ Join es sep
  end.

(** [strings.Count(s, "/")]-style count of one byte. *)
Fixpoint CountByte (s : string) (sep : ascii) : nat :=
  match s with
  | EmptyString => 0
  | String c s' => (if Ascii.eqb c sep then 1 else 0) + CountByte s' sep
  end.

End Strings.

(** ** The [path/filepath] package, for the Unix separator

    The functions are purely lexical.  [Clean] is written on the elements
    of the path (what lies between the separators): empty and [.] elements
    are dropped, [..] removes the element before it unless that one is
    itself a kept [..] or the path is rooted. *)

Module Filepath.
Import Strings.

Definition Separator : ascii := "/"%char.

Definition nonEmpty (s : string) : bool := negb (String.eqb s "").

(** The kept elements, most recent first. *)
Fixpoint cleanElems (rooted : bool) (kept elems : list string) : list string :=
  match elems with
  | [] => rev kept
  | e :: rest =>
      if String.eqb e "" || String.eqb e "." then cleanElems rooted kept rest
      else if String.eqb e ".." then
        match kept with
        | top :: below =>
            if String.eqb top ".." then cleanElems rooted (e :: kept) rest
            else cleanElems rooted below rest
        | [] =>
            if rooted then cleanElems rooted kept rest
            else cleanElems rooted [e] rest
        end
      else cleanElems rooted (e :: kept) rest
  end.

(** The path made of the kept elements. *)
Definition fromElems (rooted : bool) (elems : list string) : string :=
  let out := Join elems "/" in
  if rooted then "/" +:+ out
  else if String.eqb out "" then "." else out.

Definition Clean (path : string) : string :=
  if String.eqb path "" then "."
  else
    let rooted := HasPrefix path "/" in
    fromElems rooted (cleanElems rooted [] (Split Separator path)).

(** [filepath.Join]: the elements from the first non-empty one on, joined
    and cleaned; the empty string when all are empty. *)
Fixpoint Join (elem : list string) : string :=
  match elem with
  | [] => ""
  | e :: rest =>
      if String.eqb e "" then Join rest
      else Clean (Strings.Join elem "/")
  end.

Definition IsAbs (path : string) : bool := HasPrefix path "/".

Fixpoint stripTrailingSeps (s : string) : string :=
  match s with
  | EmptyString => EmptyString
  | String c s' =>
      let r := stripTrailingSeps s' in
      if Ascii.eqb c Separator && String.eqb r "" then EmptyString
      else String c r
  end.

Definition lastElem (s : string) : string :=
  List.last (Split Separator s) "".

(** [filepath.Base] *)
Definition Base (path : string) : string :=
  if String.eqb path "" then "."
  else
    let e := lastElem (stripTrailingSeps path) in
    if String.eqb e "" then "/" else e.

(** The suffix of an element that starts at its last dot. *)
Fixpoint fromLastDot (s : string) : string :=
  match s with
  | EmptyString => EmptyString
  | String c s' =>
      let r := fromLastDot s' in
      if nonEmpty r then r
      else if Ascii.eqb c "."%char then s else EmptyString
  end.

(** [filepath.Ext]: looked for in the last element only. *)
Definition Ext (path : string) : string := fromLastDot (lastElem path).

(** Everything up to and including the last separator. *)
Fixpoint uptoLastSep (s : string) : string :=
  match s with
  | EmptyString => EmptyString
  | String c s' =>
      let r := uptoLastSep s' in
      if nonEmpty r then String c r
      else if Ascii.eqb c Separator then "/" else EmptyString
  end.

(** [filepath.Dir] *)
Definition Dir (path : string) : string := Clean (uptoLastSep path).

(** The first element of [s] and what follows it (starting at the
    separator, or empty). *)
Fixpoint takeElem (s : string) : string * string :=
  match s with
  | EmptyString => (EmptyString, EmptyString)
  | String c s' =>
      if Ascii.eqb c Separator then (EmptyString, s)
      else let '(e, r) := takeElem s' in (String c e, r)
  end.

(** The loop of [filepath.Rel] that walks both cleaned paths element by
    element while they agree.  Result: what is left of the base from its
    current element on, the base element at which the paths differ
    (empty when one path ran out), what is left of the target. *)
Fixpoint relLoop (fuel : nat) (b t : string) : string * string * string :=
  match fuel with
  | O => (b, "", t)
  | S fuel' =>
      if String.eqb b "" || String.eqb t "" then (b, "", t)
      else
        let '(eb, rb) := takeElem b in
        let '(et, rt) := takeElem t in
        if String.eqb eb et then relLoop fuel' (sdrop 1 rb) (sdrop 1 rt)
        else (b, eb, t)
  end.

Fixpoint dotdots (n : nat) : string :=
  match n with
  | O => ""
  | S n' => "/.." +:+ dotdots n'
  end.

(** [filepath.Rel(basepath, targpath)]; [None] is the error.  Both paths
    are cleaned, the elements they share are passed over, and one [..] per
    element left in the base leads up to where the target goes on. *)
Definition Rel (basepath targpath : string) : option string :=
  let base := Clean basepath in
  let targ := Clean targpath in
  if String.eqb targ base then Some "."
  else
    let base := if String.eqb base "." then "" else base in
    if negb (Bool.eqb (HasPrefix base "/") (HasPrefix targ "/")) then None
    else
      let '(bRest, bElem, tRest) :=
        relLoop (S (String.length base)) base targ in
      if String.eqb bElem ".." then None
      else if nonEmpty bRest then
        Some (".." +:+ dotdots (CountByte bRest Separator) +:+
              (if nonEmpty tRest then "/" +:+ tRest else ""))
      else Some tRest.

End Filepath.

(** ** The [regexp] package, as far as the scanner uses it

    Regular expressions are matched with derivatives.  Every pattern of the
    scanner has at most one match from a given start (its repeated classes
    are each followed by a byte outside the class) and matches no empty
    string, so the first match found from a start is the one Go reports. *)

Module Regexp.
Import Strings.

Inductive regex : Type :=
| Void
| Eps
| Class (p : ascii -> bool)
| Cat (r1 r2 : regex)
| Alt (r1 r2 : regex)
| Star (r : regex).

Definition cat (r1 r2 : regex) : regex :=
  match r1, r2 with
  | Void, _ => Void
  | _, Void => Void
  | Eps, _ => r2
  | _, _ => Cat r1 r2
  end.

Definition alt (r1 r2 : regex) : regex :=
  match r1, r2 with
  | Void, _ => r2
  | _, Void => r1
  | _, _ => Alt r1 r2
  end.

Fixpoint nullable (r : regex) : bool :=
  match r with
  | Void => false
  | Eps => true
  | Class _ => false
  | Cat r1 r2 => nullable r1 && nullable r2
  | Alt r1 r2 => nullable r1 || nullable r2
  | Star _ => true
  end.

Fixpoint deriv (c : ascii) (r : regex) : regex :=
  match r with
  | Void => Void
  | Eps => Void
  | Class p => if p c then Eps else Void
  | Cat r1 r2 =>
      if nullable r1 then alt (cat (deriv c r1) r2) (deriv c r2)
      else cat (deriv c r1) r2
  | Alt r1 r2 => alt (deriv c r1) (deriv c r2)
  | Star r1 => cat (deriv c r1) (Star r1)
  end.

(** Length of the first prefix of [s] that matches [r]. *)
Fixpoint matchLen (r : regex) (s : string) : option nat :=
  if nullable r then Some 0
  else match s with
       | EmptyString => None
       | String c s' => S <$> matchLen (deriv c r) s'
       end.

(** [re.MatchString(s)]: some substring of [s] matches. *)
Fixpoint MatchString (r : regex) (s : string) : bool :=
  match matchLen r s with
  | Some _ => true
  | None => match s with
            | EmptyString => false
            | String _ s' => MatchString r s'
            end
  end.

(** [re.FindAllString(s, -1)]: the successive non-overlapping matches,
    leftmost first; [skip] bytes belong to the match just reported. *)
Fixpoint findAllFrom (r : regex) (skip : nat) (s : string) : list string :=
  match s with
  | EmptyString => []
  | String _ s' =>
      match skip with
      | S k => findAllFrom r k s'
      | O =>
          match matchLen r s with
          | Some (S n) => stake (S n) s :: findAllFrom r n s'
          | _ => findAllFrom r 0 s'
          end
      end
  end.

Definition FindAllString (r : regex) (s : string) : list string :=
  findAllFrom r 0 s.

(** Pattern syntax. *)
Definition byte (c : ascii) : regex := Class (Ascii.eqb c).

Fixpoint lit (s : string) : regex :=
  match s with
  | EmptyString => Eps
  | String c s' => Cat (byte c) (lit s')
  end.

Definition plus (r : regex) : regex := Cat r (Star r).

Definition inRange (lo hi : nat) (c : ascii) : bool :=
  let n := nat_of_ascii c in (lo <=? n)%nat && (n <=? hi)%nat.

(** [\s] is [[\t\n\f\r ]]. *)
Definition isSpace (c : ascii) : bool :=
  let n := nat_of_ascii c in
  (n =? 9)%nat || (n =? 10)%nat || (n =? 12)%nat || (n =? 13)%nat || (n =? 32)%nat.

Definition isUpper (c : ascii) : bool := inRange 65 90 c.

(** [\w] is [[0-9A-Za-z_]]. *)
Definition isWord (c : ascii) : bool :=
  inRange 48 57 c || isUpper c || inRange 97 122 c || Ascii.eqb c "_"%char.

Definition oneOf (s : string) (c : ascii) : bool :=
  existsb (Ascii.eqb c) (list_ascii_of_string s).

End Regexp.

(** ** File classification (backend.go) *)

Import Strings Regexp.

Definition dquote : string := String "034"%char "".

(** [(function|const|class)\s+\w+\s*[({]] *)
Definition componentDefRe : regex :=
  (Cat (Alt (lit "function") (Alt (lit "const") (lit "class")))
         (Cat (plus (Class isSpace))
         (Cat (plus (Class isWord))
         (Cat (Star (Class isSpace)) (Class (oneOf "({")))))).

(** [(function|const|class)\s+[A-Z]\w+\s*[({]] *)
Definition upperDefRe : regex :=
  (Cat (Alt (lit "function") (Alt (lit "const") (lit "class")))
         (Cat (plus (Class isSpace))
         (Cat (Class isUpper)
         (Cat (plus (Class isWord))
         (Cat (Star (Class isSpace)) (Class (oneOf "({"))))))).

Definition firstByteUpper (fileName : string) : bool :=
  match fileName with
  | EmptyString => false
  | String c _ => Regexp.isUpper c
  end.

(** [isComponentFile].  In the source [hasComponentDef] is written
    [re.MatchString(content) && Contains(content, "render") ||
    Contains(content, "return")]; Go's [&&] binds tighter than [||]. *)
Definition hasReactImport (content : string) : bool :=
  Contains content "import React" || Contains content "from 'react'" ||
  Contains content ("from " +:+ dquote +:+ "react" +:+ dquote).

Definition hasJSXReturn (content : string) : bool :=
  Contains content "return (" && (Contains content "<" && Contains content "/>").

Definition hasComponentDef (content : string) : bool :=
  (Regexp.MatchString componentDefRe content && Contains content "render")
  || Contains content "return".

Definition isComponentFile (content fileName : string) : bool :=
  (hasReactImport content && (hasJSXReturn content || hasComponentDef content))
  || firstByteUpper fileName.

(** [hasMultipleComponents] *)
Definition hasMultipleComponents (content : string) : bool :=
  (1 <? length (Regexp.FindAllString upperDefRe content))%nat.

(** [isStateFile] *)
Definition isStateFile (content path : string) : bool :=
  let isRedux :=
    Contains content "createStore" || Contains content "combineReducers" ||
    Contains content "createSlice" || Contains path "redux" ||
    Contains path "store" || Contains path "state" ||
    Contains path "reducer" || Contains path "action" in
  let isOtherState :=
    Contains content "useContext" || Contains content "createContext" ||
    Contains content "Provider" || Contains content "zustand" ||
    Contains content "recoil" || Contains content "jotai" ||
    Contains content "mobx" in
  isRedux || isOtherState.

(** [isReactFile] *)
Definition isReactFile (filename : string) : bool :=
  let ext := ToLower (Filepath.Ext filename) in
  String.eqb ext ".js" || String.eqb ext ".jsx" ||
  String.eqb ext ".ts" || String.eqb ext ".tsx".

(** ** Alias configuration (the config reader) *)

Record AliasConfig : Type := mkAliasConfig {
  BaseURL : string;
  Aliases : gmap string string
}.

Definition setAlias (config : AliasConfig) (alias target : string) : AliasConfig :=
  {| BaseURL := BaseURL config; Aliases := <[alias := target]> (Aliases config) |}.

Definition setBaseURL (config : AliasConfig) (baseURL : string) : AliasConfig :=
  {| BaseURL := baseURL; Aliases := Aliases config |}.

(** [JSConfig] and [PackageJSON], the decoded documents.  Their maps are
    held as the key/value pairs in the order the runtime enumerates them. *)
Record JSConfig : Type := mkJSConfig {
  CompilerOptions_BaseURL : string;
  CompilerOptions_Paths : list (string * list string)
}.

Record PackageJSON : Type := mkPackageJSON {
  Alias : list (string * string);
  Jest_ModuleNameMapper : list (string * string)
}.

(** The bytes of a config file enter the code only through library calls:
    [json.Unmarshal] into each of the two document types ([None] is its
    error) and the regular expressions of [parseJSConfig].  A readable file
    is represented by what those calls return on it: per [baseUrl] pattern
    the captured group of its first match if any, per alias pattern the
    key/value pairs found in the captured block (none when no match). *)
Record FileData : Type := mkFileData {
  asJSConfig : option JSConfig;
  asPackageJSON : option PackageJSON;
  baseUrlMatches : list (option string);
  aliasMatches : list (list (string * string))
}.

Definition configFiles : list string :=
  ["jsconfig.json"; "tsconfig.json"; "webpack.config.js"; "craco.config.js";
   ".babelrc"; "babel.config.js"; "package.json"].

Definition addPath (config : AliasConfig) (entry : string * list string) : AliasConfig :=
  let '(aliasPattern, targetPaths) := entry in
  match targetPaths with
  | [] => config
  | first :: _ =>
      setAlias config (TrimSuffix aliasPattern "/*") (TrimSuffix first "/*")
  end.

Definition addMapper (config : AliasConfig) (entry : string * string) : AliasConfig :=
  let '(pattern, target) := entry in
  let alias := TrimPrefix pattern "^" in
  let alias := TrimSuffix alias "/(.*)$" in
  let alias := TrimSuffix alias "(.*)$" in
  let target := ReplaceFirst target "<rootDir>/" "" in
  let target := TrimSuffix target "/$1" in
  if Filepath.nonEmpty alias && Filepath.nonEmpty target
  then setAlias config alias target
  else config.

Definition applyPackageJSON (config : AliasConfig) (p : PackageJSON) : AliasConfig :=
  let config := foldl (fun c '(alias, target) => setAlias c alias target) config (Alias p) in
  foldl addMapper config (Jest_ModuleNameMapper p).

Definition applyJSConfig (config : AliasConfig) (j : JSConfig) : AliasConfig :=
  foldl addPath (setBaseURL config (CompilerOptions_BaseURL j)) (CompilerOptions_Paths j).

(** [parseJSConfig]: the first [baseUrl] pattern that matches sets the base
    URL; every alias pattern that matches adds its pairs. *)
Fixpoint firstMatch (ms : list (option string)) : option string :=
  match ms with
  | [] => None
  | Some m :: _ => Some m
  | None :: rest => firstMatch rest
  end.

Definition applyJSFile (config : AliasConfig) (d : FileData) : AliasConfig :=
  let config :=
    match firstMatch (baseUrlMatches d) with
    | Some b => setBaseURL config b
    | None => config
    end in
  foldl (fun c kvs => foldl (fun c '(k, v) => setAlias c k v) c kvs)
        config (aliasMatches d).

Section ConfigReader.

(** The file system as the reader sees it: [os.Stat] succeeds or not,
    [os.ReadFile] returns the file or fails. *)
Variable stat : string -> bool.
Variable readFile : string -> option FileData.

(** [parseJSONConfig]; [None] is the returned error (the configuration is
    then untouched), [Some] the configuration after a [nil] return. *)
Definition parseJSONConfig (configPath : string) (config : AliasConfig)
  : option AliasConfig :=
  match readFile configPath with
  | None => None
  | Some data =>
      let tryPackage :=
        if HasSuffix configPath "package.json" then
          match asPackageJSON data with
          | Some p => applyPackageJSON config p
          | None => config
          end
        else config in
      if HasSuffix configPath "jsconfig.json" || HasSuffix configPath "tsconfig.json"
      then match asJSConfig data with
           | Some j => Some (applyJSConfig config j)
           | None => Some tryPackage
           end
      else Some tryPackage
  end.

(** [parseJSConfig] *)
Definition parseJSConfig (configPath : string) (config : AliasConfig) : AliasConfig :=
  match readFile configPath with
  | None => config
  | Some data => applyJSFile config data
  end.

(** The loop of [ReadProjectConfig] over the candidates still to examine,
    and what follows it. *)
Fixpoint readConfigs (rootDir : string) (candidates : list string)
    (config : AliasConfig) : AliasConfig :=
  match candidates with
  | [] =>
      if stat (Filepath.Join [rootDir; "src"]) then setBaseURL config "src"
      else config
  | configFile :: rest =>
      let configPath := Filepath.Join [rootDir; configFile] in
      if stat configPath then
        let ext := Filepath.Ext configFile in
        if String.eqb ext ".json" then
          match parseJSONConfig configPath config with
          | Some config' => config'
          | None => readConfigs rootDir rest config
          end
        else if String.eqb ext ".js" then
          readConfigs rootDir rest (parseJSConfig configPath config)
        else readConfigs rootDir rest config
      else readConfigs rootDir rest config
  end.

(** [ReadProjectConfig]; its error is always [nil]. *)
Definition ReadProjectConfig (rootDir : string) : AliasConfig :=
  readConfigs rootDir configFiles {| BaseURL := ""; Aliases := ∅ |}.

End ConfigReader.

(** [ResolveImportPath].  [order] is the order in which the runtime
    enumerates [config.Aliases] in this call. *)
Definition aliasTarget (importPath alias target : string)
    (config : AliasConfig) (projectDir : string) : string :=
  let relativePath := TrimPrefix importPath alias in
  let relativePath :=
    if HasPrefix relativePath "/" then sdrop 1 relativePath else relativePath in
  if Filepath.IsAbs target then Filepath.Join [target; relativePath]
  else if Filepath.nonEmpty (BaseURL config)
       then Filepath.Join [projectDir; BaseURL config; target; relativePath]
       else Filepath.Join [projectDir; target; relativePath].

Fixpoint firstAlias (importPath : string) (order : list (string * string))
    : option (string * string) :=
  match order with
  | [] => None
  | (alias, target) :: rest =>
      if HasPrefix importPath alias then Some (alias, target)
      else firstAlias importPath rest
  end.

Definition ResolveImportPath (importPath : string) (config : AliasConfig)
    (order : list (string * string)) (projectDir currentDir : string) : string :=
  if HasPrefix importPath "." then Filepath.Join [currentDir; importPath]
  else if HasPrefix importPath "/" then Filepath.Join [projectDir; sdrop 1 importPath]
  else match firstAlias importPath order with
       | Some (alias, target) => aliasTarget importPath alias target config projectDir
       | None =>
           if Filepath.nonEmpty (BaseURL config)
           then Filepath.Join [projectDir; BaseURL config; importPath]
           else Filepath.Join [projectDir; importPath]
       end.

(** An enumeration of a Go map: each entry once, in any order. *)
Definition enumerates {V : Type} (order : list (string * V)) (m : gmap string V) : Prop :=
  order ≡ₚ map_to_list m.

(** ** The project graph (backend.go) *)

#[local] Set Warnings "-register-all".

Inductive ComponentNode : Type := mkNode {
  ID : string;
  Name : string;
  Path : string;
  Type_ : string;              (* component, state, util, root, directory *)
  MultipleComp : bool;
  Imports : list string;
  ImportedBy : list string;
  Children : list ComponentNode
}.

(** The counters are Go [int]s; each is at most the length of the files
    slice, far from the range where an [int] wraps, so they are kept as
    natural numbers. *)
Record ProjectStats : Type := mkStats {
  TotalComponents : nat;
  MultiCompFiles : nat;
  ComponentFiles : nat;
  StateFiles : nat;
  UtilFiles : nat
}.

Record Project : Type := mkProject {
  Root : ComponentNode;
  NodesMap : gmap string ComponentNode;
  Files : list string;
  Stats : ProjectStats
}.

(** *** Display names and roles: [parseFile] *)

(** The name computation of [parseFile]: the component name and the last
    value of the local [parentDir].  At the project root the source assigns
    the project name to [parentDir] and leaves [componentName] alone. *)
Definition displayName (fileNameWithoutExt relPath rootDir : string)
    : string * string :=
  let componentName := fileNameWithoutExt in
  if String.eqb fileNameWithoutExt "index" then
    let parentDir := Filepath.Dir relPath in
    if String.eqb parentDir "." then (componentName, Filepath.Base rootDir)
    else (Filepath.Base parentDir +:+ "/index", parentDir)
  else (componentName, "").

(** The import pattern [import\s+(?:{[^}]*}|\w+)\s+from\s+Q([^Q]+)Q], where
    [Q] stands for the class of the single and the double quote. *)
Definition isQuote (c : ascii) : bool := oneOf ("'" +:+ dquote) c.

Definition importRe : regex :=
  Cat (lit "import")
  (Cat (plus (Class isSpace))
  (Cat (Alt (Cat (byte "{") (Cat (Star (Class (fun c => negb (Ascii.eqb c "}")))) (byte "}")))
            (plus (Class isWord)))
  (Cat (plus (Class isSpace))
  (Cat (lit "from")
  (Cat (plus (Class isSpace))
  (Cat (Class isQuote)
  (Cat (plus (Class (fun c => negb (isQuote c))))
       (Class isQuote)))))))).

Fixpoint anyByte (p : ascii -> bool) (s : string) : bool :=
  match s with
  | EmptyString => false
  | String c s' => p c || anyByte p s'
  end.

Fixpoint afterLast (p : ascii -> bool) (s : string) : string :=
  match s with
  | EmptyString => EmptyString
  | String c s' =>
      if anyByte p s' then afterLast p s'
      else if p c then s' else s
  end.

(** The captured group of a match of [importRe]: what stands between its
    last two quotes. *)
Definition importGroup (m : string) : string :=
  afterLast isQuote (stake (String.length m - 1) m).

Definition possibleExts : list string := [".js"; ".jsx"; ".ts"; ".tsx"].

Section Scanner.

(** What the run depends on besides the walked tree: [os.Stat], the
    config files, and the order in which the runtime enumerates each map
    the code ranges over. *)
Variable stat : string -> bool.
Variable readFile : string -> option FileData.
Variable rangeAliases : gmap string string -> list (string * string).
Variable rangeNodes : gmap string ComponentNode -> list string.
Variable rangeDirs : gmap string (list ComponentNode) -> list string.

Definition isAlias (importPath : string) (aliases : list (string * string)) : bool :=
  existsb (fun '(alias, _) =>
             String.eqb importPath alias || HasPrefix importPath (alias +:+ "/"))
          aliases.

Definition probeExts (rootDir resolvedPath : string) : string :=
  match List.find (fun ext => stat (Filepath.Join [rootDir; resolvedPath +:+ ext]))
                  possibleExts with
  | Some ext => resolvedPath +:+ ext
  | None =>
      match List.find (fun ext => stat (Filepath.Join [rootDir; resolvedPath; "index" +:+ ext]))
                      possibleExts with
      | Some ext => Filepath.Join [resolvedPath; "index" +:+ ext]
      | None => resolvedPath
      end
  end.

(** One round of the loop of [extractImports]; [None] is [continue].  The
    alias map is enumerated in the order [rangeAliases] gives it, the same
    for the alias test and for [ResolveImportPath] and in every round; the
    order matters only when several aliases prefix-match an import. *)
Definition resolveImport (dir rootDir : string) (aliasConfig : AliasConfig)
    (importPath : string) : option string :=
  let order := rangeAliases (Aliases aliasConfig) in
  if (HasPrefix importPath "@" || negb (Contains importPath "/"))
     && (negb (isAlias importPath order) && negb (HasPrefix importPath ".")
         && negb (HasPrefix importPath "/"))
  then None
  else
    let resolvedPath := ResolveImportPath importPath aliasConfig order rootDir dir in
    let resolvedPath :=
      match Filepath.Rel rootDir resolvedPath with
      | Some relPath => relPath
      | None => resolvedPath
      end in
    Some (if negb (Contains (Filepath.Base resolvedPath) ".")
          then probeExts rootDir resolvedPath
          else resolvedPath).

(** [extractImports] *)
Definition extractImports (content dir rootDir : string) (aliasConfig : AliasConfig)
    : list string :=
  omap (resolveImport dir rootDir aliasConfig)
       (map importGroup (FindAllString importRe content)).

(** [parseFile]; [content] is what [os.ReadFile(path)] returns, [None]
    its error, which [parseFile] returns. *)
Definition parseFile (content : option string) (path relPath rootDir : string)
    (aliasConfig : AliasConfig) : option ComponentNode :=
  match content with
  | None => None
  | Some fileContent =>
      let fileName := Filepath.Base path in
      let fileNameWithoutExt := TrimSuffix fileName (Filepath.Ext fileName) in
      let componentName := fst (displayName fileNameWithoutExt relPath rootDir) in
      let isComp := isComponentFile fileContent fileName in
      Some {| ID := relPath;
              Name := componentName;
              Path := relPath;
              Type_ := if isComp then "component"
                       else if isStateFile fileContent relPath then "state"
                       else "util";
              MultipleComp := if isComp then hasMultipleComponents fileContent else false;
              Imports := extractImports fileContent (Filepath.Dir relPath) rootDir aliasConfig;
              ImportedBy := [];
              Children := [] |}
  end.

(** *** The directory walk: [filepath.Walk] and the callback of [ScanProject] *)

(** The tree under the project root as [filepath.Walk] meets it: the
    entries of a directory in the (sorted) order of [readDirNames].  A
    file carries what [os.ReadFile] returns for it, a directory what
    reading its entries returns; [None] is the error. *)
Inductive FsEntry : Type :=
| File (name : string) (content : option string)
| Dir (name : string) (entries : option (list FsEntry)).

Definition entryName (e : FsEntry) : string :=
  match e with
  | File name _ => name
  | Dir name _ => name
  end.

Definition IsDir (e : FsEntry) : bool :=
  match e with
  | File _ _ => false
  | Dir _ _ => true
  end.

(** What the callback returns besides [nil]. *)
Inductive WalkError : Type :=
| SkipDir
| Failed.

(** The skip test of the callback, on [info.Name()]. *)
Definition skipName (name : string) : bool :=
  String.eqb name "node_modules" || String.eqb name "build" ||
  String.eqb name "dist" || HasPrefix name ".".

Definition bump (b : bool) (n : nat) : nat := if b then S n else n.

(** The statistics update for a registered node. *)
Definition countNode (node : ComponentNode) (st : ProjectStats) : ProjectStats :=
  let isComp := String.eqb (Type_ node) "component" in
  let isState := negb isComp && String.eqb (Type_ node) "state" in
  let isUtil := negb isComp && negb isState && String.eqb (Type_ node) "util" in
  {| TotalComponents := S (TotalComponents st);
     MultiCompFiles := bump (isComp && MultipleComp node) (MultiCompFiles st);
     ComponentFiles := bump isComp (ComponentFiles st);
     StateFiles := bump isState (StateFiles st);
     UtilFiles := bump isUtil (UtilFiles st) |}.

Definition register (node : ComponentNode) (project : Project) : Project :=
  {| Root := Root project;
     NodesMap := <[ID node := node]> (NodesMap project);
     Files := Files project;
     Stats := countNode node (Stats project) |}.

Definition addFile (relPath : string) (project : Project) : Project :=
  {| Root := Root project;
     NodesMap := NodesMap project;
     Files := Files project ++ [relPath];
     Stats := Stats project |}.

(** The callback on a file: the part after the directory test. *)
Definition visitFile (rootDir : string) (aliasConfig : AliasConfig)
    (project : Project) (path name : string) (content : option string)
    : Project * option WalkError :=
  if isReactFile name then
    let relPath := default "" (Filepath.Rel rootDir path) in
    let project := addFile relPath project in
    match parseFile content path relPath rootDir aliasConfig with
    | None => (project, Some Failed)
    | Some node =>
        (if Filepath.nonEmpty (Name node) then register node project else project,
         None)
    end
  else (project, None).

(** [walk] of [path/filepath] with the callback inlined.  A directory
    that cannot be read hands its error to the callback, which returns
    it; a directory the callback answers [SkipDir] for is left at once. *)
Fixpoint walk (rootDir : string) (aliasConfig : AliasConfig)
    (path : string) (e : FsEntry) (project : Project) {struct e}
    : Project * option WalkError :=
  match e with
  | File name content => visitFile rootDir aliasConfig project path name content
  | Dir name None => (project, Some Failed)
  | Dir name (Some entries) =>
      if skipName name then (project, Some SkipDir)
      else
        (fix walkEntries (es : list FsEntry) (project : Project)
           : Project * option WalkError :=
           match es with
           | [] => (project, None)
           | child :: rest =>
               let filename := Filepath.Join [path; entryName child] in
               match walk rootDir aliasConfig filename child project with
               | (project', None) => walkEntries rest project'
               | (project', Some SkipDir) =>
                   if IsDir child then walkEntries rest project'
                   else (project', Some SkipDir)
               | (project', Some Failed) => (project', Some Failed)
               end
           end) entries project
  end.

(** [filepath.Walk]: [SkipDir] from the root is not an error. *)
Definition Walk (rootDir : string) (aliasConfig : AliasConfig)
    (root : FsEntry) (project : Project) : Project * bool :=
  match walk rootDir aliasConfig rootDir root project with
  | (project', Some Failed) => (project', true)
  | (project', _) => (project', false)
  end.

(** *** Reverse edges: [buildRelationships] *)

Definition appendImportedBy (id : string) (node : ComponentNode) : ComponentNode :=
  {| ID := ID node; Name := Name node; Path := Path node; Type_ := Type_ node;
     MultipleComp := MultipleComp node; Imports := Imports node;
     ImportedBy := ImportedBy node ++ [id];
     Children := Children node |}.

(** The body of the inner loop, for the importing key [id]. *)
Definition addReverseEdge (id : string) (nodes : gmap string ComponentNode)
    (importPath : string) : gmap string ComponentNode :=
  match nodes !! importPath with
  | Some importedNode => <[importPath := appendImportedBy id importedNode]> nodes
  | None => nodes
  end.

(** The body of the outer loop: [node] is the map's value for [id] when
    the enumeration reaches it. *)
Definition addReverseEdges (nodes : gmap string ComponentNode) (id : string)
    : gmap string ComponentNode :=
  match nodes !! id with
  | Some node => foldl (addReverseEdge id) nodes (Imports node)
  | None => nodes
  end.

(** [buildRelationships], the keys enumerated in [order]. *)
Definition buildRelationships (order : list string)
    (nodes : gmap string ComponentNode) : gmap string ComponentNode :=
  foldl addReverseEdges nodes order.

(** *** The directory tree: [buildTree] and [buildTreeRecursive] *)

Definition addChildren (parent : ComponentNode) (nodes : list ComponentNode)
    : ComponentNode :=
  {| ID := ID parent; Name := Name parent; Path := Path parent;
     Type_ := Type_ parent; MultipleComp := MultipleComp parent;
     Imports := Imports parent; ImportedBy := ImportedBy parent;
     Children := Children parent ++ nodes |}.

Definition directoryNode (nodeDir : string) : ComponentNode :=
  {| ID := nodeDir; Name := Filepath.Base nodeDir; Path := nodeDir;
     Type_ := "directory"; MultipleComp := false;
     Imports := []; ImportedBy := []; Children := [] |}.

(** The grouping loop of [buildTree]. *)
Definition groupByDir (order : list string) (nodes : gmap string ComponentNode)
    : gmap string (list ComponentNode) :=
  foldl (fun dirNodes id =>
           match nodes !! id with
           | Some node =>
               let dir := Filepath.Dir (Path node) in
               <[dir := default [] (dirNodes !! dir) ++ [node]]> dirNodes
           | None => dirNodes
           end) ∅ order.

(** The test [buildTreeRecursive] applies to a key [nodeDir] of the
    grouping while it fills the directory [dir]. *)
Definition attachedUnder (dir nodeDir : string) : bool :=
  negb (String.eqb nodeDir dir) && HasPrefix nodeDir dir &&
  (let relDir := TrimPrefix nodeDir dir in
   Filepath.nonEmpty relDir && negb (Contains (TrimPrefix relDir "/") "/")).

(** [buildTreeRecursive]; [keys] is the enumeration of the grouping's
    keys, taken to be the same in every call (the runtime may enumerate the
    map in another order in each call, which changes the order of the
    children only).  Every recursive call is on a strictly longer key, so a
    [fuel] above the longest key's length is never used up. *)
Fixpoint buildTreeRecursive (fuel : nat) (parent : ComponentNode) (dir : string)
    (dirNodes : gmap string (list ComponentNode)) (keys : list string)
    : ComponentNode :=
  match fuel with
  | O => parent
  | S fuel' =>
      let parent := addChildren parent (default [] (dirNodes !! dir)) in
      foldl (fun parent nodeDir =>
               if attachedUnder dir nodeDir then
                 addChildren parent
                   [buildTreeRecursive fuel' (directoryNode nodeDir) nodeDir dirNodes keys]
               else parent)
            parent keys
  end.

Definition maxLength (keys : list string) : nat :=
  foldr (fun k n => Nat.max (String.length k) n) 0 keys.

(** [buildTree]: the new root node. *)
Definition buildTree (project : Project) : ComponentNode :=
  let dirNodes := groupByDir (rangeNodes (NodesMap project)) (NodesMap project) in
  let keys := rangeDirs dirNodes in
  buildTreeRecursive (S (maxLength keys)) (Root project) "" dirNodes keys.

(** *** [ScanProject]

    [root] is the entry [os.Lstat(rootDir)] describes.  The result is the
    project and whether an error is returned with it. *)
Definition emptyProject (rootDir : string) : Project :=
  {| Root := {| ID := "root"; Name := Filepath.Base rootDir; Path := rootDir;
                Type_ := "root"; MultipleComp := false;
                Imports := []; ImportedBy := []; Children := [] |};
     NodesMap := ∅;
     Files := [];
     Stats := {| TotalComponents := 0; MultiCompFiles := 0; ComponentFiles := 0;
                 StateFiles := 0; UtilFiles := 0 |} |}.

Definition ScanProject (rootDir : string) (root : FsEntry) : Project * bool :=
  let aliasConfig := ReadProjectConfig stat readFile rootDir in
  match Walk rootDir aliasConfig root (emptyProject rootDir) with
  | (project, true) => (project, true)
  | (project, false) =>
      let nodes := buildRelationships (rangeNodes (NodesMap project)) (NodesMap project) in
      let project := {| Root := Root project; NodesMap := nodes;
                        Files := Files project; Stats := Stats project |} in
      ({| Root := buildTree project; NodesMap := NodesMap project;
          Files := Files project; Stats := Stats project |}, false)
  end.

End Scanner.

(** One run-time environment for the examples: no file exists beside the
    walked tree, and maps are enumerated in the order of their keys'
    encoding. *)
Definition noStat : string -> bool := fun _ => false.
Definition noFile : string -> option FileData := fun _ => None.
Definition keysOf {V : Type} (m : gmap string V) : list string := (map_to_list m).*1.

Definition scan (rootDir : string) (root : FsEntry) : Project * bool :=
  ScanProject noStat noFile map_to_list keysOf keysOf rootDir root.

Definition sampleTree : FsEntry :=
  Dir "proj" (Some [
    File ".hidden.ts" (Some "export const x = 1;");
    File "index.js" (Some "import App from './src/App'");
    Dir "node_modules" (Some [File "lib.js" (Some "")]);
    Dir "src" (Some [
      File "App.jsx" (Some "import React from 'react'; import { b } from './util/b.js'; function App() { return (<div/>) }");
      Dir "util" (Some [File "b.js" (Some "export const b = 2;")])])]).

(** ** Inputs used in the statements below *)

Definition noAliases : AliasConfig := {| BaseURL := ""; Aliases := ∅ |}.


(** A lower-case helper with a React import and a bare [return]: no
    declaration the pattern matches, no JSX return. *)
Definition helperContent : string := "import React from 'react';
return 1;".

(** The roles [parseFile] gives a file through the model's environment. *)
Definition roleOf (content path relPath rootDir : string) : option string :=
  Type_ <$> parseFile noStat map_to_list (Some content) path relPath rootDir noAliases.

Definition nameOf (content path relPath rootDir : string) : option string :=
  Name <$> parseFile noStat map_to_list (Some content) path relPath rootDir noAliases.

(** A project with a [src] directory, a [jsconfig.json] that is not valid
    JSON and a valid [tsconfig.json]. *)
Definition notJSON : FileData :=
  {| asJSConfig := None; asPackageJSON := None;
     baseUrlMatches := [None; None]; aliasMatches := [[]; []] |}.

Definition tsconfigData : FileData :=
  {| asJSConfig := Some {| CompilerOptions_BaseURL := "app";
                           CompilerOptions_Paths := [("@c/*", ["src/components/*"])] |};
     asPackageJSON := Some {| Alias := []; Jest_ModuleNameMapper := [] |};
     baseUrlMatches := [None; None]; aliasMatches := [[]; []] |}.

Definition brokenStat (path : string) : bool :=
  existsb (String.eqb path) ["/p/jsconfig.json"; "/p/tsconfig.json"; "/p/src"].

Definition brokenRead (path : string) : option FileData :=
  if String.eqb path "/p/jsconfig.json" then Some notJSON
  else if String.eqb path "/p/tsconfig.json" then Some tsconfigData
  else None.

(** The same project without the [jsconfig.json]. *)
Definition soundStat (path : string) : bool :=
  existsb (String.eqb path) ["/p/tsconfig.json"; "/p/src"].

(** Two aliases that both prefix-match [@c/Button]. *)
Definition twoAliases : AliasConfig :=
  {| BaseURL := ""; Aliases := <["@" := "src"]> (<["@c" := "src/components"]> ∅) |}.

(** Two aliases of which one prefix-matches [@c/Button]. *)
Definition apartAliases : AliasConfig :=
  {| BaseURL := "src"; Aliases := <["@u" := "util"]> (<["@c" := "components"]> ∅) |}.

(** ** Notions used to state the properties of the graph *)

(** How often [x] occurs in [l]. *)
Fixpoint occurrences (x : string) (l : list string) : nat :=
  match l with
  | [] => 0
  | y :: rest => (if String.eqb x y then 1 else 0) + occurrences x rest
  end.

(** A node with further reverse entries appended. *)
Definition extendImportedBy (ids : list string) (node : ComponentNode) : ComponentNode :=
  {| ID := ID node; Name := Name node; Path := Path node; Type_ := Type_ node;
     MultipleComp := MultipleComp node; Imports := Imports node;
     ImportedBy := ImportedBy node ++ ids;
     Children := Children node |}.

(** The reverse entries the key [k] receives when the keys of [nodes] are
    enumerated in [order]: the importing key, once per occurrence of [k]
    among its imports. *)
Definition reverseEntries (nodes : gmap string ComponentNode) (order : list string)
    (k : string) : list string :=
  flat_map (fun id => match nodes !! id with
                      | Some node => replicate (occurrences k (Imports node)) id
                      | None => []
                      end) order.

(** ** Notions used to state the properties of the walk *)

(** The loop of [walk] over the entries of a directory, by itself. *)
Definition walkEntries (stat : string -> bool)
    (rangeAliases : gmap string string -> list (string * string))
    (rootDir : string) (aliasConfig : AliasConfig) (path : string)
    : list FsEntry -> Project -> Project * option WalkError :=
  fix walkEntries (es : list FsEntry) (project : Project) :=
    match es with
    | [] => (project, None)
    | child :: rest =>
        let filename := Filepath.Join [path; entryName child] in
        match walk stat rangeAliases rootDir aliasConfig filename child project with
        | (project', None) => walkEntries rest project'
        | (project', Some SkipDir) =>
            if IsDir child then walkEntries rest project'
            else (project', Some SkipDir)
        | (project', Some Failed) => (project', Some Failed)
        end
    end.

(** [Reaches path e dirs fpath fname content]: below the entry [e], which
    [Walk] meets under the path [path], lies the file [fname] with the
    contents [content]; [Walk] would name it [fpath], and [dirs] are the
    names of the directories from [e] down to the one that holds it. *)
Inductive Reaches : string -> FsEntry -> list string -> string -> string ->
                    option string -> Prop :=
| Reaches_file path name content :
    Reaches path (File name content) [] path name content
| Reaches_dir path name entries child dirs fpath fname content :
    child ∈ entries ->
    Reaches (Filepath.Join [path; entryName child]) child dirs fpath fname content ->
    Reaches path (Dir name (Some entries)) (name :: dirs) fpath fname content.

(** The identifier the scan gives the file [Walk] names [fpath]. *)
Definition relPathOf (rootDir fpath : string) : string :=
  default "" (Filepath.Rel rootDir fpath).

(** [x] is the identifier of a file below [e] none of whose enclosing
    directories, [e] included, has a name the walk skips. *)
Definition unprunedOrigin (rootDir path : string) (e : FsEntry) (x : string) : Prop :=
  exists dirs fpath fname content,
    Reaches path e dirs fpath fname content
    /\ Forall (fun d => skipName d = false) dirs
    /\ x = relPathOf rootDir fpath.

(** [x] is listed in the project: among its files or as a key of its registry. *)
Definition listed (project : Project) (x : string) : Prop :=
  x ∈ Files project \/ is_Some (NodesMap project !! x).

Definition fileRole (role : string) : Prop :=
  role = "component" \/ role = "state" \/ role = "util".

Definition statsConsistent (st : ProjectStats) : Prop :=
  TotalComponents st = ComponentFiles st + StateFiles st + UtilFiles st
  /\ MultiCompFiles st <= ComponentFiles st.

(** Induction on the walked tree, with the hypothesis for every entry of a
    directory. *)
Section FsEntry_nested_ind.
Variable P : FsEntry -> Prop.
Hypothesis HFile : forall name content, P (File name content).
Hypothesis HUnreadable : forall name, P (Dir name None).
Hypothesis HDir : forall name entries, Forall P entries -> P (Dir name (Some entries)).

Fixpoint FsEntry_nested_ind (e : FsEntry) : P e :=
  match e with
  | File name content => HFile name content
  | Dir name None => HUnreadable name
  | Dir name (Some entries) =>
      HDir name entries
        ((fix all (es : list FsEntry) : Forall P es :=
            match es with
            | [] => @List.Forall_nil FsEntry P
            | e' :: es' => @List.Forall_cons FsEntry P e' es' (FsEntry_nested_ind e') (all es')
            end) entries)
  end.
End FsEntry_nested_ind.

(** A small registry: [a.js] imports [b.js] twice and a path that is no
    key; [b.js] imports nothing. *)
Definition fileNode (id : string) (imports : list string) : ComponentNode :=
  {| ID := id; Name := id; Path := id; Type_ := "util"; MultipleComp := false;
     Imports := imports; ImportedBy := []; Children := [] |}.

Definition sampleRegistry : gmap string ComponentNode :=
  <["a.js" := fileNode "a.js" ["b.js"; "lib/x"; "b.js"]]>
    (<["b.js" := fileNode "b.js" []]> ∅).

(** No two files below [e] at different places share an identifier. *)
Definition identifiersDistinct (rootDir path : string) (e : FsEntry) : Prop :=
  forall dirs1 fpath1 fname1 content1 dirs2 fpath2 fname2 content2,
    Reaches path e dirs1 fpath1 fname1 content1 ->
    Reaches path e dirs2 fpath2 fname2 content2 ->
    relPathOf rootDir fpath1 = relPathOf rootDir fpath2 ->
    dirs1 = dirs2.

(** A plain name, as the entries of a directory have them: not empty,
    neither [.] nor [..], and without a separator. *)
Definition hasSep (s : string) : bool :=
  anyByte (fun c => Ascii.eqb c Filepath.Separator) s.

Definition plain (name : string) : bool :=
  Filepath.nonEmpty name && negb (String.eqb name ".") && negb (String.eqb name "..")
  && negb (hasSep name).

(** The names of all entries below [e] are plain. *)
Fixpoint plainBelow (e : FsEntry) : bool :=
  match e with
  | File _ _ => true
  | Dir _ None => true
  | Dir _ (Some entries) =>
      (fix all (es : list FsEntry) : bool :=
         match es with
         | [] => true
         | child :: rest => plain (entryName child) && plainBelow child && all rest
         end) entries
  end.

(** The path [Walk] hands the callback after descending from [path]
    through [names]. *)
Definition walkPath (path : string) (names : list string) : string :=
  foldl (fun p name => Filepath.Join [p; name]) path names.

(** Every registered node carries one of the three file roles, and its key
    as identifier. *)
Definition registryWellFormed (nodes : gmap string ComponentNode) : Prop :=
  forall k node, nodes !! k = Some node -> fileRole (Type_ node) /\ ID node = k.

(** ** Inputs for the directory tree *)

(** The identifiers of a tree, without the rest of the nodes. *)
Inductive Shape : Type :=
| At (id : string) (children : list Shape).

Fixpoint shape (node : ComponentNode) : Shape :=
  At (ID node) (map shape (Children node)).

(** [buildTree] on a registry, for the project root [/p]. *)
Definition treeOf (nodes : gmap string ComponentNode) : ComponentNode :=
  buildTree keysOf keysOf
    {| Root := Root (emptyProject "/p"); NodesMap := nodes;
       Files := []; Stats := Stats (emptyProject "/p") |}.

(** One file directly in the project root. *)
Definition rootFileRegistry : gmap string ComponentNode :=
  <["App.js" := fileNode "App.js" []]> ∅.

(** A file in [src] and a file in its sibling directory [srcfoo]. *)
Definition siblingRegistry : gmap string ComponentNode :=
  <["src/a.js" := fileNode "src/a.js" []]>
    (<["srcfoo/b.js" := fileNode "srcfoo/b.js" []]> ∅).

(** What the scan owes to an eligible file: its identifier among the files
    and, when its display name is not empty, as a key of the registry. *)
Definition scanned (stat : string -> bool)
    (rangeAliases : gmap string string -> list (string * string))
    (rootDir : string) (aliasConfig : AliasConfig)
    (content : option string) (fpath : string) (project : Project) : Prop :=
  relPathOf rootDir fpath ∈ Files project
  /\ (forall node,
        parseFile stat rangeAliases content fpath (relPathOf rootDir fpath) rootDir aliasConfig
        = Some node ->
        Name node <> "" ->
        is_Some (NodesMap project !! relPathOf rootDir fpath)).

(** A project with a [tsconfig.json] that maps [@components/*] to
    [src/components/*], and a page that imports a button through it. *)
Definition aliasStat (path : string) : bool :=
  existsb (String.eqb path) ["/p/tsconfig.json"; "/p/src"; "/p/src/components/Button.jsx"].

Definition aliasRead (path : string) : option FileData :=
  if String.eqb path "/p/tsconfig.json" then
    Some {| asJSConfig := Some {| CompilerOptions_BaseURL := "";
                                  CompilerOptions_Paths :=
                                    [("@components/*", ["src/components/*"])] |};
            asPackageJSON := Some {| Alias := []; Jest_ModuleNameMapper := [] |};
            baseUrlMatches := [None; None]; aliasMatches := [[]; []] |}
  else None.

Definition aliasTree : FsEntry :=
  Dir "p" (Some [
    Dir "src" (Some [
      File "Page.jsx" (Some "import React from 'react';
import Button from '@components/Button';
import lodash from 'lodash';
function Foo() { return (<Button />) }
function Bar() { return (<Foo />) }");
      Dir "components" (Some [
        File "Button.jsx" (Some "import React from 'react';
export const Button = () => { return (<button />) }")])])]).

(** ** Path normalisation (backend.go) *)

(** [strings.ReplaceAll(s, old, new)] for a non-empty [old]: the
    occurrences are replaced from the left, without overlap; [skip] bytes
    belong to the occurrence just replaced. *)
Fixpoint replaceAllFrom (old new : string) (skip : nat) (s : string) : string :=
  match s with
  | EmptyString => EmptyString
  | String c s' =>
      match skip with
      | S k => replaceAllFrom old new k s'
      | O =>
          if HasPrefix s old
          then new +:+ replaceAllFrom old new (String.length old - 1) s'
          else String c (replaceAllFrom old new 0 s')
      end
  end.

Definition ReplaceAll (s old new : string) : string := replaceAllFrom old new 0 s.

Definition backslash : string := String "092"%char "".

(** [ConvertToUnixPath] *)
Definition ConvertToUnixPath (path : string) : string :=
  ReplaceAll path backslash "/".

(** The part of the loop body of [ConvertProjectPathsToUnix] on a registry
    node, and [convertChildrenPaths] on each child: identifier, path,
    imports and reverse imports are converted, then the children in the
    same way. *)
Fixpoint convertNodePaths (node : ComponentNode) : ComponentNode :=
  {| ID := ConvertToUnixPath (ID node);
     Name := Name node;
     Path := ConvertToUnixPath (Path node);
     Type_ := Type_ node;
     MultipleComp := MultipleComp node;
     Imports := map ConvertToUnixPath (Imports node);
     ImportedBy := map ConvertToUnixPath (ImportedBy node);
     Children := map convertNodePaths (Children node) |}.

(** [convertChildrenPaths]: the node's own fields are left alone. *)
Definition convertChildrenPaths (node : ComponentNode) : ComponentNode :=
  {| ID := ID node; Name := Name node; Path := Path node; Type_ := Type_ node;
     MultipleComp := MultipleComp node; Imports := Imports node;
     ImportedBy := ImportedBy node;
     Children := map convertNodePaths (Children node) |}.

(** What the conversion does to the tree under [project.Root], which it
    never visits: the nodes of the tree are the copies [buildTree] made of
    the registry's nodes, and a copy shares the arrays of its [Imports] and
    [ImportedBy] slices with the original, so the writes
    [node.Imports[i] = ...] of the registry loop show in the tree as well;
    the identifiers and paths of the copies are strings of their own. *)
Fixpoint sharedSlicesConverted (node : ComponentNode) : ComponentNode :=
  {| ID := ID node; Name := Name node; Path := Path node; Type_ := Type_ node;
     MultipleComp := MultipleComp node;
     Imports := map ConvertToUnixPath (Imports node);
     ImportedBy := map ConvertToUnixPath (ImportedBy node);
     Children := map sharedSlicesConverted (Children node) |}.

(** The loop that fills [newNodesMap], the registry enumerated in [order]. *)
Definition convertRegistry (order : list string) (nodes : gmap string ComponentNode)
    : gmap string ComponentNode :=
  foldl (fun newNodesMap id =>
           match nodes !! id with
           | Some node => <[ConvertToUnixPath id := convertNodePaths node]> newNodesMap
           | None => newNodesMap
           end) ∅ order.

(** [ConvertProjectPathsToUnix], on the project [ScanProject] returned. *)
Definition ConvertProjectPathsToUnix (order : list string) (project : Project) : Project :=
  {| Root := {| ID := ID (Root project); Name := Name (Root project);
                Path := ConvertToUnixPath (Path (Root project));
                Type_ := Type_ (Root project);
                MultipleComp := MultipleComp (Root project);
                Imports := Imports (Root project);
                ImportedBy := ImportedBy (Root project);
                Children := map sharedSlicesConverted (Children (Root project)) |};
     NodesMap := convertRegistry order (NodesMap project);
     Files := map ConvertToUnixPath (Files project);
     Stats := Stats project |}.

(** The bytes of a string, each replaced by its image. *)
Fixpoint mapBytes (f : ascii -> ascii) (s : string) : string :=
  match s with
  | EmptyString => EmptyString
  | String c s' => String (f c) (mapBytes f s')
  end.

Definition slashFor (c : ascii) : ascii :=
  if Ascii.eqb c "092"%char then "/"%char else c.

Definition hasBackslash (s : string) : bool := anyByte (Ascii.eqb "092"%char) s.

(** Induction on a node, with the hypothesis for each of its children. *)
Section ComponentNode_nested_ind.
Variable P : ComponentNode -> Prop.
Hypothesis HNode : forall id name path type multipleComp imports importedBy children,
  Forall P children ->
  P (mkNode id name path type multipleComp imports importedBy children).

Fixpoint ComponentNode_nested_ind (node : ComponentNode) : P node :=
  match node with
  | mkNode id name path type multipleComp imports importedBy children =>
      HNode id name path type multipleComp imports importedBy children
        ((fix all (ns : list ComponentNode) : Forall P ns :=
            match ns with
            | [] => @List.Forall_nil ComponentNode P
            | n :: ns' =>
                @List.Forall_cons ComponentNode P n ns' (ComponentNode_nested_ind n) (all ns')
            end) children)
  end.
End ComponentNode_nested_ind.

(** No path-like field of the node or of a node below it holds a backslash. *)
Fixpoint nodeNormalised (node : ComponentNode) : bool :=
  negb (hasBackslash (ID node)) && negb (hasBackslash (Path node))
  && forallb (fun p => negb (hasBackslash p)) (Imports node)
  && forallb (fun p => negb (hasBackslash p)) (ImportedBy node)
  && forallb nodeNormalised (Children node).

(** The paths of a tree, root first. *)
Fixpoint treePaths (node : ComponentNode) : list string :=
  Path node :: flat_map treePaths (Children node).

(** A registry as Windows would produce it. *)
Definition windowsNode (id : string) (imports importedBy : list string) : ComponentNode :=
  {| ID := id; Name := "x"; Path := id; Type_ := "util"; MultipleComp := false;
     Imports := imports; ImportedBy := importedBy; Children := [] |}.

Definition windowsRegistry : gmap string ComponentNode :=
  <[String.append "src" (String.append backslash "App.jsx") :=
      windowsNode (String.append "src" (String.append backslash "App.jsx"))
                  [String.append "src" (String.append backslash "b.js")] []]>
    (<[String.append "src" (String.append backslash "b.js") :=
         windowsNode (String.append "src" (String.append backslash "b.js"))
                     [] [String.append "src" (String.append backslash "App.jsx")]]> ∅).

Definition windowsProject : Project :=
  {| Root := Root (emptyProject (String.append "C:" (String.append backslash "app")));
     NodesMap := windowsRegistry;
     Files := keysOf windowsRegistry;
     Stats := Stats (emptyProject "") |}.

(** A project holds no backslash in its files list and registry. *)
Definition projectNormalised (project : Project) : Prop :=
  Forall (fun f => hasBackslash f = false) (Files project)
  /\ (forall k node, NodesMap project !! k = Some node ->
        hasBackslash k = false /\ nodeNormalised node = true).

(** What a scan leaves under the key [k] of the registry, the reverse
    imports apart. *)
Definition scannedNode (k : string) (node : ComponentNode) : Prop :=
  ID node = k /\ Path node = k /\ Children node = [] /\ Name node <> ""
  /\ fileRole (Type_ node)
  /\ (MultipleComp node = true -> Type_ node = "component").

(** The files the walk hands to the callback when nothing fails: those
    below [e] that no directory with a skipped name encloses, in the order
    of the walk, each with the path [Walk] names it by, its name and what
    reading it returns. *)
Fixpoint visitedFiles (path : string) (e : FsEntry)
    : list (string * string * option string) :=
  match e with
  | File name content => [(path, name, content)]
  | Dir name None => []
  | Dir name (Some entries) =>
      if skipName name then []
      else flat_map (fun child => visitedFiles (Filepath.Join [path; entryName child]) child)
                    entries
  end.

(** The project after the callback has seen the file [f]. *)
Definition visit (stat : string -> bool)
    (rangeAliases : gmap string string -> list (string * string))
    (rootDir : string) (aliasConfig : AliasConfig)
    (project : Project) (f : string * string * option string) : Project :=
  (visitFile stat rangeAliases rootDir aliasConfig project f.1.1 f.1.2 f.2).1.

(** The identifiers of the eligible files among [fs]. *)
Definition eligibleIdentifiers (rootDir : string)
    (fs : list (string * string * option string)) : list string :=
  map (fun f => relPathOf rootDir f.1.1) (filter (fun f => isReactFile f.1.2 = true) fs).

(** A tree with a file that cannot be read. *)
Definition unreadableTree : FsEntry :=
  Dir "proj" (Some [
    File "a.js" (Some "export const a = 1;");
    Dir "src" (Some [File "App.jsx" None; File "b.js" (Some "")]);
    File "z.js" (Some "")]).

(** A tree under a root the walk skips. *)
Definition hiddenRoot : FsEntry :=
  Dir ".config" (Some [File "App.jsx" (Some "")]).

(** Below [node], every node that is no directory lies in the directory
    whose node holds it. *)
Fixpoint filesInPlace (node : ComponentNode) : bool :=
  forallb (fun child =>
             if String.eqb (Type_ child) "directory" then filesInPlace child
             else String.eqb (Filepath.Dir (Path child)) (ID node))
          (Children node).

(** A registry whose only file lies two directories below the root. *)
Definition nestedRegistry : gmap string ComponentNode :=
  <["src/components/App.jsx" := fileNode "src/components/App.jsx" []]> ∅.

(** The configuration the JS config files leave when no JSON candidate
    ended the search before them: each of the three that exists is handed
    to [parseJSConfig], in the order of the candidates. *)
Definition jsConfigs (stat : string -> bool) (readFile : string -> option FileData)
    (rootDir : string) : AliasConfig :=
  foldl (fun config configFile =>
           let configPath := Filepath.Join [rootDir; configFile] in
           if stat configPath then parseJSConfig readFile configPath config else config)
        {| BaseURL := ""; Aliases := ∅ |}
        ["webpack.config.js"; "craco.config.js"; "babel.config.js"].

(** A project with a webpack config that names the base URL [app] and,
    in an [alias] block outside any [resolve] block, the alias [ui] for
    [app/ui]; and a [src] directory. *)
Definition webpackData : FileData :=
  {| asJSConfig := None; asPackageJSON := None;
     baseUrlMatches := [Some "app"; Some "app"]; aliasMatches := [[("ui", "app/ui")]; []] |}.

Definition webpackStat (path : string) : bool :=
  existsb (String.eqb path) ["/p/webpack.config.js"; "/p/src"].

Definition webpackRead (path : string) : option FileData :=
  if String.eqb path "/p/webpack.config.js" then Some webpackData else None.

(** A project with nothing but a [package.json] and a [src] directory. *)
Definition packageData : FileData :=
  {| asJSConfig := None;
     asPackageJSON := Some {| Alias := [("@", "src")]; Jest_ModuleNameMapper := [] |};
     baseUrlMatches := [None; None]; aliasMatches := [[]; []] |}.

Definition packageStat (path : string) : bool :=
  existsb (String.eqb path) ["/p/package.json"; "/p/src"].

Definition packageRead (path : string) : option FileData :=
  if String.eqb path "/p/package.json" then Some packageData else None.

Definition hasDot (s : string) : bool := anyByte (fun c => Ascii.eqb c "."%char) s.

(** A visited file the scan registers when it can read it: an eligible
    file whose name has something before its extension. *)
Definition registrable (f : string * string * option string) : bool :=
  isReactFile f.1.2
  && Filepath.nonEmpty (TrimSuffix (Filepath.Base f.1.1) (Filepath.Ext (Filepath.Base f.1.1))).




(** ** [GetProjectJSON] and [saveProjectJSON] *)

(** What the two functions ask of the machine besides the scan: the home
    directory ([None] is the error of [os.UserHomeDir]), the formatted
    time, whether [os.MkdirAll] and [os.WriteFile] succeed on their
    arguments, and [json.MarshalIndent] ([None] is its error). *)
Record Host : Type := mkHost {
  UserHomeDir : option string;
  timestamp : string;
  mkdirAllSucceeds : string -> bool;
  writeFileSucceeds : string -> string -> bool;
  MarshalIndent : Project -> option string
}.

(** The calls that change the file system, in the order they are made. *)
Inductive FsCall : Type :=
| MkdirAll (path : string)
| WriteFile (name data : string).

(** [saveProjectJSON]: the calls made and whether an error is returned. *)
Definition saveProjectJSON (host : Host) (rootDir jsonData : string) : list FsCall * bool :=
  let projectName := Filepath.Base rootDir in
  let filename := projectName +:+ "_" +:+ timestamp host +:+ ".json" in
  match UserHomeDir host with
  | None => ([], true)
  | Some homeDir =>
      let targetDir := Filepath.Join [homeDir; ".local"; "reactviz"] in
      if mkdirAllSucceeds host targetDir then
        let filePath := Filepath.Join [targetDir; filename] in
        ([MkdirAll targetDir; WriteFile filePath jsonData],
         negb (writeFileSucceeds host filePath jsonData))
      else ([MkdirAll targetDir], true)
  end.

(** [GetProjectJSON], which [App.ScanProject] returns the result of: the
    string, whether an error is returned, and the calls made.
    [rangeConvert] is the order in which [ConvertProjectPathsToUnix]
    enumerates the registry. *)
Definition GetProjectJSON (stat : string -> bool) (readFile : string -> option FileData)
    (rangeAliases : gmap string string -> list (string * string))
    (rangeNodes : gmap string ComponentNode -> list string)
    (rangeDirs : gmap string (list ComponentNode) -> list string)
    (rangeConvert : gmap string ComponentNode -> list string)
    (host : Host) (rootDir : string) (root : FsEntry) : string * bool * list FsCall :=
  match ScanProject stat readFile rangeAliases rangeNodes rangeDirs rootDir root with
  | (_, true) => ("", true, [])
  | (project, false) =>
      let project := ConvertProjectPathsToUnix (rangeConvert (NodesMap project)) project in
      match MarshalIndent host project with
      | None => ("", true, [])
      | Some jsonData =>
          match saveProjectJSON host rootDir jsonData with
          | (calls, true) => ("", true, calls)
          | (calls, false) => (jsonData, false, calls)
          end
      end
  end.

(** A machine on which everything succeeds; the marshalled project is
    stood for by the number of its files. *)
Definition plainHost : Host :=
  {| UserHomeDir := Some "/home/u";
     timestamp := "20260101_120000";
     mkdirAllSucceeds := fun _ => true;
     writeFileSucceeds := fun _ _ => true;
     MarshalIndent := fun project => Some (Strings.Join (Files project) ",") |}.

(** Two nodes that differ at most in the order of their reverse imports. *)
Definition sameUpToReverseOrder (node1 node2 : ComponentNode) : Prop :=
  ID node1 = ID node2 /\ Name node1 = Name node2 /\ Path node1 = Path node2
  /\ Type_ node1 = Type_ node2 /\ MultipleComp node1 = MultipleComp node2
  /\ Imports node1 = Imports node2 /\ Children node1 = Children node2
  /\ ImportedBy node1 ≡ₚ ImportedBy node2.

(** The identifier of the file [Walk] names [fpath] belongs to no other
    file the walk visits: whatever lies below [root], outside the
    directories with a skipped name, under the same identifier is that file
    with those contents. *)
Definition identifierDetermines (rootDir : string) (root : FsEntry)
    (fpath : string) (content : option string) : Prop :=
  forall dirs fpath' fname' content',
    Reaches rootDir root dirs fpath' fname' content' ->
    Forall (fun d => skipName d = false) dirs ->
    relPathOf rootDir fpath' = relPathOf rootDir fpath ->
    fpath' = fpath /\ content' = content.

(** No directory below [e] lists a name twice, as [readDirNames] never
    does. *)
Fixpoint distinctNames (e : FsEntry) : bool :=
  match e with
  | File _ _ => true
  | Dir _ None => true
  | Dir _ (Some entries) =>
      bool_decide (NoDup (map entryName entries))
      && (fix all (es : list FsEntry) : bool :=
            match es with
            | [] => true
            | child :: rest => distinctNames child && all rest
            end) entries
  end.

(** * Checks of the library models on concrete inputs *)

Example HasSuffix_ex : Strings.TrimSuffix "components/*" "/*" = "components".
Proof. reflexivity. Qed.

Example Split_ex : Strings.Split "/" "/a//b" = [""; "a"; ""; "b"].
Proof. reflexivity. Qed.

Example Clean_ex :
  map Filepath.Clean [""; "/"; "a/.."; "/.."; "../a/../.."; "a//b/./c/"; "/a/../../b"]
  = ["."; "/"; "."; "/"; "../.."; "a/b/c"; "/b"].
Proof. reflexivity. Qed.

Example Base_ex :
  map Filepath.Base [""; "/"; "a/b/"; "/home/u/proj"; "index.js"; "."]
  = ["."; "/"; "b"; "proj"; "index.js"; "."].
Proof. reflexivity. Qed.

Example Ext_ex :
  map Filepath.Ext ["index.js"; ".babelrc"; "a.b/c"; "x.test.tsx"; ".hidden.ts"; "a."]
  = [".js"; ".babelrc"; ""; ".tsx"; ".ts"; "."].
Proof. reflexivity. Qed.

Example Dir_ex :
  map Filepath.Dir ["index.js"; "src/App.js"; "src/components/B.jsx"; "/a"; "a/"]
  = ["."; "src"; "src/components"; "/"; "a"].
Proof. reflexivity. Qed.

Example Rel_ex :
  map (Filepath.Rel "/p") ["/p"; "/p/src/a.js"; "/q/a"; "/"; "p"]
  = [Some "."; Some "src/a.js"; Some "../q/a"; Some ".."; None]
  /\ map (fun '(b, t) => Filepath.Rel b t)
         [("a/b", "a/b/c/d"); ("a/b/c", "a/c/d"); ("a/b/c/d", "a/b"); (".", "a/b");
          ("..", "a"); ("/", "/a"); ("ab/cd", "ab/cde")]
     = [Some "c/d"; Some "../../c/d"; Some "../.."; Some "a/b"; None; Some "a"; Some "../cde"].
Proof. split; reflexivity. Qed.

Example Join_ex :
  map Filepath.Join [["src"; "./Button"]; [""; ""]; ["/p"; ""; "a"]; [""; "a"; "../b"]]
  = ["src/Button"; ""; "/p/a"; "b"].
Proof. reflexivity. Qed.

Example regex_ex :
  Regexp.MatchString componentDefRe "export const  Foo = () => {" = false
  /\ Regexp.MatchString componentDefRe "function Foo (props) {" = true
  /\ Regexp.MatchString componentDefRe "class A{" = true
  /\ Regexp.FindAllString upperDefRe "function Foo() {} const x(; class  Bar {"
     = ["function Foo("; "class  Bar {"]
  /\ hasMultipleComponents "function Foo() {} function Bar() {}" = true
  /\ isReactFile "a.TSX" = true /\ isReactFile ".babelrc" = false.
Proof. repeat split; vm_compute; reflexivity. Qed.

(** * Classification *)

Section Classification.

Variable stat : string -> bool.
Variable rangeAliases : gmap string string -> list (string * string).



(** What [isComponentFile] computes, with the grouping Go gives the
    operators of [hasComponentDef]. *)
Lemma isComponentFile_spec content fileName :
  isComponentFile content fileName = true <->
  (hasReactImport content = true /\
   (hasJSXReturn content = true \/
    (MatchString componentDefRe content = true /\ Contains content "render" = true) \/
    Contains content "return" = true))
  \/ firstByteUpper fileName = true.
Proof.
  unfold isComponentFile, hasComponentDef.
  rewrite !orb_true_iff, !andb_true_iff, !orb_true_iff, !andb_true_iff.
  tauto.
Qed.

(** C3: the display name of a file called [index.*].  Directly in the
    project root it stays [index]; elsewhere it is the parent directory's
    name followed by [/index]. *)
Theorem index_display_name content path relPath rootDir aliasConfig node :
  parseFile stat rangeAliases (Some content) path relPath rootDir aliasConfig = Some node ->
  TrimSuffix (Filepath.Base path) (Filepath.Ext (Filepath.Base path)) = "index" ->
  (Filepath.Dir relPath = "." -> Name node = "index")
  /\ (Filepath.Dir relPath <> "." ->
      Name node = Filepath.Base (Filepath.Dir relPath) +:+ "/index").
Proof.
  intros [= <-] Hindex. cbn [Name]. unfold displayName. rewrite Hindex. cbn [String.eqb Ascii.eqb Bool.eqb].
  split.
  - intros ->. reflexivity.
  - intros Hne. destruct (String.eqb_spec (Filepath.Dir relPath) ".") as [Heq | _];
      [contradiction | reflexivity].
Qed.

End Classification.



(** C2: a lower-case file with a React import and the token [return], but
    with no declaration and no JSX return, is classified as a component:
    [return] alone satisfies [hasComponentDef]. *)
Theorem return_alone_makes_component :
  hasReactImport helperContent = true
  /\ Contains helperContent "return" = true
  /\ MatchString componentDefRe helperContent = false
  /\ hasJSXReturn helperContent = false
  /\ firstByteUpper "helper.js" = false
  /\ isComponentFile helperContent "helper.js" = true
  /\ roleOf helperContent "/p/src/helper.js" "src/helper.js" "/p" = Some "component".
Proof. repeat split; vm_compute; reflexivity. Qed.

Lemma index_display_name_witness :
  nameOf "" "/home/u/myapp/index.js" "index.js" "/home/u/myapp" = Some "index"
  /\ Filepath.Base "/home/u/myapp" = "myapp"
  /\ nameOf "" "/home/u/myapp/src/pages/index.tsx" "src/pages/index.tsx" "/home/u/myapp"
     = Some "pages/index".
Proof.
  unfold nameOf.
  destruct (parseFile noStat map_to_list (Some "")
              "/home/u/myapp/index.js" "index.js" "/home/u/myapp" noAliases)
    as [top|] eqn:Htop; [| discriminate Htop].
  destruct (parseFile noStat map_to_list (Some "")
              "/home/u/myapp/src/pages/index.tsx" "src/pages/index.tsx" "/home/u/myapp" noAliases)
    as [sub|] eqn:Hsub; [| discriminate Hsub].
  split; [| split]; [| reflexivity |]; cbn [fmap option_fmap option_map]; f_equal.
  - apply (index_display_name _ _ _ _ _ _ _ _ Htop); reflexivity.
  - apply (index_display_name _ _ _ _ _ _ _ _ Hsub); [reflexivity | discriminate].
Defined.

(** * The config reader *)

Section ConfigReaderFacts.

Variable stat : string -> bool.
Variable readFile : string -> option FileData.

(** A candidate that [os.Stat] does not find is passed over. *)
Lemma readConfigs_missing rootDir configFile rest config :
  stat (Filepath.Join [rootDir; configFile]) = false ->
  readConfigs stat readFile rootDir (configFile :: rest) config
  = readConfigs stat readFile rootDir rest config.
Proof. intros H. cbn [readConfigs]. rewrite H. reflexivity. Qed.

(** A [.json] candidate that exists and can be read ends the search:
    what [parseJSONConfig] left in the configuration is returned, and the
    candidates after it play no part. *)
Lemma readConfigs_json_ends_search rootDir configFile config data :
  stat (Filepath.Join [rootDir; configFile]) = true ->
  Filepath.Ext configFile = ".json" ->
  readFile (Filepath.Join [rootDir; configFile]) = Some data ->
  exists config',
    parseJSONConfig readFile (Filepath.Join [rootDir; configFile]) config = Some config'
    /\ forall rest', readConfigs stat readFile rootDir (configFile :: rest') config = config'.
Proof.
  intros Hstat Hext Hread.
  destruct (parseJSONConfig readFile (Filepath.Join [rootDir; configFile]) config)
    as [config'|] eqn:Hparse.
  - exists config'. split; [reflexivity |]. intros rest'.
    cbn [readConfigs]. rewrite Hstat, Hext, Hparse. reflexivity.
  - unfold parseJSONConfig in Hparse. rewrite Hread in Hparse.
    repeat match type of Hparse with
           | context [if ?b then _ else _] => destruct b
           | context [match ?o with Some _ => _ | None => _ end] => destruct o
           end; discriminate Hparse.
Qed.

(** A [.json] candidate that cannot be read does not end the search. *)
Lemma readConfigs_unreadable_json rootDir configFile rest config :
  Filepath.Ext configFile = ".json" ->
  readFile (Filepath.Join [rootDir; configFile]) = None ->
  readConfigs stat readFile rootDir (configFile :: rest) config
  = readConfigs stat readFile rootDir rest config.
Proof.
  intros Hext Hread. cbn [readConfigs]. unfold parseJSONConfig.
  rewrite Hext, Hread. cbn. destruct (stat _); reflexivity.
Qed.

End ConfigReaderFacts.

(** C7: a [jsconfig.json] whose contents do not parse ends the search all
    the same.  The valid [tsconfig.json] after it is never read, and the
    [src] default that follows the loop is not applied either; without the
    broken file the [tsconfig.json] is the one that decides. *)
Theorem unparsable_json_ends_search :
  asJSConfig notJSON = None
  /\ ReadProjectConfig brokenStat brokenRead "/p" = {| BaseURL := ""; Aliases := ∅ |}
  /\ ReadProjectConfig soundStat brokenRead "/p"
     = {| BaseURL := "app"; Aliases := {["@c" := "src/components"]} |}.
Proof. repeat split; vm_compute; reflexivity. Qed.

(** * Alias resolution *)

Lemma firstAlias_Some importPath order alias target :
  firstAlias importPath order = Some (alias, target) ->
  (alias, target) ∈ order /\ HasPrefix importPath alias = true.
Proof.
  induction order as [| [a t] rest IH]; cbn [firstAlias]; [discriminate |].
  destruct (HasPrefix importPath a) eqn:Hp.
  - intros [= -> ->]. split; [left | exact Hp].
  - intros H. destruct (IH H) as [Hin Hpre]. split; [right; exact Hin | exact Hpre].
Qed.

Lemma firstAlias_None importPath order alias target :
  firstAlias importPath order = None ->
  (alias, target) ∈ order -> HasPrefix importPath alias = false.
Proof.
  induction order as [| [a t] rest IH]; cbn [firstAlias].
  - intros _ Hin. inversion Hin.
  - destruct (HasPrefix importPath a) eqn:Hp; [discriminate |].
    intros H Hin. apply elem_of_cons in Hin as [[= -> ->] | Hin]; [exact Hp | auto].
Qed.

(** With at most one alias that prefix-matches, every enumeration of the
    alias map finds the same entry. *)
Lemma firstAlias_enumeration importPath (aliases : gmap string string) order1 order2 :
  enumerates order1 aliases -> enumerates order2 aliases ->
  (forall a1 a2, is_Some (aliases !! a1) -> is_Some (aliases !! a2) ->
     HasPrefix importPath a1 = true -> HasPrefix importPath a2 = true -> a1 = a2) ->
  firstAlias importPath order1 = firstAlias importPath order2.
Proof.
  unfold enumerates. intros H1 H2 Huniq.
  assert (Hin : forall order a t, order ≡ₚ map_to_list aliases ->
                  (a, t) ∈ order -> aliases !! a = Some t).
  { intros order a t Hp Hin. rewrite Hp in Hin. by apply elem_of_map_to_list in Hin. }
  assert (Hout : forall order a t, order ≡ₚ map_to_list aliases ->
                  aliases !! a = Some t -> (a, t) ∈ order).
  { intros order a t Hp Hl. rewrite Hp. by apply elem_of_map_to_list. }
  destruct (firstAlias importPath order1) as [[a1 t1]|] eqn:E1;
    destruct (firstAlias importPath order2) as [[a2 t2]|] eqn:E2; [| | | reflexivity].
  - apply firstAlias_Some in E1 as [In1 P1]. apply firstAlias_Some in E2 as [In2 P2].
    apply (Hin _ _ _ H1) in In1. apply (Hin _ _ _ H2) in In2.
    assert (a1 = a2) as -> by (apply Huniq; eauto).
    congruence.
  - apply firstAlias_Some in E1 as [In1 P1].
    apply (Hin _ _ _ H1), (Hout _ _ _ H2) in In1.
    rewrite (firstAlias_None _ _ _ _ E2 In1) in P1. discriminate.
  - apply firstAlias_Some in E2 as [In2 P2].
    apply (Hin _ _ _ H2), (Hout _ _ _ H1) in In2.
    rewrite (firstAlias_None _ _ _ _ E1 In2) in P2. discriminate.
Qed.

(** C4 (as amended): two calls with the same specifier, configuration and
    directories return the same path whenever the specifier is relative,
    or rooted, or prefix-matched by at most one configured alias. *)
Theorem ResolveImportPath_deterministic_unless_ambiguous
    importPath config order1 order2 projectDir currentDir :
  enumerates order1 (Aliases config) ->
  enumerates order2 (Aliases config) ->
  (HasPrefix importPath "." = true \/ HasPrefix importPath "/" = true \/
   forall a1 a2, is_Some (Aliases config !! a1) -> is_Some (Aliases config !! a2) ->
     HasPrefix importPath a1 = true -> HasPrefix importPath a2 = true -> a1 = a2) ->
  ResolveImportPath importPath config order1 projectDir currentDir
  = ResolveImportPath importPath config order2 projectDir currentDir.
Proof.
  intros H1 H2 Hcase. unfold ResolveImportPath.
  destruct (HasPrefix importPath ".") eqn:Hdot; [reflexivity |].
  destruct (HasPrefix importPath "/") eqn:Hslash; [reflexivity |].
  destruct Hcase as [H | [H | Huniq]]; [discriminate | discriminate |].
  rewrite (firstAlias_enumeration importPath _ _ _ H1 H2 Huniq). reflexivity.
Qed.

(** C4, the claim as written fails: with the aliases [@] and [@c] both
    configured, the specifier [@c/Button] resolves to one path when the
    runtime enumerates [@] first and to another when it enumerates [@c]
    first. *)
Lemma ResolveImportPath_depends_on_enumeration :
  enumerates [("@", "src"); ("@c", "src/components")] (Aliases twoAliases)
  /\ enumerates [("@c", "src/components"); ("@", "src")] (Aliases twoAliases)
  /\ ResolveImportPath "@c/Button" twoAliases
       [("@", "src"); ("@c", "src/components")] "/p" "/p/src" = "/p/src/c/Button"
  /\ ResolveImportPath "@c/Button" twoAliases
       [("@c", "src/components"); ("@", "src")] "/p" "/p/src" = "/p/src/components/Button".
Proof.
  assert (Hlist : map_to_list (Aliases twoAliases)
                  ≡ₚ [("@", "src"); ("@c", "src/components")]).
  { unfold twoAliases, Aliases. rewrite map_to_list_insert, map_to_list_insert,
      map_to_list_empty; [reflexivity | reflexivity | reflexivity]. }
  unfold enumerates. rewrite Hlist.
  split; [reflexivity |]. split; [apply perm_swap |].
  split; vm_compute; reflexivity.
Qed.

Lemma ResolveImportPath_deterministic_unless_ambiguous_witness :
  ResolveImportPath "@c/Button" apartAliases
    (map_to_list (Aliases apartAliases)) "/p" "/p/src/pages"
  = ResolveImportPath "@c/Button" apartAliases
      (reverse (map_to_list (Aliases apartAliases))) "/p" "/p/src/pages".
Proof.
  apply ResolveImportPath_deterministic_unless_ambiguous.
  - unfold enumerates. reflexivity.
  - unfold enumerates. apply reverse_Permutation.
  - right. right. intros a1 a2 [t1 H1] [t2 H2] P1 P2.
    unfold apartAliases, Aliases in H1, H2.
    apply lookup_insert_Some in H1 as [[<- _] | [_ H1]];
      [vm_compute in P1; discriminate P1 |].
    apply lookup_insert_Some in H1 as [[<- _] | [_ H1]];
      [| rewrite lookup_empty in H1; discriminate H1].
    apply lookup_insert_Some in H2 as [[<- _] | [_ H2]];
      [vm_compute in P2; discriminate P2 |].
    apply lookup_insert_Some in H2 as [[<- _] | [_ H2]];
      [reflexivity | rewrite lookup_empty in H2; discriminate H2].
Defined.

(** * Reverse edges *)

Lemma occurrences_app x l1 l2 :
  occurrences x (l1 ++ l2) = occurrences x l1 + occurrences x l2.
Proof. induction l1 as [| y l1 IH]; cbn; [reflexivity | rewrite IH; lia]. Qed.

Lemma occurrences_replicate x n y :
  occurrences x (replicate n y) = if String.eqb x y then n else 0.
Proof.
  induction n as [| n IH]; cbn.
  - destruct (String.eqb x y); reflexivity.
  - rewrite IH. destruct (String.eqb x y); reflexivity.
Qed.

Lemma occurrences_pos x l : 0 < occurrences x l <-> x ∈ l.
Proof.
  induction l as [| y l IH]; cbn.
  - split; [lia | intros H; inversion H].
  - rewrite elem_of_cons, <- IH.
    destruct (String.eqb_spec x y); split; intros H; try lia; auto.
    destruct H; [contradiction | lia].
Qed.

Lemma occurrences_NoDup x l : NoDup l -> x ∈ l -> occurrences x l = 1.
Proof.
  induction 1 as [| y l Hnotin Hnodup IH]; intros Hin; [inversion Hin |].
  cbn. apply elem_of_cons in Hin as [-> | Hin].
  - rewrite String.eqb_refl.
    destruct (occurrences y l) eqn:E; [reflexivity |].
    exfalso. apply Hnotin, occurrences_pos. lia.
  - rewrite (IH Hin). destruct (String.eqb_spec x y) as [-> | _]; [contradiction | reflexivity].
Qed.

Lemma occurrences_Permutation x l1 l2 : l1 ≡ₚ l2 -> occurrences x l1 = occurrences x l2.
Proof. induction 1; cbn; lia. Qed.

Lemma extendImportedBy_nil node : extendImportedBy [] node = node.
Proof. destruct node. unfold extendImportedBy; cbn. by rewrite app_nil_r. Qed.

Lemma extendImportedBy_app ids1 ids2 node :
  extendImportedBy ids2 (extendImportedBy ids1 node) = extendImportedBy (ids1 ++ ids2) node.
Proof. unfold extendImportedBy; cbn. by rewrite app_assoc. Qed.

Lemma addReverseEdge_lookup id (nodes : gmap string ComponentNode) importPath k :
  addReverseEdge id nodes importPath !! k
  = extendImportedBy (if String.eqb k importPath then [id] else []) <$> nodes !! k.
Proof.
  unfold addReverseEdge.
  destruct (String.eqb_spec k importPath) as [-> | Hne].
  - destruct (nodes !! importPath) as [importedNode|] eqn:E.
    + rewrite lookup_insert_eq. reflexivity.
    + rewrite E. reflexivity.
  - destruct (nodes !! importPath) as [importedNode|] eqn:E.
    + rewrite lookup_insert_ne by congruence.
      destruct (nodes !! k); cbn; [by rewrite extendImportedBy_nil | reflexivity].
    + destruct (nodes !! k); cbn; [by rewrite extendImportedBy_nil | reflexivity].
Qed.

Lemma foldl_addReverseEdge_lookup id imports (nodes : gmap string ComponentNode) k :
  foldl (addReverseEdge id) nodes imports !! k
  = extendImportedBy (replicate (occurrences k imports) id) <$> nodes !! k.
Proof.
  revert nodes. induction imports as [| importPath imports IH]; intros nodes; cbn.
  - destruct (nodes !! k); cbn; [by rewrite extendImportedBy_nil | reflexivity].
  - rewrite IH, addReverseEdge_lookup.
    destruct (nodes !! k) as [node|]; cbn; [| reflexivity].
    rewrite extendImportedBy_app.
    destruct (String.eqb k importPath); reflexivity.
Qed.

(** What [buildRelationships] leaves under each key, for any enumeration. *)
Lemma buildRelationships_lookup order (nodes : gmap string ComponentNode) k :
  buildRelationships order nodes !! k
  = extendImportedBy (reverseEntries nodes order k) <$> nodes !! k.
Proof.
  unfold buildRelationships, reverseEntries. revert k.
  induction order as [| id order IH] using rev_ind; intros k; cbn.
  - destruct (nodes !! k); cbn; [by rewrite extendImportedBy_nil | reflexivity].
  - rewrite foldl_app, flat_map_app. cbn [foldl flat_map]. rewrite app_nil_r.
    unfold addReverseEdges at 1.
    rewrite (IH id).
    destruct (nodes !! id) as [node0|] eqn:E0; cbn.
    + rewrite foldl_addReverseEdge_lookup, IH.
      destruct (nodes !! k); cbn; [by rewrite extendImportedBy_app | reflexivity].
    + rewrite IH, app_nil_r. reflexivity.
Qed.

Lemma occurrences_reverseEntries (nodes : gmap string ComponentNode) order N I :
  occurrences N (reverseEntries nodes order I)
  = occurrences N order *
    match nodes !! N with
    | Some node => occurrences I (Imports node)
    | None => 0
    end.
Proof.
  unfold reverseEntries. induction order as [| id order IH]; cbn; [reflexivity |].
  rewrite occurrences_app, IH.
  destruct (String.eqb_spec N id) as [-> | Hne].
  - destruct (nodes !! id); cbn; [| lia].
    rewrite occurrences_replicate, String.eqb_refl. lia.
  - destruct (nodes !! id); cbn; [| lia].
    rewrite occurrences_replicate.
    destruct (String.eqb_spec N id); [contradiction | lia].
Qed.

Lemma elem_of_reverseEntries (nodes : gmap string ComponentNode) order x I :
  x ∈ reverseEntries nodes order I ->
  exists node, nodes !! x = Some node /\ I ∈ Imports node.
Proof.
  intros Hin. apply occurrences_pos in Hin.
  rewrite occurrences_reverseEntries in Hin.
  destruct (nodes !! x) as [node|]; [| lia].
  exists node. split; [reflexivity |]. apply occurrences_pos. nia.
Qed.

(** C6: after [buildRelationships], whatever the order in which the
    registry was enumerated, the key of every node N stands in the
    reverse list of a registered import I exactly as often as I occurs
    among the imports of N; an identifier that is no key of the registry
    gets no node and so no reverse entry, every node keeps its imports,
    and every reverse entry stems from a forward import of a registered
    node. *)
Theorem buildRelationships_reverse_edges order (nodes : gmap string ComponentNode) :
  order ≡ₚ keysOf nodes ->
  (forall k node, nodes !! k = Some node -> ImportedBy node = []) ->
  (forall N I nodeN, nodes !! N = Some nodeN -> is_Some (nodes !! I) ->
     exists nodeI, buildRelationships order nodes !! I = Some nodeI
       /\ occurrences N (ImportedBy nodeI) = occurrences I (Imports nodeN))
  /\ (forall I, nodes !! I = None -> buildRelationships order nodes !! I = None)
  /\ (forall N nodeN, nodes !! N = Some nodeN ->
       exists nodeN', buildRelationships order nodes !! N = Some nodeN'
         /\ Imports nodeN' = Imports nodeN)
  /\ (forall I nodeI x, buildRelationships order nodes !! I = Some nodeI ->
       x ∈ ImportedBy nodeI ->
       exists nodeX, nodes !! x = Some nodeX /\ I ∈ Imports nodeX).
Proof.
  intros Hperm Hempty. repeat split.
  - intros N I nodeN HN [nodeI HI].
    exists (extendImportedBy (reverseEntries nodes order I) nodeI).
    rewrite buildRelationships_lookup, HI. split; [reflexivity |].
    cbn. rewrite (Hempty _ _ HI). cbn.
    rewrite occurrences_reverseEntries, HN.
    assert (occurrences N order = 1) as ->; [| lia].
    rewrite (occurrences_Permutation _ _ _ Hperm).
    apply occurrences_NoDup; [apply NoDup_fst_map_to_list |].
    unfold keysOf. apply list_elem_of_fmap. exists (N, nodeN).
    split; [reflexivity | by apply elem_of_map_to_list].
  - intros I HI. rewrite buildRelationships_lookup, HI. reflexivity.
  - intros N nodeN HN. eexists. rewrite buildRelationships_lookup, HN.
    split; reflexivity.
  - intros I nodeI x. rewrite buildRelationships_lookup.
    destruct (nodes !! I) as [node0|] eqn:E0; cbn; [| discriminate].
    intros [= <-]. cbn. rewrite (Hempty _ _ E0). cbn.
    apply elem_of_reverseEntries.
Qed.

Lemma buildRelationships_reverse_edges_witness :
  exists nodeI,
    buildRelationships (keysOf sampleRegistry) sampleRegistry !! "b.js" = Some nodeI
    /\ occurrences "a.js" (ImportedBy nodeI) = 2.
Proof.
  destruct (buildRelationships_reverse_edges (keysOf sampleRegistry) sampleRegistry)
    as (Hedges & _).
  - reflexivity.
  - intros k node Hk. unfold sampleRegistry in Hk.
    apply lookup_insert_Some in Hk as [[_ <-] | [_ Hk]]; [reflexivity |].
    apply lookup_insert_Some in Hk as [[_ <-] | [_ Hk]]; [reflexivity |].
    rewrite lookup_empty in Hk. discriminate Hk.
  - destruct (Hedges "a.js" "b.js" (fileNode "a.js" ["b.js"; "lib/x"; "b.js"]))
      as (nodeI & Hlookup & Hcount).
    + reflexivity.
    + exists (fileNode "b.js" []). reflexivity.
    + exists nodeI. split; [exact Hlookup | exact Hcount].
Defined.

(** * The walk *)

Section WalkFacts.

Variable stat : string -> bool.
Variable rangeAliases : gmap string string -> list (string * string).
Variable rootDir : string.
Variable aliasConfig : AliasConfig.

#[local] Abbreviation walk' := (walk stat rangeAliases rootDir aliasConfig).
#[local] Abbreviation walkEntries' := (walkEntries stat rangeAliases rootDir aliasConfig).
#[local] Abbreviation visitFile' := (visitFile stat rangeAliases rootDir aliasConfig).
#[local] Abbreviation parseFile' := (parseFile stat rangeAliases).

Lemma walk_Dir path name entries project :
  walk' path (Dir name (Some entries)) project
  = if skipName name then (project, Some SkipDir)
    else walkEntries' path entries project.
Proof. reflexivity. Qed.

Lemma walkEntries_cons path child rest project :
  walkEntries' path (child :: rest) project
  = match walk' (Filepath.Join [path; entryName child]) child project with
    | (project', None) => walkEntries' path rest project'
    | (project', Some SkipDir) =>
        if IsDir child then walkEntries' path rest project'
        else (project', Some SkipDir)
    | (project', Some Failed) => (project', Some Failed)
    end.
Proof. reflexivity. Qed.

(** The directory test: a directory with a skipped name is left at once,
    whatever it holds, and the project is as it was. *)
Lemma walk_skips path name entries project :
  skipName name = true ->
  walk' path (Dir name (Some entries)) project = (project, Some SkipDir).
Proof. intros H. rewrite walk_Dir, H. reflexivity. Qed.

(** The callback never answers [SkipDir] for a file. *)
Lemma visitFile_result project path name content :
  (visitFile' project path name content).2 = None
  \/ (visitFile' project path name content).2 = Some Failed.
Proof.
  unfold visitFile. destruct (isReactFile name); [| by left].
  destruct (parseFile _ _ _ _ _ _ _); [by left | by right].
Qed.

(** Whatever the callback preserves on files, the walk preserves. *)
Lemma walk_preserves (I : Project -> Prop) :
  (forall project path name content,
     I project -> I (visitFile' project path name content).1) ->
  forall e path project, I project -> I (walk' path e project).1.
Proof.
  intros Hvisit e.
  induction e as [name content | name | name entries IH] using FsEntry_nested_ind;
    intros path project HI.
  - apply Hvisit, HI.
  - exact HI.
  - rewrite walk_Dir. destruct (skipName name); [exact HI |].
    revert project HI. induction IH as [| child rest Hchild _ IHrest]; intros project HI.
    + exact HI.
    + rewrite walkEntries_cons.
      specialize (Hchild (Filepath.Join [path; entryName child]) project HI).
      destruct (walk' _ child project) as [project' [[]|]]; cbn in Hchild.
      * destruct (IsDir child); [by apply IHrest | exact Hchild].
      * exact Hchild.
      * by apply IHrest.
Qed.

Lemma parseFile_fileRole content path relPath node :
  parseFile' content path relPath rootDir aliasConfig = Some node ->
  fileRole (Type_ node) /\ ID node = relPath /\ ImportedBy node = [].
Proof.
  unfold parseFile. destruct content as [fileContent|]; [| discriminate].
  intros [= <-]. cbn. unfold fileRole.
  destruct (isComponentFile _ _); [tauto |].
  destruct (isStateFile _ _); tauto.
Qed.

Lemma countNode_consistent node st :
  fileRole (Type_ node) -> statsConsistent st -> statsConsistent (countNode node st).
Proof.
  unfold statsConsistent, countNode, bump. intros Hrole [Htotal Hmulti]. cbn.
  destruct Hrole as [-> | [-> | ->]]; cbn; destruct (MultipleComp node); cbn; lia.
Qed.

Lemma walk_statsConsistent e path project :
  statsConsistent (Stats project) ->
  statsConsistent (Stats (walk' path e project).1).
Proof.
  apply (walk_preserves (fun p => statsConsistent (Stats p))).
  clear. intros project path name content HI.
  unfold visitFile. destruct (isReactFile name); [| exact HI].
  destruct (parseFile' _ _ _ _ _) as [node|] eqn:Hparse; cbn; [| exact HI].
  destruct (Filepath.nonEmpty (Name node)); cbn; [| exact HI].
  apply countNode_consistent; [| exact HI].
  by apply parseFile_fileRole in Hparse as [? _].
Qed.

End WalkFacts.

(** C9: in the project a scan returns, with or without an error, the total
    is the sum of the three role counters and the files with several
    components are at most the component files. *)
Theorem ScanProject_stats_consistent stat readFile rangeAliases rangeNodes rangeDirs
    rootDir root :
  TotalComponents (Stats (ScanProject stat readFile rangeAliases rangeNodes rangeDirs rootDir root).1)
  = ComponentFiles (Stats (ScanProject stat readFile rangeAliases rangeNodes rangeDirs rootDir root).1)
    + StateFiles (Stats (ScanProject stat readFile rangeAliases rangeNodes rangeDirs rootDir root).1)
    + UtilFiles (Stats (ScanProject stat readFile rangeAliases rangeNodes rangeDirs rootDir root).1)
  /\ MultiCompFiles (Stats (ScanProject stat readFile rangeAliases rangeNodes rangeDirs rootDir root).1)
     <= ComponentFiles (Stats (ScanProject stat readFile rangeAliases rangeNodes rangeDirs rootDir root).1).
Proof.
  assert (Hwalk : statsConsistent
            (Stats (walk stat rangeAliases rootDir (ReadProjectConfig stat readFile rootDir)
                      rootDir root (emptyProject rootDir)).1)).
  { apply walk_statsConsistent. split; cbn; lia. }
  unfold ScanProject, Walk.
  destruct (walk _ _ _ _ _ root _) as [project [[]|]]; exact Hwalk.
Qed.

(** * Which files the walk lists *)

Section WalkReach.

Variable stat : string -> bool.
Variable rangeAliases : gmap string string -> list (string * string).
Variable rootDir : string.
Variable aliasConfig : AliasConfig.

#[local] Abbreviation walk' := (walk stat rangeAliases rootDir aliasConfig).
#[local] Abbreviation walkEntries' := (walkEntries stat rangeAliases rootDir aliasConfig).
#[local] Abbreviation visitFile' := (visitFile stat rangeAliases rootDir aliasConfig).
#[local] Abbreviation parseFile' := (parseFile stat rangeAliases).
#[local] Abbreviation scanned' := (scanned stat rangeAliases rootDir aliasConfig).

(** The callback lists nothing but the file it is called on. *)
Lemma visitFile_listed project path name content x :
  listed (visitFile' project path name content).1 x ->
  listed project x \/ x = relPathOf rootDir path.
Proof.
  unfold visitFile, listed. destruct (isReactFile name); [| tauto].
  fold (relPathOf rootDir path).
  destruct (parseFile' _ _ _ _ _) as [node|] eqn:Hparse; cbn.
  - apply parseFile_fileRole in Hparse as (_ & HID & _).
    destruct (Filepath.nonEmpty (Name node)); cbn; rewrite ?HID.
    + rewrite elem_of_app, list_elem_of_singleton, lookup_insert_is_Some.
      intuition congruence.
    + rewrite elem_of_app, list_elem_of_singleton. tauto.
  - rewrite elem_of_app, list_elem_of_singleton. tauto.
Qed.

(** Everything the walk of an entry adds to the project stems from a file
    below it that no skipped directory encloses. *)
Lemma walk_listed e : forall path project x,
  listed (walk' path e project).1 x ->
  listed project x \/ unprunedOrigin rootDir path e x.
Proof.
  induction e as [name content | name | name entries IH] using FsEntry_nested_ind;
    intros path project x Hx.
  - apply visitFile_listed in Hx as [Hx | ->]; [by left | right].
    exists [], path, name, content. split; [constructor | split; [constructor | reflexivity]].
  - by left.
  - rewrite walk_Dir in Hx. destruct (skipName name) eqn:Hskip; [by left |].
    assert (Hentries : forall es, Forall (fun e => forall path project x,
                listed (walk' path e project).1 x ->
                listed project x \/ unprunedOrigin rootDir path e x) es ->
              forall project, listed (walkEntries' path es project).1 x ->
              listed project x \/
              exists child, child ∈ es /\
                unprunedOrigin rootDir (Filepath.Join [path; entryName child]) child x).
    { clear -rootDir. intros es Hes.
      induction Hes as [| child rest Hchild _ IHrest]; intros project Hx; [by left |].
      rewrite walkEntries_cons in Hx.
      specialize (Hchild (Filepath.Join [path; entryName child]) project x).
      destruct (walk' _ child project) as [project' r]; cbn in Hchild.
      assert (Hvia : listed project' x ->
                listed project x \/
                exists child0, child0 ∈ child :: rest /\
                  unprunedOrigin rootDir (Filepath.Join [path; entryName child0]) child0 x).
      { intros H. destruct (Hchild H) as [? | ?]; [by left | right].
        exists child. split; [left | assumption]. }
      assert (Hrest : listed (walkEntries' path rest project').1 x ->
                listed project x \/
                exists child0, child0 ∈ child :: rest /\
                  unprunedOrigin rootDir (Filepath.Join [path; entryName child0]) child0 x).
      { intros H. destruct (IHrest _ H) as [H' | (child0 & Hin & Ho)]; [by apply Hvia |].
        right. exists child0. split; [by right | assumption]. }
      destruct r as [[]|]; [destruct (IsDir child) | |]; auto. }
    destruct (Hentries entries IH project Hx)
      as [? | (child & Hin & dirs & fpath & fname & content & Hreach & Hdirs & ->)];
      [by left | right].
    exists (name :: dirs), fpath, fname, content.
    split; [by econstructor | split; [by constructor | reflexivity]].
Qed.

(** What is listed stays listed. *)
Lemma walk_keeps_listed e path project x :
  x ∈ Files project -> x ∈ Files (walk' path e project).1.
Proof.
  intros H. apply (walk_preserves _ _ _ _ (fun p => x ∈ Files p)); [| exact H].
  clear. intros project path name content HI.
  unfold visitFile. destruct (isReactFile name); [| exact HI].
  destruct (parseFile' _ _ _ _ _) as [node|]; cbn;
    [destruct (Filepath.nonEmpty (Name node)); cbn |];
    apply elem_of_app; by left.
Qed.

Lemma walk_keeps_registered e path project x :
  is_Some (NodesMap project !! x) -> is_Some (NodesMap (walk' path e project).1 !! x).
Proof.
  intros H. apply (walk_preserves _ _ _ _ (fun p => is_Some (NodesMap p !! x))); [| exact H].
  clear. intros project path name content HI.
  unfold visitFile. destruct (isReactFile name); [| exact HI].
  destruct (parseFile' _ _ _ _ _) as [node|]; cbn; [| exact HI].
  destruct (Filepath.nonEmpty (Name node)); cbn; [| exact HI].
  apply lookup_insert_is_Some'. by right.
Qed.

Lemma walk_registry e path project :
  registryWellFormed (NodesMap project) ->
  registryWellFormed (NodesMap (walk' path e project).1).
Proof.
  apply (walk_preserves _ _ _ _ (fun p => registryWellFormed (NodesMap p))).
  clear. intros project path name content HI.
  unfold visitFile. destruct (isReactFile name); [| exact HI].
  destruct (parseFile' _ _ _ _ _) as [node|] eqn:Hparse; cbn; [| exact HI].
  destruct (Filepath.nonEmpty (Name node)); cbn; [| exact HI].
  apply parseFile_fileRole in Hparse as (Hrole & HID & _).
  intros k node' Hk. apply lookup_insert_Some in Hk as [[<- <-] | [_ Hk]]; [tauto | eauto].
Qed.

Lemma walk_keeps_scanned e path project content fpath :
  scanned' content fpath project -> scanned' content fpath (walk' path e project).1.
Proof.
  intros [Hfile Hreg]. split; [by apply walk_keeps_listed |].
  intros node Hparse Hname. apply walk_keeps_registered. eauto.
Qed.

Lemma visitFile_scanned project path name content :
  isReactFile name = true ->
  (visitFile' project path name content).2 <> Some Failed ->
  scanned' content path (visitFile' project path name content).1.
Proof.
  unfold visitFile, scanned. intros -> Hok. fold (relPathOf rootDir path).
  destruct (parseFile' _ _ _ _ _) as [node|] eqn:Hparse; cbn in *; [| congruence].
  destruct (Filepath.nonEmpty (Name node)) eqn:Hname; cbn.
  - split; [apply elem_of_app; right; by left |].
    intros _ _ _. apply parseFile_fileRole in Hparse as (_ & -> & _).
    rewrite lookup_insert_eq. eauto.
  - split; [apply elem_of_app; right; by left |].
    intros node' [= <-] Hne. unfold Filepath.nonEmpty in Hname.
    destruct (String.eqb_spec (Name node) ""); [contradiction | discriminate].
Qed.

(** A walk that does not fail has scanned every eligible file that no
    skipped directory encloses. *)
Lemma walk_scans e : forall path project dirs fpath fname content,
  (walk' path e project).2 <> Some Failed ->
  Reaches path e dirs fpath fname content ->
  Forall (fun d => skipName d = false) dirs ->
  isReactFile fname = true ->
  scanned' content fpath (walk' path e project).1.
Proof.
  induction e as [name content0 | name | name entries IH] using FsEntry_nested_ind;
    intros path project dirs fpath fname content Hok Hreach Hdirs Helig.
  - inversion Hreach; subst. by apply visitFile_scanned.
  - inversion Hreach.
  - inversion Hreach as [| ? ? ? child dirs' ? ? ? Hin Hchild]; subst.
    apply Forall_cons in Hdirs as [Hname Hdirs].
    rewrite walk_Dir, Hname in Hok |- *.
    clear Hreach. revert project Hok.
    induction IH as [| first rest Hfirst _ IHrest]; intros project Hok; [inversion Hin |].
    rewrite walkEntries_cons in Hok |- *.
    pose proof (Hfirst (Filepath.Join [path; entryName first]) project dirs' fpath fname content)
      as Hhere.
    assert (Hfile : IsDir first = false ->
              (walk' (Filepath.Join [path; entryName first]) first project).2 <> Some SkipDir).
    { destruct first as [n c | n es]; [intros _ | discriminate]. cbn [walk].
      destruct (visitFile_result stat rangeAliases rootDir aliasConfig project
                  (Filepath.Join [path; entryName (File n c)]) n c) as [-> | ->]; discriminate. }
    destruct (walk' _ first project) as [project' r] eqn:Hwalk; cbn in Hhere, Hfile.
    assert (Hnext : (walkEntries' path rest project').2 <> Some Failed ->
              scanned' content fpath (walkEntries' path rest project').1).
    { intros Hok'. apply elem_of_cons in Hin as [-> | Hin].
      - enough (scanned' content fpath project') as Hs.
        { clear -Hs. revert project' Hs. induction rest as [| e rest IHr]; intros p Hs; [exact Hs |].
          rewrite walkEntries_cons.
          pose proof (walk_keeps_scanned e (Filepath.Join [path; entryName e]) p content fpath Hs)
            as Hk.
          destruct (walk' _ e p) as [p' [[]|]]; cbn in Hk;
            [destruct (IsDir e) | |]; auto. }
        apply Hhere; [| assumption..].
        destruct r as [[]|]; [discriminate | | discriminate].
        exfalso. apply Hok. reflexivity.
      - by apply IHrest. }
    destruct r as [[]|].
    + destruct (IsDir first) eqn:Hd; [by apply Hnext |].
      exfalso. by apply Hfile.
    + exfalso. by apply Hok.
    + by apply Hnext.
Qed.

End WalkReach.

Lemma buildRelationships_is_Some order (nodes : gmap string ComponentNode) k :
  is_Some (buildRelationships order nodes !! k) <-> is_Some (nodes !! k).
Proof. rewrite buildRelationships_lookup. apply fmap_is_Some. Qed.

Lemma buildRelationships_registry order (nodes : gmap string ComponentNode) :
  registryWellFormed nodes -> registryWellFormed (buildRelationships order nodes).
Proof.
  intros Hwf k node. rewrite buildRelationships_lookup.
  destruct (nodes !! k) as [node0|] eqn:E; cbn; [| discriminate].
  intros [= <-]. cbn. eauto.
Qed.

(** The files and the keys of the registry in the result of [ScanProject]
    are those the walk left. *)
Lemma ScanProject_listed stat readFile rangeAliases rangeNodes rangeDirs rootDir root x :
  listed (ScanProject stat readFile rangeAliases rangeNodes rangeDirs rootDir root).1 x
  <-> listed (walk stat rangeAliases rootDir (ReadProjectConfig stat readFile rootDir)
                rootDir root (emptyProject rootDir)).1 x.
Proof.
  unfold ScanProject, Walk, listed.
  destruct (walk _ _ _ _ _ root _) as [project [[]|]]; cbn;
    rewrite ?buildRelationships_is_Some; reflexivity.
Qed.

(** * Identifiers: the paths of the walk and [Rel] *)

Lemma append_empty s : "" +:+ s = s.
Proof. reflexivity. Qed.

Lemma append_String c s t : String c s +:+ t = String c (s +:+ t).
Proof. reflexivity. Qed.

Lemma Split_nonempty sep s : exists e es, Split sep s = e :: es.
Proof.
  induction s as [| c s IH]; cbn [Split]; [eauto |].
  destruct (Ascii.eqb c sep); [eauto |].
  destruct IH as (e & es & ->). eauto.
Qed.

Lemma Split_app sep a b :
  Split sep (a +:+ String sep b) = Split sep a ++ Split sep b.
Proof.
  induction a as [| c a IH]; rewrite ?append_empty, ?append_String; cbn [Split].
  - rewrite Ascii.eqb_refl. reflexivity.
  - destruct (Ascii.eqb c sep); [by rewrite IH |].
    rewrite IH. destruct (Split_nonempty sep a) as (e & es & ->). reflexivity.
Qed.

Lemma Split_noSep s : hasSep s = false -> Split "/" s = [s].
Proof.
  unfold hasSep, Filepath.Separator.
  induction s as [| c s IH]; cbn [Split hasSep anyByte]; [reflexivity |].
  intros H. apply orb_false_iff in H as [Hc Hs].
  rewrite Hc. unfold hasSep in IH. rewrite (IH Hs). reflexivity.
Qed.

Lemma Join_cons e e' es :
  Strings.Join (e :: e' :: es) "/" = e +:+ String "/" (Strings.Join (e' :: es) "/").
Proof. reflexivity. Qed.

Lemma Split_Join elems :
  elems <> [] -> Forall (fun e => hasSep e = false) elems ->
  Split "/" (Strings.Join elems "/") = elems.
Proof.
  induction elems as [| e [| e' es] IH]; intros Hne Hall; [congruence | |].
  - apply Forall_cons in Hall as [He _]. by apply Split_noSep.
  - apply Forall_cons in Hall as [He Hall].
    rewrite Join_cons, Split_app, (Split_noSep _ He), IH; [reflexivity | discriminate | exact Hall].
Qed.

Lemma plain_spec name :
  plain name = true ->
  name <> "" /\ String.eqb name "" = false /\ String.eqb name "." = false
  /\ String.eqb name ".." = false /\ hasSep name = false.
Proof.
  unfold plain, Filepath.nonEmpty. rewrite !andb_true_iff, !negb_true_iff.
  intros [[[H1 H2] H3] H4]. repeat split; try assumption.
  intros ->. discriminate H1.
Qed.

Lemma cleanElems_snoc rooted name : plain name = true -> forall elems kept,
  Filepath.cleanElems rooted kept (elems ++ [name])
  = Filepath.cleanElems rooted kept elems ++ [name].
Proof.
  intros Hp. destruct (plain_spec _ Hp) as (_ & H1 & H2 & H3 & _).
  induction elems as [| e elems IH]; intros kept; cbn.
  - rewrite H1, H2, H3. cbn. reflexivity.
  - destruct (String.eqb e "" || String.eqb e "."); [apply IH |].
    destruct (String.eqb e ".."); [| apply IH].
    destruct kept as [| top below]; [destruct rooted; apply IH |].
    destruct (String.eqb top ".."); apply IH.
Qed.

Lemma cleanElems_plain rooted elems : Forall (fun e => plain e = true) elems -> forall kept,
  Filepath.cleanElems rooted kept elems = rev kept ++ elems.
Proof.
  induction 1 as [| e elems He _ IH]; intros kept; cbn; [by rewrite app_nil_r |].
  destruct (plain_spec _ He) as (_ & H1 & H2 & H3 & _).
  rewrite H1, H2, H3. cbn. rewrite IH. cbn. by rewrite <- app_assoc.
Qed.

Lemma plain_head name rest : plain name = true -> HasPrefix (name +:+ rest) "/" = false.
Proof.
  intros Hp. destruct (plain_spec _ Hp) as (Hne & _ & _ & _ & Hsep).
  destruct name as [| c name]; [congruence |].
  unfold hasSep, Filepath.Separator in Hsep. cbn [anyByte] in Hsep.
  apply orb_false_iff in Hsep as [Hc _].
  rewrite append_String. cbn [HasPrefix]. rewrite Hc. reflexivity.
Qed.

Lemma Join_plain_head e es :
  plain e = true ->
  exists rest, Strings.Join (e :: es) "/" = e +:+ rest.
Proof.
  intros _. destruct es as [| e' es].
  - exists "". cbn. induction e as [| c e IH]; [reflexivity |].
    rewrite append_String. by f_equal.
  - exists (String "/" (Strings.Join (e' :: es) "/")). reflexivity.
Qed.

Lemma Join_plain_nonempty e es :
  plain e = true -> String.eqb (Strings.Join (e :: es) "/") "" = false.
Proof.
  intros Hp. destruct (Join_plain_head e es Hp) as (rest & ->).
  destruct (plain_spec _ Hp) as (Hne & _).
  destruct e as [| c e]; [congruence | reflexivity].
Qed.

Lemma noSep_of_plain elems :
  Forall (fun e => plain e = true) elems -> Forall (fun e => hasSep e = false) elems.
Proof.
  intros H. eapply Forall_impl; [exact H |].
  intros e He. by apply plain_spec in He as (_ & _ & _ & _ & ?).
Qed.

Lemma fromElems_nonempty rooted elems :
  Forall (fun e => plain e = true) elems ->
  String.eqb (Filepath.fromElems rooted elems) "" = false.
Proof.
  intros Hplain. unfold Filepath.fromElems. destruct rooted; [reflexivity |].
  destruct Hplain as [| e es He _]; [reflexivity |].
  rewrite (Join_plain_nonempty e es He). by apply Join_plain_nonempty.
Qed.

Lemma fromElems_rooted rooted elems :
  Forall (fun e => plain e = true) elems ->
  HasPrefix (Filepath.fromElems rooted elems) "/" = rooted.
Proof.
  intros Hplain. unfold Filepath.fromElems. destruct rooted; [reflexivity |].
  destruct Hplain as [| e es He _]; [reflexivity |].
  rewrite (Join_plain_nonempty e es He).
  destruct (Join_plain_head e es He) as (rest & ->). by apply plain_head.
Qed.

Lemma fromElems_elems rooted elems :
  Forall (fun e => plain e = true) elems ->
  Filepath.cleanElems rooted [] (Split "/" (Filepath.fromElems rooted elems)) = elems.
Proof.
  intros Hplain. pose proof (noSep_of_plain _ Hplain) as HnoSep.
  unfold Filepath.fromElems. destruct rooted.
  - change ("/" +:+ Strings.Join elems "/") with ("" +:+ String "/" (Strings.Join elems "/")).
    rewrite Split_app. destruct (decide (elems = [])) as [-> | Hne]; [reflexivity |].
    rewrite Split_Join by assumption. cbn. by rewrite cleanElems_plain.
  - destruct (decide (elems = [])) as [-> | Hne]; [reflexivity |].
    assert (String.eqb (Strings.Join elems "/") "" = false) as ->.
    { destruct Hplain as [| e es He _]; [congruence | by apply Join_plain_nonempty]. }
    rewrite Split_Join by assumption. by rewrite cleanElems_plain.
Qed.

Lemma Clean_fromElems rooted elems :
  Forall (fun e => plain e = true) elems ->
  Filepath.Clean (Filepath.fromElems rooted elems) = Filepath.fromElems rooted elems.
Proof.
  intros Hplain. unfold Filepath.Clean, Filepath.Separator.
  rewrite fromElems_nonempty, fromElems_rooted, fromElems_elems by assumption. reflexivity.
Qed.

Lemma HasPrefix_append s rest :
  String.eqb s "" = false -> HasPrefix (s +:+ rest) "/" = HasPrefix s "/".
Proof. destruct s as [| c s]; [discriminate | reflexivity]. Qed.

Lemma append_nonempty s rest : String.eqb s "" = false -> String.eqb (s +:+ rest) "" = false.
Proof. destruct s as [| c s]; [discriminate | reflexivity]. Qed.

Lemma Join_fromElems rooted elems name :
  Forall (fun e => plain e = true) elems ->
  plain name = true ->
  Filepath.Join [Filepath.fromElems rooted elems; name]
  = Filepath.fromElems rooted (elems ++ [name]).
Proof.
  intros Hplain Hname. cbn [Filepath.Join]. rewrite fromElems_nonempty by assumption.
  rewrite Join_cons. change (Strings.Join [name] "/") with name.
  unfold Filepath.Clean, Filepath.Separator.
  rewrite append_nonempty by (by apply fromElems_nonempty).
  rewrite HasPrefix_append by (by apply fromElems_nonempty).
  rewrite fromElems_rooted, Split_app by assumption.
  rewrite (Split_noSep name) by (by apply plain_spec in Hname as (_ & _ & _ & _ & ?)).
  rewrite cleanElems_snoc by exact Hname.
  rewrite fromElems_elems by assumption. reflexivity.
Qed.

Lemma walkPath_fromElems rooted names : Forall (fun e => plain e = true) names ->
  forall elems, Forall (fun e => plain e = true) elems ->
  walkPath (Filepath.fromElems rooted elems) names = Filepath.fromElems rooted (elems ++ names).
Proof.
  unfold walkPath.
  induction 1 as [| name names Hname _ IH]; intros elems Helems; cbn [foldl].
  - by rewrite app_nil_r.
  - rewrite Join_fromElems by assumption.
    rewrite IH.
    + by rewrite <- app_assoc.
    + apply Forall_app. split; [assumption | by constructor].
Qed.

Lemma fromElems_inj rooted elems1 elems2 :
  Forall (fun e => plain e = true) elems1 ->
  Forall (fun e => plain e = true) elems2 ->
  Filepath.fromElems rooted elems1 = Filepath.fromElems rooted elems2 ->
  elems1 = elems2.
Proof.
  intros H1 H2 Heq.
  rewrite <- (fromElems_elems rooted elems1 H1), <- (fromElems_elems rooted elems2 H2).
  by rewrite Heq.
Qed.

Lemma length_append s t : String.length (s +:+ t) = String.length s + String.length t.
Proof. induction s as [| c s IH]; [reflexivity |]. rewrite append_String. cbn. by rewrite IH. Qed.

Lemma takeElem_sep elem rest :
  hasSep elem = false ->
  Filepath.takeElem (elem +:+ String "/" rest) = (elem, String "/" rest).
Proof.
  unfold hasSep, Filepath.Separator.
  induction elem as [| c elem IH]; intros Hsep; [reflexivity |].
  cbn [anyByte] in Hsep. apply orb_false_iff in Hsep as [Hc Hsep].
  rewrite append_String. cbn [Filepath.takeElem]. unfold Filepath.Separator.
  rewrite Hc, (IH Hsep). reflexivity.
Qed.

Lemma takeElem_last elem :
  hasSep elem = false -> Filepath.takeElem elem = (elem, "").
Proof.
  unfold hasSep, Filepath.Separator.
  induction elem as [| c elem IH]; intros Hsep; [reflexivity |].
  cbn [anyByte] in Hsep. apply orb_false_iff in Hsep as [Hc Hsep].
  cbn [Filepath.takeElem]. unfold Filepath.Separator. rewrite Hc, (IH Hsep). reflexivity.
Qed.

Lemma relLoop_done fuel targ : Filepath.relLoop fuel "" targ = ("", "", targ).
Proof. destruct fuel; reflexivity. Qed.

(** The loop of [Rel] strips a base that is a prefix of the target,
    element by element. *)
Lemma relLoop_strip names :
  names <> [] -> forall elems,
  Forall (fun e => plain e = true) elems -> elems <> [] ->
  forall fuel, String.length (Strings.Join elems "/") < fuel ->
  Filepath.relLoop fuel (Strings.Join elems "/") (Strings.Join (elems ++ names) "/")
  = ("", "", Strings.Join names "/").
Proof.
  intros Hnames.
  induction elems as [| e [| e' es] IH]; intros Hplain Hne fuel Hfuel; [congruence | |].
  - apply Forall_cons in Hplain as [He _].
    destruct (plain_spec _ He) as (_ & Hempty & _ & _ & Hsep).
    destruct fuel as [| fuel]; [lia |]. cbn [Filepath.relLoop].
    destruct names as [| n names]; [congruence |].
    change ([e] ++ n :: names) with (e :: n :: names). rewrite Join_cons.
    change (Strings.Join [e] "/") with e.
    rewrite Hempty, append_nonempty by exact Hempty. cbn [orb].
    rewrite takeElem_last, takeElem_sep by exact Hsep.
    rewrite String.eqb_refl. cbn [sdrop]. apply relLoop_done.
  - pose proof Hplain as Hall. apply Forall_cons in Hplain as [He Hrest].
    destruct (plain_spec _ He) as (_ & Hempty & _ & _ & Hsep).
    destruct fuel as [| fuel]; [lia |]. cbn [Filepath.relLoop].
    change ((e :: e' :: es) ++ names) with (e :: e' :: (es ++ names)).
    rewrite !Join_cons in *.
    rewrite !append_nonempty by exact Hempty. cbn [orb].
    rewrite !takeElem_sep by exact Hsep.
    rewrite String.eqb_refl. cbn [sdrop].
    apply (IH Hrest); [discriminate |].
    rewrite length_append in Hfuel. cbn [String.length] in Hfuel. lia.
Qed.

Lemma fromElems_dot rooted elems :
  Forall (fun e => plain e = true) elems ->
  String.eqb (Filepath.fromElems rooted elems) "." = negb rooted && bool_decide (elems = []).
Proof.
  intros Hplain. destruct rooted; [reflexivity |].
  destruct (decide (elems = [])) as [-> | Hne]; [reflexivity |].
  rewrite (bool_decide_eq_false_2 _ Hne).
  destruct (String.eqb_spec (Filepath.fromElems false elems) ".") as [Heq | ?]; [| reflexivity].
  exfalso. pose proof (fromElems_elems false elems Hplain) as Helems.
  rewrite Heq in Helems. cbn in Helems. congruence.
Qed.

(** The identifier of what [Walk] finds below a clean root: the names on
    the way down, joined. *)
Lemma Rel_fromElems rooted elems names :
  Forall (fun e => plain e = true) elems ->
  Forall (fun e => plain e = true) names ->
  names <> [] ->
  Filepath.Rel (Filepath.fromElems rooted elems) (Filepath.fromElems rooted (elems ++ names))
  = Some (Strings.Join names "/").
Proof.
  intros Helems Hnames Hne.
  assert (Hall : Forall (fun e => plain e = true) (elems ++ names))
    by (apply Forall_app; by split).
  unfold Filepath.Rel. rewrite !Clean_fromElems by assumption.
  destruct (String.eqb_spec (Filepath.fromElems rooted (elems ++ names))
              (Filepath.fromElems rooted elems)) as [Heq | _].
  { apply fromElems_inj in Heq; [| assumption..].
    rewrite <- (app_nil_r elems) in Heq at 2. apply app_inv_head in Heq. congruence. }
  rewrite fromElems_dot by assumption.
  destruct rooted; cbn [negb andb].
  - rewrite !fromElems_rooted by assumption. cbn [Bool.eqb negb].
    unfold Filepath.fromElems at 2 3.
    change ("/" +:+ ?x) with (String "/" x).
    cbn [Filepath.relLoop String.eqb orb Filepath.takeElem].
    unfold Filepath.Separator. cbn [Ascii.eqb Bool.eqb]. cbn [String.eqb sdrop].
    destruct (decide (elems = [])) as [-> | Hne'].
    + cbn [Strings.Join app]. rewrite relLoop_done. reflexivity.
    + rewrite relLoop_strip; [reflexivity | assumption.. |].
      unfold Filepath.fromElems. change ("/" +:+ ?x) with (String "/" x). cbn. lia.
  - destruct (decide (elems = [])) as [-> | Hne'].
    + rewrite bool_decide_eq_true_2 by reflexivity. cbn [app].
      rewrite fromElems_rooted by assumption. cbn.
      unfold Filepath.fromElems.
      destruct Hnames as [| n names Hn _]; [congruence |].
      rewrite (Join_plain_nonempty n names Hn). reflexivity.
    + rewrite bool_decide_eq_false_2 by assumption.
      rewrite !fromElems_rooted by assumption. cbn [Bool.eqb negb].
      assert (Hshape : forall l, Forall (fun e => plain e = true) l -> l <> [] ->
                Filepath.fromElems false l = Strings.Join l "/").
      { intros l Hl Hnel. unfold Filepath.fromElems.
        destruct Hl as [| e es He _]; [congruence |].
        by rewrite (Join_plain_nonempty e es He). }
      rewrite !Hshape; [| assumption | by destruct elems | assumption..].
      rewrite relLoop_strip; [reflexivity | assumption.. |]. lia.
Qed.

Lemma plainBelow_child name entries child :
  plainBelow (Dir name (Some entries)) = true -> child ∈ entries ->
  plain (entryName child) = true /\ plainBelow child = true.
Proof.
  cbn [plainBelow]. induction entries as [| first rest IH]; intros Hall Hin; [inversion Hin |].
  apply andb_true_iff in Hall as [Hfirst Hrest]. apply andb_true_iff in Hfirst as [? ?].
  apply elem_of_cons in Hin as [-> | Hin]; [by split | by apply IH].
Qed.

(** The path [Walk] names a file by, and the names on the way to it. *)
Lemma Reaches_walkPath path e dirs fpath fname content :
  Reaches path e dirs fpath fname content ->
  plainBelow e = true ->
  exists names,
    dirs ++ [fname] = entryName e :: names
    /\ fpath = walkPath path names
    /\ Forall (fun n => plain n = true) names.
Proof.
  induction 1 as [path name content | path name entries child dirs fpath fname content Hin _ IH];
    intros Hplain.
  - exists []. repeat split. constructor.
  - destruct (plainBelow_child _ _ _ Hplain Hin) as [Hname Hchild].
    destruct (IH Hchild) as (names & Hdirs & -> & Hnames).
    exists (entryName child :: names). split; [| split].
    + cbn. by rewrite Hdirs.
    + reflexivity.
    + by constructor.
Qed.

(** Below a clean root, the identifier of a file is the names on the way
    to it, joined by the separator. *)
Lemma relPathOf_Reaches rooted elems name entries dirs fpath fname content :
  Forall (fun e => plain e = true) elems ->
  plainBelow (Dir name (Some entries)) = true ->
  Reaches (Filepath.fromElems rooted elems) (Dir name (Some entries)) dirs fpath fname content ->
  exists names,
    dirs ++ [fname] = name :: names
    /\ Forall (fun n => plain n = true) names
    /\ names <> []
    /\ relPathOf (Filepath.fromElems rooted elems) fpath = Strings.Join names "/".
Proof.
  intros Helems Hplain Hreach.
  destruct (Reaches_walkPath _ _ _ _ _ _ Hreach Hplain) as (names & Hdirs & -> & Hnames).
  exists names. split; [exact Hdirs | split; [exact Hnames |]].
  assert (Hne : names <> []).
  { intros ->. inversion Hreach; subst. destruct dirs0; discriminate Hdirs. }
  split; [exact Hne |].
  unfold relPathOf. rewrite walkPath_fromElems, Rel_fromElems by assumption. reflexivity.
Qed.

Lemma Join_inj names1 names2 :
  Forall (fun n => plain n = true) names1 -> names1 <> [] ->
  Forall (fun n => plain n = true) names2 -> names2 <> [] ->
  Strings.Join names1 "/" = Strings.Join names2 "/" -> names1 = names2.
Proof.
  intros H1 Hne1 H2 Hne2 Heq.
  rewrite <- (Split_Join names1 Hne1 (noSep_of_plain _ H1)),
          <- (Split_Join names2 Hne2 (noSep_of_plain _ H2)).
  by rewrite Heq.
Qed.

(** Under a clean root, files at different places of a tree with plain
    names have different identifiers. *)
Lemma plain_identifiersDistinct rooted elems root :
  Forall (fun e => plain e = true) elems ->
  plainBelow root = true ->
  identifiersDistinct (Filepath.fromElems rooted elems) (Filepath.fromElems rooted elems) root.
Proof.
  intros Helems Hplain dirs1 fpath1 fname1 content1 dirs2 fpath2 fname2 content2 H1 H2 Heq.
  destruct root as [name content | name [entries|]].
  - inversion H1; inversion H2; subst. reflexivity.
  - destruct (relPathOf_Reaches _ _ _ _ _ _ _ _ Helems Hplain H1) as (n1 & Hd1 & Hp1 & Hne1 & E1).
    destruct (relPathOf_Reaches _ _ _ _ _ _ _ _ Helems Hplain H2) as (n2 & Hd2 & Hp2 & Hne2 & E2).
    rewrite E1, E2 in Heq. apply Join_inj in Heq; [| assumption..]. subst n2.
    rewrite <- Hd2 in Hd1. by apply app_inj_tail in Hd1 as [? _].
  - inversion H1.
Qed.

(** C8: a directory named [node_modules], [build] or [dist], or whose name
    begins with a dot, is never descended into: the walk leaves it at once
    with the project untouched.  Every entry of the files list and every
    key of the registry of the returned project is the identifier of a file
    none of whose enclosing directories, the root included, has such a
    name.  So, identifiers being distinct, the identifier of a file that
    lies beneath such a directory, at any depth, is neither in the files
    list nor a key of the registry. *)
Theorem pruned_directories_contribute_nothing
    stat readFile rangeAliases rangeNodes rangeDirs rootDir root :
  (forall aliasConfig path name entries project,
     skipName name = true ->
     walk stat rangeAliases rootDir aliasConfig path (Dir name (Some entries)) project
     = (project, Some SkipDir))
  /\ (forall x,
        listed (ScanProject stat readFile rangeAliases rangeNodes rangeDirs rootDir root).1 x ->
        unprunedOrigin rootDir rootDir root x)
  /\ (identifiersDistinct rootDir rootDir root ->
      forall dirs fpath fname content,
        Reaches rootDir root dirs fpath fname content ->
        Exists (fun d => skipName d = true) dirs ->
        ~ listed (ScanProject stat readFile rangeAliases rangeNodes rangeDirs rootDir root).1
            (relPathOf rootDir fpath)).
Proof.
  assert (Horigin : forall x,
            listed (ScanProject stat readFile rangeAliases rangeNodes rangeDirs rootDir root).1 x ->
            unprunedOrigin rootDir rootDir root x).
  { intros x Hx. apply ScanProject_listed, walk_listed in Hx as [[Hx | Hx] | Hx].
    - inversion Hx.
    - cbn in Hx. rewrite lookup_empty in Hx. by destruct Hx.
    - exact Hx. }
  split; [| split; [exact Horigin |]].
  - intros aliasConfig path name entries project. apply walk_skips.
  - intros Hdistinct dirs fpath fname content Hreach Hpruned Hlisted.
    destruct (Horigin _ Hlisted) as (dirs' & fpath' & fname' & content' & Hreach' & Hkept & Heq).
    rewrite (Hdistinct _ _ _ _ _ _ _ _ Hreach Hreach' Heq) in Hpruned.
    apply Exists_exists in Hpruned as (d & Hd & Hskip).
    rewrite Forall_forall in Hkept. rewrite (Hkept d Hd) in Hskip. discriminate Hskip.
Qed.

(** The same on the identifiers themselves.  Under a clean root and with
    plain names below it, whatever the returned project lists is a
    relative path whose directories, like the root, all have names the
    walk does not skip. *)
Lemma listed_paths_avoid_skipped_directories
    stat readFile rangeAliases rangeNodes rangeDirs rooted elems name entries x :
  Forall (fun e => plain e = true) elems ->
  plainBelow (Dir name (Some entries)) = true ->
  listed (ScanProject stat readFile rangeAliases rangeNodes rangeDirs
            (Filepath.fromElems rooted elems) (Dir name (Some entries))).1 x ->
  exists dirs fname,
    x = Strings.Join (dirs ++ [fname]) "/"
    /\ skipName name = false
    /\ Forall (fun d => skipName d = false) dirs.
Proof.
  intros Helems Hplain Hx.
  apply ScanProject_listed, walk_listed in Hx as [[Hx | Hx] | Hx].
  - inversion Hx.
  - cbn in Hx. rewrite lookup_empty in Hx. by destruct Hx.
  - destruct Hx as (dirs0 & fpath & fname & content & Hreach & Hkept & ->).
    destruct (relPathOf_Reaches _ _ _ _ _ _ _ _ Helems Hplain Hreach)
      as (names & Hdirs & _ & Hne & ->).
    destruct dirs0 as [| d dirs]; cbn in Hdirs.
    + injection Hdirs as _ <-. congruence.
    + injection Hdirs as -> <-. apply Forall_cons in Hkept as [Hname Hkept].
      exists dirs, fname. repeat split; assumption.
Qed.

Example sampleTree_scan :
  Files (scan "/home/u/proj" sampleTree).1
  = [".hidden.ts"; "index.js"; "src/App.jsx"; "src/util/b.js"]
  /\ keysOf (NodesMap (scan "/home/u/proj" sampleTree).1)
     ≡ₚ [".hidden.ts"; "index.js"; "src/App.jsx"; "src/util/b.js"]
  /\ (scan "/home/u/proj" sampleTree).2 = false.
Proof.
  split; [vm_compute; reflexivity |]. split; [| vm_compute; reflexivity].
  assert (keysOf (NodesMap (scan "/home/u/proj" sampleTree).1)
          = reverse [".hidden.ts"; "index.js"; "src/App.jsx"; "src/util/b.js"]) as ->
    by (vm_compute; reflexivity).
  apply reverse_Permutation.
Qed.

Lemma pruned_directories_contribute_nothing_witness :
  unprunedOrigin "/home/u/proj" "/home/u/proj" sampleTree "src/App.jsx"
  /\ ~ listed (scan "/home/u/proj" sampleTree).1 "node_modules/lib.js".
Proof.
  destruct (pruned_directories_contribute_nothing
              noStat noFile map_to_list keysOf keysOf "/home/u/proj" sampleTree)
    as (_ & Horigin & Hpruned).
  split.
  - apply Horigin. left. vm_compute. repeat constructor.
  - assert (Hdistinct : identifiersDistinct "/home/u/proj" "/home/u/proj" sampleTree).
    { apply (plain_identifiersDistinct true ["home"; "u"; "proj"] sampleTree).
      - repeat constructor.
      - vm_compute. reflexivity. }
    apply (Hpruned Hdistinct
             ["proj"; "node_modules"] "/home/u/proj/node_modules/lib.js" "lib.js" (Some "")).
    + eapply Reaches_dir; [right; right; left |].
      eapply Reaches_dir; [left |].
      apply (Reaches_file "/home/u/proj/node_modules/lib.js").
    + right. left. reflexivity.
Defined.

(** * The directory tree *)

Lemma HasPrefix_length s prefix :
  HasPrefix s prefix = true -> String.length prefix <= String.length s.
Proof.
  revert s. induction prefix as [| p prefix IH]; intros s; cbn; [lia |].
  destruct s as [| c s]; [discriminate |]. cbn.
  intros H. apply andb_true_iff in H as [_ H]. apply IH in H. lia.
Qed.

Lemma HasPrefix_same_length s prefix :
  HasPrefix s prefix = true -> String.length s <= String.length prefix -> s = prefix.
Proof.
  revert s. induction prefix as [| p prefix IH]; intros s; cbn.
  - destruct s; cbn; [reflexivity | lia].
  - destruct s as [| c s]; [discriminate |]. cbn.
    intros H Hlen. apply andb_true_iff in H as [Hc H].
    apply Ascii.eqb_eq in Hc as ->. f_equal. apply IH; [exact H | lia].
Qed.

(** A key attached under a directory is strictly longer than the
    directory's own key. *)
Lemma attachedUnder_longer dir nodeDir :
  attachedUnder dir nodeDir = true -> String.length dir < String.length nodeDir.
Proof.
  unfold attachedUnder. intros H.
  apply andb_true_iff in H as [H _]. apply andb_true_iff in H as [Hne Hpre].
  pose proof (HasPrefix_length _ _ Hpre) as Hle.
  destruct (Nat.eq_dec (String.length nodeDir) (String.length dir)) as [Heq | ?]; [| lia].
  rewrite (HasPrefix_same_length _ _ Hpre) in Hne by lia.
  rewrite String.eqb_refl in Hne. discriminate Hne.
Qed.

Lemma maxLength_bound key keys : key ∈ keys -> String.length key <= maxLength keys.
Proof.
  induction keys as [| k keys IH]; intros Hin; [inversion Hin |].
  change (maxLength (k :: keys)) with (Nat.max (String.length k) (maxLength keys)).
  apply elem_of_cons in Hin as [-> | Hin]; [lia |]. apply IH in Hin. lia.
Qed.

(** [buildTreeRecursive] terminates: any fuel above the distance from the
    directory's key to the longest key gives the same tree, so the fuel
    [buildTree] supplies is never used up. *)
Lemma buildTreeRecursive_fuel dirNodes keys : forall fuel1 fuel2 parent dir,
  maxLength keys - String.length dir < fuel1 ->
  maxLength keys - String.length dir < fuel2 ->
  buildTreeRecursive fuel1 parent dir dirNodes keys
  = buildTreeRecursive fuel2 parent dir dirNodes keys.
Proof.
  induction fuel1 as [| fuel1 IH]; intros fuel2 parent dir H1 H2; [lia |].
  destruct fuel2 as [| fuel2]; [lia |]. cbn [buildTreeRecursive].
  generalize (addChildren parent (default [] (dirNodes !! dir))). clear parent.
  assert (Hsub : forall k, k ∈ keys -> k ∈ keys) by auto.
  revert Hsub. generalize keys at 1 4 6 as l.
  induction l as [| k l IHl]; intros Hsub parent; [reflexivity |].
  cbn [foldl]. destruct (attachedUnder dir k) eqn:Hatt.
  - rewrite (IH fuel2 (directoryNode k) k).
    + apply IHl. intros k' Hk'. apply Hsub. by right.
    + apply attachedUnder_longer in Hatt.
      pose proof (maxLength_bound k keys (Hsub k ltac:(left))). lia.
    + apply attachedUnder_longer in Hatt.
      pose proof (maxLength_bound k keys (Hsub k ltac:(left))). lia.
  - apply IHl. intros k' Hk'. apply Hsub. by right.
Qed.

Lemma foldl_attach (sub : string -> ComponentNode) dir keys parent :
  Children (foldl (fun parent nodeDir =>
                     if attachedUnder dir nodeDir
                     then addChildren parent [sub nodeDir] else parent) parent keys)
  = Children parent ++ map sub (filter (fun k => attachedUnder dir k = true) keys).
Proof.
  revert parent. induction keys as [| k keys IH]; intros parent; cbn [foldl].
  - cbn. by rewrite app_nil_r.
  - rewrite IH. rewrite filter_cons.
    destruct (attachedUnder dir k) eqn:Hatt.
    + rewrite decide_True by reflexivity. cbn. by rewrite <- app_assoc.
    + rewrite decide_False by discriminate. reflexivity.
Qed.

(** The children [buildTreeRecursive] gives a directory: the nodes grouped
    under its key, then one directory node for every key that passes
    [attachedUnder], filled the same way. *)
Lemma buildTreeRecursive_children fuel parent dir dirNodes keys :
  Children (buildTreeRecursive (S fuel) parent dir dirNodes keys)
  = Children parent ++ default [] (dirNodes !! dir)
    ++ map (fun nodeDir => buildTreeRecursive fuel (directoryNode nodeDir) nodeDir dirNodes keys)
           (filter (fun k => attachedUnder dir k = true) keys).
Proof.
  cbn [buildTreeRecursive].
  rewrite (foldl_attach
             (fun nodeDir => buildTreeRecursive fuel (directoryNode nodeDir) nodeDir dirNodes keys)).
  cbn. by rewrite <- app_assoc.
Qed.

(** C5: two registries on which the tree is not the one the directories
    form.  A file directly in the project root is grouped under the key
    [.], which the root call for the key [""] does not look up, so it hangs
    under a synthesized directory [.] instead of the root node.  And the
    key [srcfoo] passes the test under the directory [src], whose key is
    merely a prefix of it as a string, so [srcfoo] is attached under [src]
    as well as under the root. *)
Theorem buildTree_misplaces_nodes :
  Filepath.Dir "App.js" = "."
  /\ shape (treeOf rootFileRegistry) = At "root" [At "." [At "App.js" []]]
  /\ attachedUnder "src" "srcfoo" = true
  /\ shape (treeOf siblingRegistry)
     = At "root" [At "srcfoo" [At "srcfoo/b.js" []];
                  At "src" [At "src/a.js" []; At "srcfoo" [At "srcfoo/b.js" []]]].
Proof. repeat split; vm_compute; reflexivity. Qed.

(** * The scan as a whole *)

(** Scenarios A, C and E of the specification on one project: the import
    through the alias is resolved and probed to [Button.jsx], the package
    import is dropped, the edge is there in both directions, and the page
    with two components counts once. *)
Example alias_scan :
  let project := (ScanProject aliasStat aliasRead map_to_list keysOf keysOf "/p" aliasTree).1 in
  Files project = ["src/Page.jsx"; "src/components/Button.jsx"]
  /\ (Imports <$> NodesMap project !! "src/Page.jsx") = Some ["src/components/Button.jsx"]
  /\ (ImportedBy <$> NodesMap project !! "src/components/Button.jsx") = Some ["src/Page.jsx"]
  /\ (Type_ <$> NodesMap project !! "src/components/Button.jsx") = Some "component"
  /\ (MultipleComp <$> NodesMap project !! "src/Page.jsx") = Some true
  /\ Stats project = {| TotalComponents := 2; MultiCompFiles := 1; ComponentFiles := 2;
                        StateFiles := 0; UtilFiles := 0 |}.
Proof. repeat split; vm_compute; reflexivity. Qed.

Lemma walk_importedBy_empty stat rangeAliases rootDir aliasConfig e path project :
  (forall k node, NodesMap project !! k = Some node -> ImportedBy node = []) ->
  forall k node,
    NodesMap (walk stat rangeAliases rootDir aliasConfig path e project).1 !! k = Some node ->
    ImportedBy node = [].
Proof.
  apply (walk_preserves stat rangeAliases rootDir aliasConfig
           (fun p => forall k node, NodesMap p !! k = Some node -> ImportedBy node = [])).
  clear. intros project path name content HI.
  unfold visitFile. destruct (isReactFile name); [| exact HI].
  destruct (parseFile _ _ _ _ _ _ _) as [node|] eqn:Hparse; cbn; [| exact HI].
  destruct (Filepath.nonEmpty (Name node)); cbn; [| exact HI].
  apply parseFile_fileRole in Hparse as (_ & _ & Hempty).
  intros k node' Hk. apply lookup_insert_Some in Hk as [[_ <-] | [_ Hk]]; [exact Hempty | eauto].
Qed.

(** The reverse edges in the result of a scan that returns no error, when
    the runtime enumerates the registry key by key: the key of a node N
    stands in the reverse list of the node I as often as the key of I
    stands among the imports of N. *)
Lemma ScanProject_reverse_edges stat readFile rangeAliases rangeNodes rangeDirs
    rootDir root N I nodeN nodeI :
  (forall nodes, rangeNodes nodes ≡ₚ keysOf nodes) ->
  (ScanProject stat readFile rangeAliases rangeNodes rangeDirs rootDir root).2 = false ->
  NodesMap (ScanProject stat readFile rangeAliases rangeNodes rangeDirs rootDir root).1 !! N
  = Some nodeN ->
  NodesMap (ScanProject stat readFile rangeAliases rangeNodes rangeDirs rootDir root).1 !! I
  = Some nodeI ->
  occurrences N (ImportedBy nodeI) = occurrences I (Imports nodeN).
Proof.
  intros Henum.
  pose proof (walk_importedBy_empty stat rangeAliases rootDir
                (ReadProjectConfig stat readFile rootDir) root rootDir (emptyProject rootDir))
    as Hempty.
  unfold ScanProject, Walk.
  destruct (walk _ _ _ _ _ root _) as [project r]; cbn in Hempty.
  assert (Hnone : forall k node, NodesMap project !! k = Some node -> ImportedBy node = []).
  { apply Hempty. intros k node Hk. cbn in Hk. rewrite lookup_empty in Hk. discriminate Hk. }
  assert (Hedges : forall nodeN nodeI,
            buildRelationships (rangeNodes (NodesMap project)) (NodesMap project) !! N = Some nodeN ->
            buildRelationships (rangeNodes (NodesMap project)) (NodesMap project) !! I = Some nodeI ->
            occurrences N (ImportedBy nodeI) = occurrences I (Imports nodeN)).
  { clear nodeN nodeI. intros nodeN nodeI. rewrite !buildRelationships_lookup.
    destruct (NodesMap project !! N) as [n0|] eqn:EN; cbn; [| discriminate].
    destruct (NodesMap project !! I) as [i0|] eqn:EI; cbn; [| discriminate].
    intros [= <-] [= <-]. cbn. rewrite (Hnone _ _ EI). cbn.
    rewrite occurrences_reverseEntries, EN.
    assert (occurrences N (rangeNodes (NodesMap project)) = 1) as ->; [| lia].
    rewrite (occurrences_Permutation _ _ _ (Henum _)).
    apply occurrences_NoDup; [apply NoDup_fst_map_to_list |].
    unfold keysOf. apply list_elem_of_fmap. exists (N, n0).
    split; [reflexivity | by apply elem_of_map_to_list]. }
  destruct r as [[]|]; cbn; [intros _; apply Hedges | discriminate | intros _; apply Hedges].
Qed.

(** * Path normalisation *)

Lemma HasPrefix_backslash c s :
  HasPrefix (String c s) backslash = Ascii.eqb c "092"%char.
Proof. cbn. by rewrite andb_true_r. Qed.

(** Replacing the one-byte pattern is a byte-wise map. *)
Lemma ConvertToUnixPath_bytes path : ConvertToUnixPath path = mapBytes slashFor path.
Proof.
  unfold ConvertToUnixPath, ReplaceAll.
  induction path as [| c path IH]; [reflexivity |].
  cbn [replaceAllFrom mapBytes]. rewrite HasPrefix_backslash. unfold slashFor.
  destruct (Ascii.eqb c "092"%char); cbn [String.length backslash Nat.sub]; rewrite IH; reflexivity.
Qed.

Lemma slashFor_idempotent c : slashFor (slashFor c) = slashFor c.
Proof. unfold slashFor. destruct (Ascii.eqb c "092"%char) eqn:E; [reflexivity | by rewrite E]. Qed.

Lemma slashFor_not_backslash c : Ascii.eqb "092"%char (slashFor c) = false.
Proof.
  unfold slashFor. destruct (Ascii.eqb c "092"%char) eqn:E; [reflexivity |].
  by rewrite Ascii.eqb_sym.
Qed.

Lemma length_mapBytes f s : String.length (mapBytes f s) = String.length s.
Proof. induction s as [| c s IH]; cbn; [reflexivity | by rewrite IH]. Qed.

Lemma ConvertToUnixPath_no_backslash path : hasBackslash (ConvertToUnixPath path) = false.
Proof.
  rewrite ConvertToUnixPath_bytes. unfold hasBackslash.
  induction path as [| c path IH]; cbn [mapBytes anyByte]; [reflexivity |].
  by rewrite slashFor_not_backslash, IH.
Qed.

Lemma ConvertToUnixPath_id path : hasBackslash path = false -> ConvertToUnixPath path = path.
Proof.
  rewrite ConvertToUnixPath_bytes. unfold hasBackslash.
  induction path as [| c path IH]; cbn [mapBytes anyByte]; [reflexivity |].
  intros H. apply orb_false_iff in H as [Hc Hs]. rewrite (IH Hs). unfold slashFor.
  rewrite Ascii.eqb_sym, Hc. reflexivity.
Qed.

(** X1: [ConvertToUnixPath] keeps the length of the path, leaves no
    backslash in it, changes nothing in a path without backslash, and so
    changes nothing when applied a second time. *)
Theorem ConvertToUnixPath_normalises path :
  String.length (ConvertToUnixPath path) = String.length path
  /\ hasBackslash (ConvertToUnixPath path) = false
  /\ (hasBackslash path = false -> ConvertToUnixPath path = path)
  /\ ConvertToUnixPath (ConvertToUnixPath path) = ConvertToUnixPath path.
Proof.
  split; [by rewrite ConvertToUnixPath_bytes, length_mapBytes |].
  split; [apply ConvertToUnixPath_no_backslash |].
  split; [apply ConvertToUnixPath_id |].
  apply ConvertToUnixPath_id, ConvertToUnixPath_no_backslash.
Qed.

Lemma forallb_map_no_backslash l :
  forallb (fun p => negb (hasBackslash p)) (map ConvertToUnixPath l) = true.
Proof.
  induction l as [| p l IH]; [reflexivity |]. cbn [map forallb].
  by rewrite ConvertToUnixPath_no_backslash, IH.
Qed.

Lemma convertNodePaths_normalised node : nodeNormalised (convertNodePaths node) = true.
Proof.
  induction node as [id name path type multi imports importedBy children IH]
    using ComponentNode_nested_ind.
  cbn [nodeNormalised convertNodePaths ID Path Imports ImportedBy Children].
  rewrite !ConvertToUnixPath_no_backslash, !forallb_map_no_backslash. cbn [negb andb].
  induction IH as [| child rest Hchild _ IHrest]; [reflexivity |].
  cbn [map forallb]. by rewrite Hchild, IHrest.
Qed.

Lemma map_ConvertToUnixPath_id l :
  forallb (fun p => negb (hasBackslash p)) l = true -> map ConvertToUnixPath l = l.
Proof.
  induction l as [| p l IH]; [reflexivity |]. cbn [map forallb].
  intros H. apply andb_true_iff in H as [Hp Hl]. apply negb_true_iff in Hp.
  by rewrite (ConvertToUnixPath_id _ Hp), (IH Hl).
Qed.

Lemma convertNodePaths_id node : nodeNormalised node = true -> convertNodePaths node = node.
Proof.
  induction node as [id name path type multi imports importedBy children IH]
    using ComponentNode_nested_ind.
  cbn [nodeNormalised convertNodePaths ID Name Path Type_ MultipleComp Imports ImportedBy Children].
  rewrite !andb_true_iff, !negb_true_iff. intros [[[[Hid Hpath] Himp] Hby] Hch].
  rewrite (ConvertToUnixPath_id _ Hid), (ConvertToUnixPath_id _ Hpath),
    (map_ConvertToUnixPath_id _ Himp), (map_ConvertToUnixPath_id _ Hby).
  f_equal. induction IH as [| child rest Hchild _ IHrest]; [reflexivity |].
  cbn [map forallb] in *. apply andb_true_iff in Hch as [H1 H2].
  by rewrite (Hchild H1), (IHrest H2).
Qed.

(** Where an entry of the converted registry comes from. *)
Lemma convertRegistry_lookup_Some order (nodes : gmap string ComponentNode) k node :
  convertRegistry order nodes !! k = Some node ->
  exists id node0,
    id ∈ order /\ nodes !! id = Some node0
    /\ k = ConvertToUnixPath id /\ node = convertNodePaths node0.
Proof.
  unfold convertRegistry.
  induction order as [| id order IH] using rev_ind; cbn.
  - rewrite lookup_empty. discriminate.
  - rewrite foldl_app. cbn [foldl].
    destruct (nodes !! id) as [node0|] eqn:E.
    + intros H. apply lookup_insert_Some in H as [[<- <-] | [_ H]].
      * exists id, node0. repeat split; [apply elem_of_app; right; by left | exact E].
      * destruct (IH H) as (id' & node' & Hin & ? & ? & ?).
        exists id', node'. repeat split; try assumption. apply elem_of_app. by left.
    + intros H. destruct (IH H) as (id' & node' & Hin & ? & ? & ?).
      exists id', node'. repeat split; try assumption. apply elem_of_app. by left.
Qed.

(** The converted registry at a converted key, when no other key of the
    registry is converted to the same one. *)
Lemma convertRegistry_lookup order (nodes : gmap string ComponentNode) k :
  (forall id, is_Some (nodes !! id) -> ConvertToUnixPath id = ConvertToUnixPath k -> id = k) ->
  convertRegistry order nodes !! ConvertToUnixPath k
  = if bool_decide (k ∈ order) then convertNodePaths <$> nodes !! k else None.
Proof.
  intros Hinj. unfold convertRegistry.
  induction order as [| id order IH] using rev_ind.
  - cbn. rewrite lookup_empty. by rewrite bool_decide_eq_false_2 by apply not_elem_of_nil.
  - rewrite foldl_app. cbn [foldl].
    destruct (decide (id = k)) as [-> | Hne].
    + rewrite (bool_decide_eq_true_2 (k ∈ order ++ [k]))
        by (apply elem_of_app; right; by left).
      destruct (nodes !! k) as [node|] eqn:E; cbn.
      * by rewrite lookup_insert_eq.
      * rewrite IH. by destruct (bool_decide (k ∈ order)).
    + assert (Hsame : bool_decide (k ∈ order ++ [id]) = bool_decide (k ∈ order)).
      { apply bool_decide_ext. rewrite elem_of_app, list_elem_of_singleton.
        split; [intros [? | ?]; [assumption | congruence] | by left]. }
      rewrite Hsame. destruct (nodes !! id) as [node|] eqn:E; [| exact IH].
      rewrite lookup_insert_ne; [exact IH |].
      intros Heq. apply Hne, Hinj; [by rewrite E | exact Heq].
Qed.

(** X2: after [ConvertProjectPathsToUnix] no backslash is left in the root
    path, in the files list, in a key of the registry or in the identifier,
    path, imports or reverse imports of a registry node, whatever the order
    in which the registry was enumerated. *)
Theorem ConvertProjectPathsToUnix_no_backslash order project :
  hasBackslash (Path (Root (ConvertProjectPathsToUnix order project))) = false
  /\ Forall (fun f => hasBackslash f = false) (Files (ConvertProjectPathsToUnix order project))
  /\ (forall k node,
        NodesMap (ConvertProjectPathsToUnix order project) !! k = Some node ->
        hasBackslash k = false /\ nodeNormalised node = true).
Proof.
  split; [apply ConvertToUnixPath_no_backslash |]. split.
  - cbn. apply Forall_forall. intros f Hf.
    apply list_elem_of_fmap in Hf as (f0 & -> & _). apply ConvertToUnixPath_no_backslash.
  - intros k node Hk. cbn in Hk.
    apply convertRegistry_lookup_Some in Hk as (id & node0 & _ & _ & -> & ->).
    split; [apply ConvertToUnixPath_no_backslash | apply convertNodePaths_normalised].
Qed.

Lemma ConvertProjectPathsToUnix_lookup_registry order project k :
  order ≡ₚ keysOf (NodesMap project) ->
  (forall id, is_Some (NodesMap project !! id) ->
     ConvertToUnixPath id = ConvertToUnixPath k -> id = k) ->
  NodesMap (ConvertProjectPathsToUnix order project) !! ConvertToUnixPath k
  = convertNodePaths <$> NodesMap project !! k.
Proof.
  intros Hperm Hinj. cbn [NodesMap ConvertProjectPathsToUnix].
  rewrite convertRegistry_lookup by exact Hinj.
  destruct (NodesMap project !! k) as [node|] eqn:E.
  - rewrite bool_decide_eq_true_2; [reflexivity |].
    rewrite Hperm. unfold keysOf. apply list_elem_of_fmap. exists (k, node).
    split; [reflexivity | by apply elem_of_map_to_list].
  - by destruct (bool_decide (k ∈ order)).
Qed.

(** X3: the converted registry answers a lookup at the converted key with
    the converted node, provided no other key of the registry is converted
    to the same key; a key that was not registered is not registered after
    conversion either. *)
Theorem ConvertProjectPathsToUnix_lookup order project k :
  order ≡ₚ keysOf (NodesMap project) ->
  (forall id, is_Some (NodesMap project !! id) ->
     ConvertToUnixPath id = ConvertToUnixPath k -> id = k) ->
  NodesMap (ConvertProjectPathsToUnix order project) !! ConvertToUnixPath k
  = convertNodePaths <$> NodesMap project !! k.
Proof. apply ConvertProjectPathsToUnix_lookup_registry. Qed.

Lemma ConvertProjectPathsToUnix_lookup_witness :
  NodesMap (ConvertProjectPathsToUnix (keysOf windowsRegistry) windowsProject)
    !! ConvertToUnixPath (String.append "src" (String.append backslash "App.jsx"))
  = convertNodePaths <$>
      NodesMap windowsProject !! String.append "src" (String.append backslash "App.jsx").
Proof.
  apply (ConvertProjectPathsToUnix_lookup (keysOf windowsRegistry) windowsProject).
  - reflexivity.
  - intros id [node Hid]. cbn [NodesMap windowsProject] in Hid. unfold windowsRegistry in Hid.
    apply lookup_insert_Some in Hid as [[<- _] | [_ Hid]]; [reflexivity |].
    apply lookup_insert_Some in Hid as [[<- _] | [_ Hid]]; [intros H; vm_compute in H; discriminate H |].
    rewrite lookup_empty in Hid. discriminate Hid.
Defined.

Lemma shape_sharedSlicesConverted node :
  shape (sharedSlicesConverted node) = shape node
  /\ treePaths (sharedSlicesConverted node) = treePaths node.
Proof.
  induction node as [id name path type multi imports importedBy children IH]
    using ComponentNode_nested_ind.
  cbn [shape treePaths sharedSlicesConverted ID Path Children].
  assert (map shape (map sharedSlicesConverted children) = map shape children
          /\ flat_map treePaths (map sharedSlicesConverted children)
             = flat_map treePaths children) as [-> ->]; [| done].
  induction IH as [| child rest [Hs Hp] _ [IHs IHp]]; [done |].
  cbn [map flat_map]. by rewrite Hs, Hp, IHs, IHp.
Qed.

Lemma shape_eq node : shape node = At (ID node) (map shape (Children node)).
Proof. by destruct node. Qed.

(** X4: [ConvertProjectPathsToUnix] rewrites the registry but not the nodes
    of the tree: below the root every node of the tree keeps its identifier
    and its path as the scan left them, backslashes included, and the tree
    keeps its shape (the tree holds copies of the registry's nodes, and the
    conversion assigns the fields of the registry's copies only). *)
Theorem ConvertProjectPathsToUnix_tree_untouched order project :
  shape (Root (ConvertProjectPathsToUnix order project)) = shape (Root project)
  /\ flat_map treePaths (Children (Root (ConvertProjectPathsToUnix order project)))
     = flat_map treePaths (Children (Root project)).
Proof.
  rewrite !shape_eq. cbn [ConvertProjectPathsToUnix Root ID Children].
  assert (map shape (map sharedSlicesConverted (Children (Root project)))
          = map shape (Children (Root project))
          /\ flat_map treePaths (map sharedSlicesConverted (Children (Root project)))
             = flat_map treePaths (Children (Root project))) as [-> ->]; [| done].
  induction (Children (Root project)) as [| child rest [IHs IHp]]; [done |].
  cbn [map flat_map]. destruct (shape_sharedSlicesConverted child) as [-> ->].
  by rewrite IHs, IHp.
Qed.

(** X5: on a project whose files list and registry hold no backslash, as
    every scan of a tree with plain names under a Unix root produces,
    [ConvertProjectPathsToUnix] leaves the files list and the registry as
    they are. *)
Theorem ConvertProjectPathsToUnix_normalised_fixed order project :
  order ≡ₚ keysOf (NodesMap project) ->
  projectNormalised project ->
  Files (ConvertProjectPathsToUnix order project) = Files project
  /\ NodesMap (ConvertProjectPathsToUnix order project) = NodesMap project.
Proof.
  intros Hperm [Hfiles Hnodes]. split.
  - cbn [Files ConvertProjectPathsToUnix].
    induction Hfiles as [| f fs Hf _ IH]; [reflexivity |].
    cbn [map]. by rewrite (ConvertToUnixPath_id _ Hf), IH.
  - apply map_eq. intros k.
    destruct (NodesMap project !! k) as [node|] eqn:E.
    + destruct (Hnodes k node E) as [Hk Hnode].
      rewrite <- (ConvertToUnixPath_id k Hk) at 1.
      rewrite ConvertProjectPathsToUnix_lookup_registry; [| exact Hperm |].
      * rewrite E. cbn. by rewrite (convertNodePaths_id _ Hnode).
      * intros id [node' Hid] Heq. destruct (Hnodes id node' Hid) as [Hidk _].
        by rewrite (ConvertToUnixPath_id _ Hidk), (ConvertToUnixPath_id _ Hk) in Heq.
    + destruct (NodesMap (ConvertProjectPathsToUnix order project) !! k) as [node|] eqn:E';
        [| reflexivity].
      cbn [NodesMap ConvertProjectPathsToUnix] in E'.
      apply convertRegistry_lookup_Some in E' as (id & node0 & _ & Hid & -> & _).
      destruct (Hnodes id node0 Hid) as [Hidk _].
      rewrite (ConvertToUnixPath_id _ Hidk) in E. congruence.
Qed.

Lemma ConvertProjectPathsToUnix_normalised_fixed_witness :
  Files (ConvertProjectPathsToUnix (keysOf sampleRegistry)
           {| Root := Root (emptyProject "/p"); NodesMap := sampleRegistry;
              Files := ["a.js"; "b.js"]; Stats := Stats (emptyProject "/p") |})
  = ["a.js"; "b.js"]
  /\ NodesMap (ConvertProjectPathsToUnix (keysOf sampleRegistry)
           {| Root := Root (emptyProject "/p"); NodesMap := sampleRegistry;
              Files := ["a.js"; "b.js"]; Stats := Stats (emptyProject "/p") |})
     = sampleRegistry.
Proof.
  apply (ConvertProjectPathsToUnix_normalised_fixed (keysOf sampleRegistry)
           {| Root := Root (emptyProject "/p"); NodesMap := sampleRegistry;
              Files := ["a.js"; "b.js"]; Stats := Stats (emptyProject "/p") |}).
  - reflexivity.
  - split.
    + repeat constructor.
    + intros k node Hk. cbn [NodesMap] in Hk. unfold sampleRegistry in Hk.
      apply lookup_insert_Some in Hk as [[<- <-] | [_ Hk]]; [split; reflexivity |].
      apply lookup_insert_Some in Hk as [[<- <-] | [_ Hk]]; [split; reflexivity |].
      rewrite lookup_empty in Hk. discriminate Hk.
Defined.

(** * The registry after a scan *)

Lemma parseFile_scannedNode stat rangeAliases content path relPath rootDir aliasConfig node :
  parseFile stat rangeAliases content path relPath rootDir aliasConfig = Some node ->
  Filepath.nonEmpty (Name node) = true ->
  scannedNode relPath node.
Proof.
  unfold parseFile. destruct content as [fileContent|]; [| discriminate].
  intros [= <-]. cbn [Name ID Path Children Type_ MultipleComp]. intros Hname.
  unfold scannedNode, fileRole. cbn [Name ID Path Children Type_ MultipleComp].
  repeat split; try reflexivity.
  - intros Heq. rewrite Heq in Hname. discriminate Hname.
  - destruct (isComponentFile _ _); [tauto |].
    destruct (isStateFile _ _); tauto.
  - destruct (isComponentFile _ _); [reflexivity | discriminate].
Qed.

Lemma walk_scannedNodes stat rangeAliases rootDir aliasConfig e path project :
  (forall k node, NodesMap project !! k = Some node ->
     scannedNode k node /\ k ∈ Files project) ->
  forall k node,
    NodesMap (walk stat rangeAliases rootDir aliasConfig path e project).1 !! k = Some node ->
    scannedNode k node
    /\ k ∈ Files (walk stat rangeAliases rootDir aliasConfig path e project).1.
Proof.
  apply (walk_preserves stat rangeAliases rootDir aliasConfig
           (fun p => forall k node, NodesMap p !! k = Some node ->
                       scannedNode k node /\ k ∈ Files p)).
  clear. intros project path name content HI.
  unfold visitFile. destruct (isReactFile name); [| exact HI].
  assert (Hkept : forall k node, NodesMap project !! k = Some node ->
            scannedNode k node
            /\ k ∈ Files project ++ [default "" (Filepath.Rel rootDir path)]).
  { intros k node Hk. destruct (HI k node Hk). split; [assumption |].
    apply elem_of_app. by left. }
  destruct (parseFile _ _ _ _ _ _ _) as [node|] eqn:Hparse; cbn; [| exact Hkept].
  destruct (Filepath.nonEmpty (Name node)) eqn:Hname; cbn; [| exact Hkept].
  pose proof (parseFile_scannedNode _ _ _ _ _ _ _ _ Hparse Hname) as Hnode.
  destruct Hnode as (HID & Hrest).
  intros k node' Hk. rewrite HID in Hk.
  apply lookup_insert_Some in Hk as [[<- <-] | [_ Hk]]; [| by apply Hkept].
  split; [by split |]. apply elem_of_app. right. by left.
Qed.

Lemma extendImportedBy_fields ids node :
  ID (extendImportedBy ids node) = ID node
  /\ Name (extendImportedBy ids node) = Name node
  /\ Path (extendImportedBy ids node) = Path node
  /\ Type_ (extendImportedBy ids node) = Type_ node
  /\ MultipleComp (extendImportedBy ids node) = MultipleComp node
  /\ Imports (extendImportedBy ids node) = Imports node
  /\ Children (extendImportedBy ids node) = Children node.
Proof. by destruct node. Qed.

(** X6: every node of the registry a scan returns, with or without an
    error, carries its key as identifier and as path, has no children and a
    display name, one of the three file roles, the flag for several
    components only with the role component, and its key is in the files
    list. *)
Theorem ScanProject_registry_nodes stat readFile rangeAliases rangeNodes rangeDirs
    rootDir root k node :
  NodesMap (ScanProject stat readFile rangeAliases rangeNodes rangeDirs rootDir root).1 !! k
  = Some node ->
  scannedNode k node
  /\ k ∈ Files (ScanProject stat readFile rangeAliases rangeNodes rangeDirs rootDir root).1.
Proof.
  pose proof (walk_scannedNodes stat rangeAliases rootDir
                (ReadProjectConfig stat readFile rootDir) root rootDir (emptyProject rootDir))
    as Hwalk.
  unfold ScanProject, Walk.
  destruct (walk _ _ _ _ _ root _) as [project r]. cbn [fst] in Hwalk.
  assert (Hproject : forall k node, NodesMap project !! k = Some node ->
            scannedNode k node /\ k ∈ Files project).
  { apply Hwalk. intros k' node' Hk. cbn in Hk. rewrite lookup_empty in Hk. discriminate Hk. }
  assert (Hbuilt : forall order, buildRelationships order (NodesMap project) !! k = Some node ->
            scannedNode k node /\ k ∈ Files project).
  { intros order Hk. rewrite buildRelationships_lookup in Hk.
    destruct (NodesMap project !! k) as [node0|] eqn:E; [| discriminate Hk].
    cbn in Hk. injection Hk as <-. destruct (Hproject k node0 E) as [Hnode Hfile].
    split; [| exact Hfile]. unfold scannedNode in *.
    destruct (extendImportedBy_fields (reverseEntries (NodesMap project) order k) node0)
      as (-> & -> & -> & -> & -> & _ & ->). exact Hnode. }
  destruct r as [[]|]; cbn [fst NodesMap Files]; eauto.
Qed.

Lemma ScanProject_registry_nodes_witness :
  exists node,
    NodesMap (scan "/home/u/proj" sampleTree).1 !! "src/App.jsx" = Some node
    /\ scannedNode "src/App.jsx" node
    /\ "src/App.jsx" ∈ Files (scan "/home/u/proj" sampleTree).1.
Proof.
  destruct (NodesMap (scan "/home/u/proj" sampleTree).1 !! "src/App.jsx") as [node|] eqn:E;
    [| vm_compute in E; discriminate E].
  exists node. split; [reflexivity |].
  exact (ScanProject_registry_nodes noStat noFile map_to_list keysOf keysOf
           "/home/u/proj" sampleTree "src/App.jsx" node E).
Defined.

Lemma addReverseEdges_size (nodes : gmap string ComponentNode) id :
  size (addReverseEdges nodes id) = size nodes.
Proof.
  unfold addReverseEdges. destruct (nodes !! id) as [node|]; [| reflexivity].
  generalize (Imports node) as imports. intros imports. revert nodes.
  induction imports as [| importPath imports IH]; intros nodes; [reflexivity |].
  cbn [foldl]. rewrite IH. unfold addReverseEdge.
  destruct (nodes !! importPath) as [importedNode|] eqn:E; [| reflexivity].
  rewrite map_size_insert_Some; [reflexivity | by rewrite E].
Qed.

Lemma buildRelationships_size order (nodes : gmap string ComponentNode) :
  size (buildRelationships order nodes) = size nodes.
Proof.
  unfold buildRelationships. revert nodes.
  induction order as [| id order IH]; intros nodes; [reflexivity |].
  cbn [foldl]. by rewrite IH, addReverseEdges_size.
Qed.

Lemma walk_sizes stat rangeAliases rootDir aliasConfig e path project :
  size (NodesMap project) <= TotalComponents (Stats project) <= length (Files project) ->
  size (NodesMap (walk stat rangeAliases rootDir aliasConfig path e project).1)
  <= TotalComponents (Stats (walk stat rangeAliases rootDir aliasConfig path e project).1)
  <= length (Files (walk stat rangeAliases rootDir aliasConfig path e project).1).
Proof.
  apply (walk_preserves stat rangeAliases rootDir aliasConfig
           (fun p => size (NodesMap p) <= TotalComponents (Stats p) <= length (Files p))).
  clear. intros project path name content HI.
  unfold visitFile. destruct (isReactFile name); [| exact HI].
  destruct (parseFile _ _ _ _ _ _ _) as [node|];
    [destruct (Filepath.nonEmpty (Name node)) |];
    cbn [fst register addFile countNode NodesMap Files Stats TotalComponents];
    rewrite ?length_app; cbn [length]; try lia.
  pose proof (map_size_insert (ID node) node (NodesMap project)) as Hsize.
  destruct (NodesMap project !! ID node); unfold id in Hsize; lia.
Qed.

(** X7: in the project a scan returns, with or without an error, the
    registry holds at most as many nodes as the statistics count, and the
    statistics count at most as many as the files list holds. *)
Theorem ScanProject_sizes stat readFile rangeAliases rangeNodes rangeDirs rootDir root :
  size (NodesMap (ScanProject stat readFile rangeAliases rangeNodes rangeDirs rootDir root).1)
  <= TotalComponents
       (Stats (ScanProject stat readFile rangeAliases rangeNodes rangeDirs rootDir root).1)
  <= length (Files (ScanProject stat readFile rangeAliases rangeNodes rangeDirs rootDir root).1).
Proof.
  pose proof (walk_sizes stat rangeAliases rootDir
                (ReadProjectConfig stat readFile rootDir) root rootDir (emptyProject rootDir))
    as Hwalk.
  unfold ScanProject, Walk.
  destruct (walk _ _ _ _ _ root _) as [project r]. cbn [fst] in Hwalk.
  assert (Hproject : size (NodesMap project) <= TotalComponents (Stats project)
                     <= length (Files project)).
  { apply Hwalk. cbn. rewrite map_size_empty. lia. }
  destruct r as [[]|]; cbn [fst NodesMap Files Stats]; rewrite ?buildRelationships_size;
    exact Hproject.
Qed.

(** * The walk as a fold over the visited files *)

Section WalkFold.

Variable stat : string -> bool.
Variable rangeAliases : gmap string string -> list (string * string).
Variable rootDir : string.
Variable aliasConfig : AliasConfig.

#[local] Abbreviation walk' := (walk stat rangeAliases rootDir aliasConfig).
#[local] Abbreviation walkEntries' := (walkEntries stat rangeAliases rootDir aliasConfig).
#[local] Abbreviation visit' := (visit stat rangeAliases rootDir aliasConfig).

Lemma walk_file_no_SkipDir path name content project :
  (walk' path (File name content) project).2 <> Some SkipDir.
Proof.
  cbn [walk].
  destruct (visitFile_result stat rangeAliases rootDir aliasConfig project path name content)
    as [-> | ->]; discriminate.
Qed.

Lemma walk_fold e : forall path project,
  exists seen,
    seen `prefix_of` visitedFiles path e
    /\ (walk' path e project).1 = foldl visit' project seen
    /\ ((walk' path e project).2 <> Some Failed -> seen = visitedFiles path e).
Proof.
  induction e as [name content | name | name entries IH] using FsEntry_nested_ind;
    intros path project.
  - exists [(path, name, content)]. split; [reflexivity |]. split; reflexivity.
  - exists []. split; [reflexivity |]. split; [reflexivity |]. intros H. by destruct H.
  - rewrite walk_Dir. cbn [visitedFiles]. destruct (skipName name).
    { exists []. split; [reflexivity |]. split; reflexivity. }
    revert project. induction IH as [| child rest Hchild _ IHrest]; intros project.
    { exists []. split; [reflexivity |]. split; reflexivity. }
    rewrite walkEntries_cons. cbn [flat_map].
    destruct (Hchild (Filepath.Join [path; entryName child]) project)
      as (seen & Hprefix & Hfold & Hall).
    assert (Hfile : IsDir child = false ->
              (walk' (Filepath.Join [path; entryName child]) child project).2 <> Some SkipDir).
    { destruct child as [n c | n es]; [intros _ | discriminate].
      apply walk_file_no_SkipDir. }
    destruct (walk' _ child project) as [project' r]. cbn [fst snd] in *.
    assert (Hnext : r <> Some Failed ->
              exists seen0,
                seen0 `prefix_of` visitedFiles (Filepath.Join [path; entryName child]) child
                                  ++ flat_map (fun child0 =>
                                       visitedFiles (Filepath.Join [path; entryName child0]) child0)
                                     rest
                /\ (walkEntries' path rest project').1 = foldl visit' project seen0
                /\ ((walkEntries' path rest project').2 <> Some Failed ->
                    seen0 = visitedFiles (Filepath.Join [path; entryName child]) child
                            ++ flat_map (fun child0 =>
                                 visitedFiles (Filepath.Join [path; entryName child0]) child0)
                               rest)).
    { intros Hr. rewrite (Hall Hr) in Hfold.
      destruct (IHrest project') as (seen' & Hprefix' & Hfold' & Hall').
      exists (visitedFiles (Filepath.Join [path; entryName child]) child ++ seen').
      split; [by apply prefix_app |]. split.
      - rewrite foldl_app, <- Hfold. exact Hfold'.
      - intros Hok. by rewrite (Hall' Hok). }
    destruct r as [[]|].
    + destruct (IsDir child) eqn:Hd; [apply Hnext; discriminate |].
      exfalso. by apply Hfile.
    + exists seen. split; [by apply prefix_app_r |]. split; [exact Hfold |].
      intros H. by destruct H.
    + apply Hnext. discriminate.
Qed.

Lemma visit_Files project fs :
  Files (foldl visit' project fs) = Files project ++ eligibleIdentifiers rootDir fs.
Proof.
  revert project. induction fs as [| [[path name] content] fs IH]; intros project.
  - cbn. by rewrite app_nil_r.
  - cbn [foldl]. rewrite IH. unfold eligibleIdentifiers. cbn [filter].
    unfold filter at 2. cbn [list_filter]. fold (filter (fun f : string * string * option string => isReactFile f.1.2 = true) fs).
    unfold visit, visitFile. cbn [fst snd].
    destruct (isReactFile name) eqn:E.
    + rewrite decide_True by reflexivity. cbn [map fst]. fold (relPathOf rootDir path).
      destruct (parseFile _ _ _ _ _ _ _) as [node|]; cbn [fst];
        [destruct (Filepath.nonEmpty (Name node)) |]; cbn [Files register addFile];
        by rewrite <- app_assoc.
    + rewrite decide_False by discriminate. reflexivity.
Qed.

End WalkFold.


Lemma eligibleIdentifiers_prefix rootDir seen fs :
  seen `prefix_of` fs ->
  eligibleIdentifiers rootDir seen `prefix_of` eligibleIdentifiers rootDir fs.
Proof.
  intros [rest ->]. exists (eligibleIdentifiers rootDir rest).
  unfold eligibleIdentifiers. by rewrite filter_app, map_app.
Qed.

(** X9: the files list of a scan is the list of the identifiers of the
    eligible files that no directory with a skipped name encloses, in the
    order of the walk: all of it when the scan returns no error, a prefix of
    it otherwise. *)
Theorem ScanProject_files stat readFile rangeAliases rangeNodes rangeDirs rootDir root :
  Files (ScanProject stat readFile rangeAliases rangeNodes rangeDirs rootDir root).1
    `prefix_of` eligibleIdentifiers rootDir (visitedFiles rootDir root)
  /\ ((ScanProject stat readFile rangeAliases rangeNodes rangeDirs rootDir root).2 = false ->
      Files (ScanProject stat readFile rangeAliases rangeNodes rangeDirs rootDir root).1
      = eligibleIdentifiers rootDir (visitedFiles rootDir root)).
Proof.
  destruct (walk_fold stat rangeAliases rootDir (ReadProjectConfig stat readFile rootDir)
              root rootDir (emptyProject rootDir))
    as (seen & Hprefix & Hfold & Hall).
  apply (f_equal Files) in Hfold. rewrite visit_Files in Hfold. cbn [Files emptyProject app] in Hfold.
  unfold ScanProject, Walk.
  destruct (walk _ _ _ _ _ root _) as [project' r]; cbn [fst snd] in *.
  assert (Hpre : Files project' `prefix_of` eligibleIdentifiers rootDir (visitedFiles rootDir root)).
  { rewrite Hfold. by apply eligibleIdentifiers_prefix. }
  destruct r as [[]|]; cbn [fst snd Files]; (split; [exact Hpre |]); intros H;
    try discriminate H; rewrite Hfold, Hall; done.
Qed.

(** X10: a project root whose own name is one the walk skips ([build],
    [dist], [node_modules], a name starting with a dot) is left at once: the
    scan returns, without an error, the empty project, whatever the
    directory holds. *)
Theorem ScanProject_skipped_root stat readFile rangeAliases rangeNodes rangeDirs
    rootDir name entries :
  (forall nodes, rangeNodes nodes ≡ₚ keysOf nodes) ->
  (forall dirNodes, rangeDirs dirNodes ≡ₚ keysOf dirNodes) ->
  skipName name = true ->
  ScanProject stat readFile rangeAliases rangeNodes rangeDirs rootDir (Dir name (Some entries))
  = (emptyProject rootDir, false).
Proof.
  intros HrangeNodes HrangeDirs Hskip. unfold ScanProject, Walk.
  rewrite walk_skips by exact Hskip. cbn [NodesMap emptyProject Root Files Stats].
  assert (Hnodes : rangeNodes ∅ = []).
  { apply Permutation_nil. symmetry. rewrite HrangeNodes. unfold keysOf.
    by rewrite map_to_list_empty. }
  assert (Hrel : buildRelationships (rangeNodes ∅) (∅ : gmap string ComponentNode) = ∅).
  { by rewrite Hnodes. }
  rewrite Hrel. unfold buildTree. cbn [NodesMap]. rewrite Hnodes.
  change (groupByDir [] ∅) with (∅ : gmap string (list ComponentNode)).
  assert (Hdirs : rangeDirs ∅ = []).
  { apply Permutation_nil. symmetry. rewrite HrangeDirs. unfold keysOf.
    by rewrite map_to_list_empty. }
  rewrite Hdirs. reflexivity.
Qed.

Lemma ScanProject_skipped_root_witness :
  scan "/home/u/.config" hiddenRoot = (emptyProject "/home/u/.config", false).
Proof.
  apply (ScanProject_skipped_root noStat noFile map_to_list keysOf keysOf
           "/home/u/.config" ".config" [File "App.jsx" (Some "")]).
  - reflexivity.
  - reflexivity.
  - reflexivity.
Defined.

Lemma walk_fails stat rangeAliases rootDir aliasConfig e : forall path project f,
  f ∈ visitedFiles path e ->
  f.2 = None ->
  isReactFile f.1.2 = true ->
  (walk stat rangeAliases rootDir aliasConfig path e project).2 = Some Failed.
Proof.
  induction e as [name content | name | name entries IH] using FsEntry_nested_ind;
    intros path project f Hin Hnone Helig.
  - cbn [visitedFiles] in Hin. apply list_elem_of_singleton in Hin as ->.
    cbn [fst snd] in *. subst content. cbn [walk]. unfold visitFile. by rewrite Helig.
  - cbn [visitedFiles] in Hin. by apply elem_of_nil in Hin.
  - rewrite walk_Dir. cbn [visitedFiles] in Hin.
    destruct (skipName name); [by apply elem_of_nil in Hin |].
    revert project. induction IH as [| child rest Hchild _ IHrest]; intros project.
    { by apply elem_of_nil in Hin. }
    rewrite walkEntries_cons. cbn [flat_map] in Hin. apply elem_of_app in Hin as [Hin | Hin].
    + by rewrite (surjective_pairing (walk _ _ _ _ _ child project)),
        (Hchild _ project f Hin Hnone Helig).
    + pose proof (walk_file_no_SkipDir stat rangeAliases rootDir aliasConfig
                    (Filepath.Join [path; entryName child])) as Hfile.
      destruct child as [n c | n es].
      * specialize (Hfile n c project).
        destruct (walk _ _ _ _ _ (File n c) project) as [project' [[]|]];
          cbn [IsDir fst snd] in *; [by destruct Hfile | reflexivity | by apply IHrest].
      * destruct (walk _ _ _ _ _ (Dir n es) project) as [project' [[]|]];
          cbn [IsDir]; [by apply IHrest | reflexivity | by apply IHrest].
Qed.

(** X11: an eligible file that cannot be read and that no directory with a
    skipped name encloses makes the scan return an error, wherever the file
    lies and whatever else the tree holds. *)
Theorem unreadable_file_fails_scan stat readFile rangeAliases rangeNodes rangeDirs
    rootDir root fpath fname :
  (fpath, fname, None) ∈ visitedFiles rootDir root ->
  isReactFile fname = true ->
  (ScanProject stat readFile rangeAliases rangeNodes rangeDirs rootDir root).2 = true.
Proof.
  intros Hin Helig.
  pose proof (walk_fails stat rangeAliases rootDir (ReadProjectConfig stat readFile rootDir)
                root rootDir (emptyProject rootDir) (fpath, fname, None) Hin eq_refl Helig)
    as Hfail.
  unfold ScanProject, Walk.
  destruct (walk _ _ _ _ _ root _) as [project' r]. cbn [snd] in Hfail. by subst r.
Qed.

Lemma unreadable_file_fails_scan_witness :
  (scan "/home/u/proj" unreadableTree).2 = true.
Proof.
  apply (unreadable_file_fails_scan noStat noFile map_to_list keysOf keysOf
           "/home/u/proj" unreadableTree "/home/u/proj/src/App.jsx" "App.jsx").
  - vm_compute. right. left.
  - reflexivity.
Defined.

(** X12: a scan that returns an error has built neither reverse imports nor
    a tree: the root of the project it returns is the root the scan started
    from, without children, and no node of its registry has a reverse
    import. *)
Theorem failed_scan_is_unfinished stat readFile rangeAliases rangeNodes rangeDirs rootDir root :
  (ScanProject stat readFile rangeAliases rangeNodes rangeDirs rootDir root).2 = true ->
  Root (ScanProject stat readFile rangeAliases rangeNodes rangeDirs rootDir root).1
  = Root (emptyProject rootDir)
  /\ (forall k node,
        NodesMap (ScanProject stat readFile rangeAliases rangeNodes rangeDirs rootDir root).1 !! k
        = Some node -> ImportedBy node = []).
Proof.
  pose proof (walk_preserves stat rangeAliases rootDir (ReadProjectConfig stat readFile rootDir)
                (fun p => Root p = Root (emptyProject rootDir))) as Hroot.
  pose proof (walk_importedBy_empty stat rangeAliases rootDir
                (ReadProjectConfig stat readFile rootDir) root rootDir (emptyProject rootDir))
    as Hby.
  specialize (Hroot ltac:(intros project path name content HI; unfold visitFile;
                          destruct (isReactFile name); [| exact HI];
                          destruct (parseFile _ _ _ _ _ _ _) as [node|]; [| exact HI];
                          destruct (Filepath.nonEmpty (Name node)); exact HI)
                root rootDir (emptyProject rootDir) eq_refl).
  unfold ScanProject, Walk.
  destruct (walk _ _ _ _ _ root _) as [project' r]. cbn [fst] in Hroot, Hby.
  destruct r as [[]|]; cbn [fst snd]; intros H; try discriminate H.
  split; [exact Hroot |]. apply Hby. intros k node Hk. cbn in Hk.
  rewrite lookup_empty in Hk. discriminate Hk.
Qed.

Lemma failed_scan_is_unfinished_witness :
  Root (scan "/home/u/proj" unreadableTree).1 = Root (emptyProject "/home/u/proj")
  /\ (forall k node,
        NodesMap (scan "/home/u/proj" unreadableTree).1 !! k = Some node ->
        ImportedBy node = []).
Proof.
  apply (failed_scan_is_unfinished noStat noFile map_to_list keysOf keysOf
           "/home/u/proj" unreadableTree).
  vm_compute. reflexivity.
Defined.

(** * What the directory tree holds *)

Lemma fromElems_nonEmpty rooted elems : Filepath.fromElems rooted elems <> "".
Proof.
  unfold Filepath.fromElems. destruct rooted.
  - rewrite append_String. discriminate.
  - destruct (String.eqb_spec (Strings.Join elems "/") ""); [discriminate | assumption].
Qed.

Lemma Clean_nonEmpty path : Filepath.Clean path <> "".
Proof.
  unfold Filepath.Clean. destruct (String.eqb path ""); [discriminate |].
  apply fromElems_nonEmpty.
Qed.

Lemma Dir_nonEmpty path : Filepath.Dir path <> "".
Proof. apply Clean_nonEmpty. Qed.

(** Where the members of a group come from. *)
Lemma groupByDir_member order (nodes : gmap string ComponentNode) d node :
  node ∈ default [] (groupByDir order nodes !! d)
  <-> exists id, id ∈ order /\ nodes !! id = Some node /\ Filepath.Dir (Path node) = d.
Proof.
  unfold groupByDir.
  induction order as [| id order IH] using rev_ind.
  - cbn. rewrite lookup_empty. cbn. split.
    + intros H. by apply elem_of_nil in H.
    + intros (id & H & _). by apply elem_of_nil in H.
  - rewrite foldl_app. cbn [foldl].
    set (dirNodes := foldl _ ∅ order) in *.
    assert (Hold : (exists id0, id0 ∈ order ++ [id] /\ nodes !! id0 = Some node
                               /\ Filepath.Dir (Path node) = d)
                   <-> (node ∈ default [] (dirNodes !! d)
                        \/ (nodes !! id = Some node /\ Filepath.Dir (Path node) = d))).
    { rewrite IH. split.
      - intros (id0 & Hin & Hid & Hd). apply elem_of_app in Hin as [Hin | Hin].
        + left. eauto.
        + apply list_elem_of_singleton in Hin as ->. by right.
      - intros [(id0 & Hin & Hid & Hd) | [Hid Hd]].
        + exists id0. split; [apply elem_of_app; by left | by split].
        + exists id. split; [apply elem_of_app; right; by left | by split]. }
    rewrite Hold. clear Hold IH.
    destruct (nodes !! id) as [node0|] eqn:E.
    + destruct (decide (Filepath.Dir (Path node0) = d)) as [Hd | Hd].
      * rewrite Hd, lookup_insert_eq. cbn. rewrite elem_of_app, list_elem_of_singleton.
        split.
        -- intros [H | ->]; [by left | right; by split].
        -- intros [H | [[= <-] _]]; [by left | by right].
      * rewrite lookup_insert_ne by exact Hd. split; [by left |].
        intros [H | [[= <-] H]]; [exact H | contradiction].
    + split; [by left |]. intros [H | [H _]]; [exact H | discriminate H].
Qed.

Lemma groupByDir_no_root order (nodes : gmap string ComponentNode) :
  groupByDir order nodes !! "" = None.
Proof.
  unfold groupByDir. induction order as [| id order IH] using rev_ind; [apply lookup_empty |].
  rewrite foldl_app. cbn [foldl]. destruct (nodes !! id) as [node|]; [| exact IH].
  rewrite lookup_insert_ne; [exact IH |]. apply Dir_nonEmpty.
Qed.

Lemma foldl_attach_fields (sub : string -> ComponentNode) dir keys parent :
  ID (foldl (fun parent nodeDir =>
               if attachedUnder dir nodeDir
               then addChildren parent [sub nodeDir] else parent) parent keys) = ID parent
  /\ Type_ (foldl (fun parent nodeDir =>
               if attachedUnder dir nodeDir
               then addChildren parent [sub nodeDir] else parent) parent keys) = Type_ parent.
Proof.
  revert parent. induction keys as [| k keys IH]; intros parent; cbn [foldl]; [done |].
  destruct (IH (if attachedUnder dir k then addChildren parent [sub k] else parent))
    as [-> ->].
  by destruct (attachedUnder dir k).
Qed.

Lemma buildTreeRecursive_fields fuel parent dir dirNodes keys :
  ID (buildTreeRecursive fuel parent dir dirNodes keys) = ID parent
  /\ Type_ (buildTreeRecursive fuel parent dir dirNodes keys) = Type_ parent.
Proof.
  destruct fuel as [| fuel]; [done |]. cbn [buildTreeRecursive].
  destruct (foldl_attach_fields
              (fun nodeDir => buildTreeRecursive fuel (directoryNode nodeDir) nodeDir dirNodes keys)
              dir keys (addChildren parent (default [] (dirNodes !! dir)))) as [-> ->].
  done.
Qed.

Lemma buildTreeRecursive_filesInPlace (dirNodes : gmap string (list ComponentNode)) keys :
  (forall d group child, dirNodes !! d = Some group -> child ∈ group ->
     String.eqb (Type_ child) "directory" = false /\ Filepath.Dir (Path child) = d) ->
  forall fuel dir,
    filesInPlace (buildTreeRecursive fuel (directoryNode dir) dir dirNodes keys) = true.
Proof.
  intros Hgroups fuel. induction fuel as [| fuel IH]; intros dir; [reflexivity |].
  pose proof (buildTreeRecursive_children fuel (directoryNode dir) dir dirNodes keys) as Hch.
  pose proof (buildTreeRecursive_fields (S fuel) (directoryNode dir) dir dirNodes keys) as [HID _].
  destruct (buildTreeRecursive (S fuel) (directoryNode dir) dir dirNodes keys)
    as [id name path type multi imports importedBy children].
  cbn [ID Children directoryNode] in *. subst id children.
  cbn [filesInPlace Children ID app]. rewrite forallb_app. apply andb_true_iff. split.
  - apply forallb_forall. intros child Hin. apply list_elem_of_In in Hin.
    destruct (dirNodes !! dir) as [group|] eqn:E; [| by apply elem_of_nil in Hin].
    destruct (Hgroups dir group child E Hin) as [-> ->]. apply String.eqb_refl.
  - apply forallb_forall. intros child Hin. apply in_map_iff in Hin as (k & <- & _).
    destruct (buildTreeRecursive_fields fuel (directoryNode k) k dirNodes keys) as [_ ->].
    cbn [Type_ directoryNode]. apply IH.
Qed.

Lemma walk_Root stat rangeAliases rootDir aliasConfig e path project :
  Root (walk stat rangeAliases rootDir aliasConfig path e project).1 = Root project.
Proof.
  apply (walk_preserves stat rangeAliases rootDir aliasConfig
           (fun p => Root p = Root project)); [| reflexivity].
  clear. intros project' path name content HI. unfold visitFile.
  destruct (isReactFile name); [| exact HI].
  destruct (parseFile _ _ _ _ _ _ _) as [node|]; [| exact HI].
  destruct (Filepath.nonEmpty (Name node)); exact HI.
Qed.

Lemma fileRole_not_directory role : fileRole role -> String.eqb role "directory" = false.
Proof. by intros [-> | [-> | ->]]. Qed.

Lemma buildTree_placement rangeNodes rangeDirs project child :
  Children (Root project) = [] ->
  registryWellFormed (NodesMap project) ->
  child ∈ Children (buildTree rangeNodes rangeDirs project) ->
  Type_ child = "directory" /\ filesInPlace child = true.
Proof.
  intros Hroot Hreg. unfold buildTree.
  set (dirNodes := groupByDir (rangeNodes (NodesMap project)) (NodesMap project)).
  set (keys := rangeDirs dirNodes).
  rewrite buildTreeRecursive_children, Hroot. unfold dirNodes at 1.
  rewrite groupByDir_no_root. cbn [default app].
  intros Hin. apply list_elem_of_fmap in Hin as (k & -> & _). split.
  - by destruct (buildTreeRecursive_fields (maxLength keys) (directoryNode k) k dirNodes keys)
      as [_ ->].
  - apply buildTreeRecursive_filesInPlace. intros d group node Hd Hnode.
    assert (Hmem : node ∈ default [] (dirNodes !! d)) by (by rewrite Hd).
    apply groupByDir_member in Hmem as (id & _ & Hid & Hdir).
    split; [| exact Hdir]. apply fileRole_not_directory. by apply (Hreg id node).
Qed.

(** X13: in the tree a scan returns, the root holds directory nodes only,
    and every file node below one of them lies in the directory whose node
    holds it: its path has that node's identifier as directory. *)
Theorem ScanProject_tree_placement stat readFile rangeAliases rangeNodes rangeDirs
    rootDir root child :
  child ∈ Children
            (Root (ScanProject stat readFile rangeAliases rangeNodes rangeDirs rootDir root).1) ->
  Type_ child = "directory" /\ filesInPlace child = true.
Proof.
  pose proof (walk_Root stat rangeAliases rootDir (ReadProjectConfig stat readFile rootDir)
                root rootDir (emptyProject rootDir)) as Hroot.
  pose proof (walk_registry stat rangeAliases rootDir (ReadProjectConfig stat readFile rootDir)
                root rootDir (emptyProject rootDir)) as Hreg.
  unfold ScanProject, Walk.
  destruct (walk _ _ _ _ _ root _) as [project r]. cbn [fst] in Hroot, Hreg.
  assert (Hwf : registryWellFormed (NodesMap project)).
  { apply Hreg. intros k node Hk. cbn in Hk. rewrite lookup_empty in Hk. discriminate Hk. }
  assert (Hfailed : child ∈ Children (Root project) ->
            Type_ child = "directory" /\ filesInPlace child = true).
  { rewrite Hroot. cbn. intros H. by apply elem_of_nil in H. }
  destruct r as [[]|]; cbn [fst Root]; [| exact Hfailed |];
    (apply buildTree_placement; cbn [Root NodesMap];
     [by rewrite Hroot | by apply buildRelationships_registry]).
Qed.

Lemma ScanProject_tree_placement_witness :
  exists child,
    child ∈ Children (Root (scan "/home/u/proj" sampleTree).1)
    /\ Type_ child = "directory" /\ filesInPlace child = true.
Proof.
  destruct (head (Children (Root (scan "/home/u/proj" sampleTree).1))) as [child|] eqn:E;
    [| vm_compute in E; discriminate E].
  apply head_Some_elem_of in E.
  exists child. split; [exact E |].
  exact (ScanProject_tree_placement noStat noFile map_to_list keysOf keysOf
           "/home/u/proj" sampleTree child E).
Defined.

Lemma groupByDir_key order (nodes : gmap string ComponentNode) d :
  is_Some (groupByDir order nodes !! d) ->
  exists id node, nodes !! id = Some node /\ Filepath.Dir (Path node) = d.
Proof.
  unfold groupByDir. induction order as [| id order IH] using rev_ind.
  - cbn. rewrite lookup_empty. by intros [? ?].
  - rewrite foldl_app. cbn [foldl]. destruct (nodes !! id) as [node|] eqn:E; [| exact IH].
    rewrite lookup_insert_is_Some. intros [<- | [_ H]]; [by exists id, node | by apply IH].
Qed.

(** X14: the grouping loop of [buildTree] puts a node into the group of
    the directory of its path and into no other: when the registry is
    enumerated, the group under a key holds the registry's nodes whose path
    has that key as directory, and there is no group under the empty key,
    the one the root call of [buildTreeRecursive] looks up. *)
Theorem groupByDir_groups order (nodes : gmap string ComponentNode) d node :
  order ≡ₚ keysOf nodes ->
  (node ∈ default [] (groupByDir order nodes !! d)
   <-> exists id, nodes !! id = Some node /\ Filepath.Dir (Path node) = d)
  /\ groupByDir order nodes !! "" = None.
Proof.
  intros Hperm. split; [| apply groupByDir_no_root].
  rewrite groupByDir_member. split.
  - intros (id & _ & Hid & Hd). by exists id.
  - intros (id & Hid & Hd). exists id. split; [| by split].
    rewrite Hperm. unfold keysOf. apply list_elem_of_fmap. exists (id, node).
    split; [reflexivity | by apply elem_of_map_to_list].
Qed.

Lemma groupByDir_groups_witness :
  (fileNode "src/a.js" [] ∈ default [] (groupByDir (keysOf siblingRegistry) siblingRegistry !! "src")
   <-> exists id, siblingRegistry !! id = Some (fileNode "src/a.js" [])
                  /\ Filepath.Dir (Path (fileNode "src/a.js" [])) = "src")
  /\ groupByDir (keysOf siblingRegistry) siblingRegistry !! "" = None.
Proof.
  apply (groupByDir_groups (keysOf siblingRegistry) siblingRegistry "src" (fileNode "src/a.js" [])).
  reflexivity.
Defined.

(** X15: the recursion of [buildTreeRecursive] ends: every call it makes is
    for a key strictly longer than the directory it fills, so the depth is
    bounded by the length of the longest key, and the tree [buildTree]
    returns is the one any larger bound gives. *)
Theorem buildTree_recursion_bounded rangeNodes rangeDirs project fuel :
  maxLength (rangeDirs (groupByDir (rangeNodes (NodesMap project)) (NodesMap project))) < fuel ->
  (forall dir nodeDir, attachedUnder dir nodeDir = true ->
     String.length dir < String.length nodeDir)
  /\ buildTreeRecursive fuel (Root project) ""
       (groupByDir (rangeNodes (NodesMap project)) (NodesMap project))
       (rangeDirs (groupByDir (rangeNodes (NodesMap project)) (NodesMap project)))
     = buildTree rangeNodes rangeDirs project.
Proof.
  intros Hfuel. split; [apply attachedUnder_longer |].
  unfold buildTree. apply buildTreeRecursive_fuel; cbn [String.length]; lia.
Qed.

Lemma buildTree_recursion_bounded_witness :
  (forall dir nodeDir, attachedUnder dir nodeDir = true ->
     String.length dir < String.length nodeDir)
  /\ buildTreeRecursive 100 (Root (emptyProject "/p")) ""
       (groupByDir (keysOf siblingRegistry) siblingRegistry)
       (keysOf (groupByDir (keysOf siblingRegistry) siblingRegistry))
     = treeOf siblingRegistry.
Proof.
  apply (buildTree_recursion_bounded keysOf keysOf
           {| Root := Root (emptyProject "/p"); NodesMap := siblingRegistry;
              Files := []; Stats := Stats (emptyProject "/p") |} 100).
  vm_compute. lia.
Defined.

Lemma attachedUnder_root nodeDir :
  Contains (TrimPrefix nodeDir "/") "/" = true -> attachedUnder "" nodeDir = false.
Proof.
  intros H. unfold attachedUnder.
  change (TrimPrefix nodeDir "") with nodeDir. rewrite H.
  by rewrite andb_false_r, andb_false_r.
Qed.

Lemma addChildren_nil parent : addChildren parent [] = parent.
Proof. destruct parent. unfold addChildren. cbn. by rewrite app_nil_r. Qed.

Lemma foldl_attach_none (sub : string -> ComponentNode) dir keys parent :
  Forall (fun k => attachedUnder dir k = false) keys ->
  foldl (fun parent nodeDir =>
           if attachedUnder dir nodeDir
           then addChildren parent [sub nodeDir] else parent) parent keys
  = parent.
Proof.
  intros Hkeys. induction Hkeys as [| k keys Hk _ IH]; [reflexivity |].
  cbn [foldl]. rewrite Hk. exact IH.
Qed.

(** X16: when every file of the registry lies two or more directories
    below the project root (the directory of its path has a separator after
    its first byte), no key of the grouping passes the test of the root
    call, and [buildTree] returns the root as it was: the tree holds none of
    the registry's nodes. *)
Theorem buildTree_loses_nested_files rangeNodes rangeDirs project :
  (forall dirNodes, rangeDirs dirNodes ≡ₚ keysOf dirNodes) ->
  (forall k node, NodesMap project !! k = Some node ->
     Contains (TrimPrefix (Filepath.Dir (Path node)) "/") "/" = true) ->
  buildTree rangeNodes rangeDirs project = Root project.
Proof.
  intros Hrange Hdeep. unfold buildTree.
  set (dirNodes := groupByDir (rangeNodes (NodesMap project)) (NodesMap project)).
  assert (Hkeys : Forall (fun k => attachedUnder "" k = false) (rangeDirs dirNodes)).
  { apply Forall_forall. intros k Hk. rewrite Hrange in Hk. unfold keysOf in Hk.
    apply list_elem_of_fmap in Hk as ([k' group] & -> & Hk). cbn [fst].
    apply elem_of_map_to_list in Hk.
    destruct (groupByDir_key _ _ k' (ex_intro _ group Hk)) as (id & node & Hid & <-).
    apply attachedUnder_root. by apply (Hdeep id). }
  assert (Hnone : dirNodes !! "" = None) by apply groupByDir_no_root.
  cbn [buildTreeRecursive]. rewrite Hnone. cbn [default]. rewrite addChildren_nil.
  exact (foldl_attach_none
           (fun nodeDir =>
              buildTreeRecursive (maxLength (rangeDirs dirNodes)) (directoryNode nodeDir)
                nodeDir dirNodes (rangeDirs dirNodes))
           "" (rangeDirs dirNodes) (Root project) Hkeys).
Qed.

Lemma buildTree_loses_nested_files_witness :
  treeOf nestedRegistry = Root (emptyProject "/p").
Proof.
  apply (buildTree_loses_nested_files keysOf keysOf
           {| Root := Root (emptyProject "/p"); NodesMap := nestedRegistry;
              Files := []; Stats := Stats (emptyProject "/p") |}).
  - reflexivity.
  - intros k node Hk. cbn [NodesMap] in Hk. unfold nestedRegistry in Hk.
    apply lookup_insert_Some in Hk as [[_ <-] | [_ Hk]]; [vm_compute; reflexivity |].
    rewrite lookup_empty in Hk. discriminate Hk.
Defined.

(** * The configuration reader *)

Lemma HasPrefix_app p s : HasPrefix (p +:+ s) p = true.
Proof.
  induction p as [| c p IH]; [reflexivity |]. rewrite append_String. cbn [HasPrefix].
  by rewrite Ascii.eqb_refl, IH.
Qed.

Lemma sdrop_app p s : sdrop (String.length p) (p +:+ s) = s.
Proof. induction p as [| c p IH]; [reflexivity |]. rewrite append_String. exact IH. Qed.

Lemma stake_app s t : stake (String.length s) (s +:+ t) = s.
Proof.
  induction s as [| c s IH]; [by destruct t |]. rewrite append_String. cbn. by rewrite IH.
Qed.

Lemma TrimPrefix_app p s : TrimPrefix (p +:+ s) p = s.
Proof. unfold TrimPrefix. by rewrite HasPrefix_app, sdrop_app. Qed.

Lemma HasSuffix_app s suffix : HasSuffix (s +:+ suffix) suffix = true.
Proof.
  unfold HasSuffix. rewrite length_append.
  replace (String.length s + String.length suffix - String.length suffix)
    with (String.length s) by lia.
  rewrite sdrop_app, String.eqb_refl, andb_true_r. apply Nat.leb_le. lia.
Qed.

Lemma TrimSuffix_app s suffix : TrimSuffix (s +:+ suffix) suffix = s.
Proof.
  unfold TrimSuffix. rewrite HasSuffix_app, length_append.
  replace (String.length s + String.length suffix - String.length suffix)
    with (String.length s) by lia.
  apply stake_app.
Qed.

Lemma TrimSuffix_none s suffix : HasSuffix s suffix = false -> TrimSuffix s suffix = s.
Proof. unfold TrimSuffix. by intros ->. Qed.

Lemma ReplaceFirst_app old s new : ReplaceFirst (old +:+ s) old new = new +:+ s.
Proof.
  destruct (old +:+ s) as [| c r] eqn:E; cbn [ReplaceFirst]; rewrite <- E;
    by rewrite HasPrefix_app, sdrop_app.
Qed.

(** X17: [parseJSONConfig] turns a [paths] entry of a [jsconfig.json] or
    [tsconfig.json] into an alias by cutting the trailing [/*] off the
    pattern and off the first target: the later targets play no part, a
    pattern or target without the suffix is taken as it is, and an entry
    without targets adds nothing. *)
Theorem addPath_strips_stars config alias target others :
  addPath config (alias +:+ "/*", (target +:+ "/*") :: others) = setAlias config alias target
  /\ (HasSuffix alias "/*" = false -> HasSuffix target "/*" = false ->
      addPath config (alias, target :: others) = setAlias config alias target)
  /\ addPath config (alias, []) = config.
Proof.
  split; [| split]; [| | reflexivity].
  - cbn [addPath]. by rewrite !TrimSuffix_app.
  - intros Ha Ht. cbn [addPath]. by rewrite !TrimSuffix_none.
Qed.

Lemma foldl_addPath_BaseURL paths config :
  BaseURL (foldl addPath config paths) = BaseURL config.
Proof.
  revert config. induction paths as [| [pattern targets] paths IH]; intros config;
    [reflexivity |].
  cbn [foldl]. rewrite IH. by destruct targets.
Qed.

Lemma addMapper_BaseURL config entry : BaseURL (addMapper config entry) = BaseURL config.
Proof.
  destruct entry as [pattern target]. unfold addMapper.
  by destruct (Filepath.nonEmpty _ && Filepath.nonEmpty _).
Qed.

Lemma applyPackageJSON_BaseURL config p :
  BaseURL (applyPackageJSON config p) = BaseURL config.
Proof.
  unfold applyPackageJSON.
  assert (Hmappers : forall ms c, BaseURL (foldl addMapper c ms) = BaseURL c).
  { induction ms as [| m ms IH]; intros c; [reflexivity |].
    cbn [foldl]. by rewrite IH, addMapper_BaseURL. }
  rewrite Hmappers. generalize (Alias p) as aliases. intros aliases. revert config.
  induction aliases as [| [alias target] aliases IH]; intros config; [reflexivity |].
  cbn [foldl]. by rewrite IH.
Qed.

(** X18: [parseJSONConfig] turns a Jest [moduleNameMapper] entry whose
    pattern is a caret, the alias, a slash and the catch-all group with the
    closing dollar, and whose target is the root placeholder, the target, a
    slash and the first group reference, into the alias for the target.  An
    entry whose pattern or target is nothing but these decorations adds
    nothing. *)
Theorem addMapper_strips_decorations config alias target :
  alias <> "" -> target <> "" -> HasSuffix alias "(.*)$" = false ->
  addMapper config ("^" +:+ alias +:+ "/(.*)$", "<rootDir>/" +:+ target +:+ "/$1")
  = setAlias config alias target
  /\ addMapper config ("^/(.*)$", "<rootDir>/" +:+ target +:+ "/$1") = config
  /\ addMapper config ("^" +:+ alias +:+ "/(.*)$", "<rootDir>//$1") = config.
Proof.
  intros Halias Htarget Hsuffix.
  assert (Ha : Filepath.nonEmpty alias = true).
  { unfold Filepath.nonEmpty. by destruct (String.eqb_spec alias ""). }
  assert (Ht : Filepath.nonEmpty target = true).
  { unfold Filepath.nonEmpty. by destruct (String.eqb_spec target ""). }
  assert (Hpattern : TrimSuffix (TrimSuffix (TrimPrefix ("^" +:+ alias +:+ "/(.*)$") "^")
                                   "/(.*)$") "(.*)$" = alias).
  { by rewrite (TrimPrefix_app "^"), TrimSuffix_app, (TrimSuffix_none alias "(.*)$" Hsuffix). }
  assert (Htarget' : TrimSuffix (ReplaceFirst ("<rootDir>/" +:+ target +:+ "/$1")
                                   "<rootDir>/" "") "/$1" = target).
  { by rewrite (ReplaceFirst_app "<rootDir>/"), append_empty, TrimSuffix_app. }
  split; [| split]; unfold addMapper.
  - by rewrite Hpattern, Htarget', Ha, Ht.
  - reflexivity.
  - rewrite Hpattern, Ha. reflexivity.
Qed.

Lemma addMapper_strips_decorations_witness :
  addMapper noAliases ("^@components/(.*)$", "<rootDir>/src/components/$1")
  = setAlias noAliases "@components" "src/components"
  /\ addMapper noAliases ("^/(.*)$", "<rootDir>/src/components/$1") = noAliases
  /\ addMapper noAliases ("^@components/(.*)$", "<rootDir>//$1") = noAliases.
Proof.
  apply (addMapper_strips_decorations noAliases "@components" "src/components");
    [discriminate | discriminate | reflexivity].
Defined.

Section ReadProjectConfigFacts.

Variable stat : string -> bool.
Variable readFile : string -> option FileData.
Variable rootDir : string.

(** A JSON candidate that is missing or cannot be read. *)
#[local] Abbreviation unreadable configFile :=
  (stat (Filepath.Join [rootDir; configFile]) = false
   \/ readFile (Filepath.Join [rootDir; configFile]) = None).

Lemma readConfigs_skips_json configFile rest config :
  Filepath.Ext configFile = ".json" ->
  unreadable configFile ->
  readConfigs stat readFile rootDir (configFile :: rest) config
  = readConfigs stat readFile rootDir rest config.
Proof.
  intros Hext [H | H];
    [by apply readConfigs_missing | by apply readConfigs_unreadable_json].
Qed.

Lemma readConfigs_js configFile rest config :
  Filepath.Ext configFile = ".js" ->
  readConfigs stat readFile rootDir (configFile :: rest) config
  = readConfigs stat readFile rootDir rest
      (if stat (Filepath.Join [rootDir; configFile])
       then parseJSConfig readFile (Filepath.Join [rootDir; configFile]) config
       else config).
Proof. intros Hext. cbn [readConfigs]. rewrite Hext. by destruct (stat _). Qed.

Lemma readConfigs_babelrc rest config :
  readConfigs stat readFile rootDir (".babelrc" :: rest) config
  = readConfigs stat readFile rootDir rest config.
Proof. cbn [readConfigs]. by destruct (stat _). Qed.

(** The search up to the last candidate, when neither [jsconfig.json] nor
    [tsconfig.json] ended it. *)
Lemma ReadProjectConfig_to_package_json :
  unreadable "jsconfig.json" -> unreadable "tsconfig.json" ->
  ReadProjectConfig stat readFile rootDir
  = readConfigs stat readFile rootDir ["package.json"] (jsConfigs stat readFile rootDir).
Proof.
  intros Hjs Hts. unfold ReadProjectConfig, configFiles.
  rewrite (readConfigs_skips_json "jsconfig.json") by (reflexivity || exact Hjs).
  rewrite (readConfigs_skips_json "tsconfig.json") by (reflexivity || exact Hts).
  rewrite (readConfigs_js "webpack.config.js"), (readConfigs_js "craco.config.js")
    by reflexivity.
  rewrite readConfigs_babelrc. rewrite (readConfigs_js "babel.config.js") by reflexivity.
  reflexivity.
Qed.

End ReadProjectConfigFacts.

(** X19: when none of the three JSON candidates can be read, the JS config
    files decide the aliases, but a base URL found in them is kept only when
    the project has no [src] directory: with one, the base URL is [src]. *)
Theorem ReadProjectConfig_without_json stat readFile rootDir :
  (forall configFile, configFile ∈ ["jsconfig.json"; "tsconfig.json"; "package.json"] ->
     stat (Filepath.Join [rootDir; configFile]) = false
     \/ readFile (Filepath.Join [rootDir; configFile]) = None) ->
  ReadProjectConfig stat readFile rootDir
  = if stat (Filepath.Join [rootDir; "src"])
    then setBaseURL (jsConfigs stat readFile rootDir) "src"
    else jsConfigs stat readFile rootDir.
Proof.
  intros Hjson.
  rewrite ReadProjectConfig_to_package_json
    by (apply Hjson; repeat first [by left | right]).
  rewrite (readConfigs_skips_json stat readFile rootDir "package.json");
    [reflexivity | reflexivity |].
  apply Hjson. repeat first [by left | right].
Qed.

Lemma ReadProjectConfig_without_json_witness :
  ReadProjectConfig webpackStat webpackRead "/p"
  = if webpackStat (Filepath.Join ["/p"; "src"])
    then setBaseURL (jsConfigs webpackStat webpackRead "/p") "src"
    else jsConfigs webpackStat webpackRead "/p".
Proof.
  apply (ReadProjectConfig_without_json webpackStat webpackRead "/p").
  intros configFile H. left.
  repeat (apply elem_of_cons in H as [-> | H]; [reflexivity |]).
  by apply elem_of_nil in H.
Defined.

(** ** The path of a candidate ends with the candidate's name *)

Lemma append_assoc_string (a b c : string) : (a +:+ b) +:+ c = a +:+ (b +:+ c).
Proof.
  induction a as [| x a IH]; [reflexivity |]. rewrite !append_String. by rewrite IH.
Qed.

Lemma Strings_Join_snoc elems name :
  exists pre, Strings.Join (elems ++ [name]) "/" = pre +:+ name.
Proof.
  induction elems as [| e elems [pre IH]]; [by exists "" |].
  destruct elems as [| e' elems].
  - exists (e +:+ "/"). cbn [app]. rewrite Join_cons. cbn [Strings.Join].
    rewrite append_assoc_string. reflexivity.
  - exists (e +:+ String "/" pre). cbn [app] in *. rewrite Join_cons, IH.
    rewrite append_assoc_string, append_String. reflexivity.
Qed.

Lemma fromElems_snoc rooted elems name :
  plain name = true ->
  exists pre, Filepath.fromElems rooted (elems ++ [name]) = pre +:+ name.
Proof.
  intros Hname. destruct (Strings_Join_snoc elems name) as [pre Hpre].
  unfold Filepath.fromElems. rewrite Hpre. destruct rooted.
  - exists ("/" +:+ pre). by rewrite append_assoc_string.
  - exists pre.
    assert (Hne : String.eqb name "" = false) by (by apply plain_spec in Hname as (_ & ? & _)).
    destruct pre as [| c pre]; [by rewrite append_empty, Hne | reflexivity].
Qed.

Lemma Clean_child path name :
  plain name = true ->
  exists pre, Filepath.Clean (path +:+ String "/" name) = pre +:+ name.
Proof.
  intros Hname. unfold Filepath.Clean, Filepath.Separator.
  assert (Hne : String.eqb (path +:+ String "/" name) "" = false) by (by destruct path).
  rewrite Hne, Split_app.
  rewrite (Split_noSep name) by (by apply plain_spec in Hname as (_ & _ & _ & _ & ?)).
  rewrite cleanElems_snoc by exact Hname.
  by apply fromElems_snoc.
Qed.

Lemma Join_child rootDir name :
  plain name = true ->
  exists pre, Filepath.Join [rootDir; name] = pre +:+ name.
Proof.
  intros Hname. cbn [Filepath.Join].
  assert (Hne : String.eqb name "" = false) by (by apply plain_spec in Hname as (_ & ? & _)).
  destruct (String.eqb rootDir "") eqn:Hroot.
  - rewrite Hne. cbn [Strings.Join]. unfold Filepath.Clean, Filepath.Separator. rewrite Hne.
    rewrite (Split_noSep name) by (by apply plain_spec in Hname as (_ & _ & _ & _ & ?)).
    rewrite (cleanElems_snoc _ name Hname [] []). cbn [Filepath.cleanElems rev app].
    by apply (fromElems_snoc _ []).
  - rewrite Join_cons. cbn [Strings.Join]. by apply Clean_child.
Qed.

Lemma stake_sdrop n s : stake n s +:+ sdrop n s = s.
Proof.
  revert s. induction n as [| n IH]; intros s; [reflexivity |].
  destruct s as [| c s]; [reflexivity |]. cbn [stake sdrop]. by rewrite append_String, IH.
Qed.

Lemma HasSuffix_inv s suffix : HasSuffix s suffix = true -> exists pre, s = pre +:+ suffix.
Proof.
  unfold HasSuffix. intros H. apply andb_true_iff in H as [_ H].
  apply String.eqb_eq in H.
  exists (stake (String.length s - String.length suffix) s).
  pose proof (stake_sdrop (String.length s - String.length suffix) s) as Hs.
  rewrite H in Hs. by symmetry.
Qed.

Lemma append_tail_inv pre s : forall u t,
  pre +:+ s = u +:+ t -> String.length s <= String.length t -> exists v, t = v +:+ s.
Proof.
  induction pre as [| c pre IH]; intros u t Heq Hlen.
  - rewrite append_empty in Heq. subst s. rewrite length_append in Hlen.
    destruct u as [| c u]; [by exists "" | cbn in Hlen; lia].
  - destruct u as [| c' u].
    + rewrite append_empty in Heq. subst t. by exists (String c pre).
    + rewrite !append_String in Heq. injection Heq as _ Heq. by apply (IH u t).
Qed.

(** A path that ends with one candidate's name does not end with the name
    of another. *)
Lemma HasSuffix_other pre name other :
  String.length other = S (String.length name) ->
  (forall c, other <> String c name) ->
  HasSuffix (pre +:+ name) other = false.
Proof.
  intros Hlen Hother. destruct (HasSuffix (pre +:+ name) other) eqn:E; [| reflexivity].
  apply HasSuffix_inv in E as [u Hu].
  apply append_tail_inv in Hu as [v Hv]; [| lia].
  exfalso. rewrite Hv, length_append in Hlen.
  destruct v as [| c [| c' v]]; cbn in Hlen; try lia.
  by apply (Hother c).
Qed.

Lemma parseJSONConfig_package readFile rootDir config data :
  readFile (Filepath.Join [rootDir; "package.json"]) = Some data ->
  parseJSONConfig readFile (Filepath.Join [rootDir; "package.json"]) config
  = Some match asPackageJSON data with
         | Some p => applyPackageJSON config p
         | None => config
         end.
Proof.
  intros Hread. unfold parseJSONConfig. rewrite Hread.
  destruct (Join_child rootDir "package.json" eq_refl) as [pre ->].
  rewrite HasSuffix_app.
  rewrite (HasSuffix_other pre "package.json" "jsconfig.json"),
    (HasSuffix_other pre "package.json" "tsconfig.json");
    [| reflexivity | intros c; discriminate | reflexivity | intros c; discriminate].
  cbn [orb]. by destruct (asJSConfig data).
Qed.

Lemma parseJSONConfig_jsconfig readFile rootDir configFile config data j :
  configFile = "jsconfig.json" \/ configFile = "tsconfig.json" ->
  readFile (Filepath.Join [rootDir; configFile]) = Some data ->
  asJSConfig data = Some j ->
  parseJSONConfig readFile (Filepath.Join [rootDir; configFile]) config
  = Some (applyJSConfig config j).
Proof.
  intros Hname Hread Hjson. unfold parseJSONConfig. rewrite Hread, Hjson.
  destruct Hname as [-> | ->].
  - destruct (Join_child rootDir "jsconfig.json" eq_refl) as [pre ->].
    by rewrite HasSuffix_app.
  - destruct (Join_child rootDir "tsconfig.json" eq_refl) as [pre ->].
    by rewrite HasSuffix_app, orb_true_r.
Qed.

(** X20: a [package.json] that can be read ends the search like any JSON
    candidate, whether or not it holds aliases: when neither
    [jsconfig.json] nor [tsconfig.json] can be read, the configuration is
    the one the JS config files left, with the aliases of the
    [package.json] added, and the [src] default after the loop is never
    applied; the base URL is the one the JS config files left. *)
Theorem package_json_skips_src_default stat readFile rootDir data :
  (stat (Filepath.Join [rootDir; "jsconfig.json"]) = false
   \/ readFile (Filepath.Join [rootDir; "jsconfig.json"]) = None) ->
  (stat (Filepath.Join [rootDir; "tsconfig.json"]) = false
   \/ readFile (Filepath.Join [rootDir; "tsconfig.json"]) = None) ->
  stat (Filepath.Join [rootDir; "package.json"]) = true ->
  readFile (Filepath.Join [rootDir; "package.json"]) = Some data ->
  ReadProjectConfig stat readFile rootDir
  = match asPackageJSON data with
    | Some p => applyPackageJSON (jsConfigs stat readFile rootDir) p
    | None => jsConfigs stat readFile rootDir
    end
  /\ BaseURL (ReadProjectConfig stat readFile rootDir)
     = BaseURL (jsConfigs stat readFile rootDir).
Proof.
  intros Hjs Hts Hstat Hread.
  assert (Heq : ReadProjectConfig stat readFile rootDir
                = match asPackageJSON data with
                  | Some p => applyPackageJSON (jsConfigs stat readFile rootDir) p
                  | None => jsConfigs stat readFile rootDir
                  end).
  { rewrite ReadProjectConfig_to_package_json by assumption.
    cbn [readConfigs]. rewrite Hstat.
    change (String.eqb (Filepath.Ext "package.json") ".json") with true. cbn match.
    by rewrite (parseJSONConfig_package _ _ _ data Hread). }
  split; [exact Heq |]. rewrite Heq.
  destruct (asPackageJSON data); [apply applyPackageJSON_BaseURL | reflexivity].
Qed.

Lemma package_json_skips_src_default_witness :
  ReadProjectConfig packageStat packageRead "/p"
  = match asPackageJSON packageData with
    | Some p => applyPackageJSON (jsConfigs packageStat packageRead "/p") p
    | None => jsConfigs packageStat packageRead "/p"
    end
  /\ BaseURL (ReadProjectConfig packageStat packageRead "/p")
     = BaseURL (jsConfigs packageStat packageRead "/p").
Proof.
  apply (package_json_skips_src_default packageStat packageRead "/p" packageData);
    [by left | by left | reflexivity | reflexivity].
Defined.

(** X21: a [jsconfig.json] that can be read and decoded decides alone, and
    so does a [tsconfig.json] when the [jsconfig.json] is missing or cannot
    be read: the configuration is the one its compiler options give,
    starting from the empty one.  The base URL is the file's [baseUrl], the
    empty string when it has none, and no later candidate and no [src]
    directory changes it. *)
Theorem tsconfig_decides_alone stat readFile rootDir data j :
  (stat (Filepath.Join [rootDir; "jsconfig.json"]) = true
   /\ readFile (Filepath.Join [rootDir; "jsconfig.json"]) = Some data)
  \/ ((stat (Filepath.Join [rootDir; "jsconfig.json"]) = false
       \/ readFile (Filepath.Join [rootDir; "jsconfig.json"]) = None)
      /\ stat (Filepath.Join [rootDir; "tsconfig.json"]) = true
      /\ readFile (Filepath.Join [rootDir; "tsconfig.json"]) = Some data) ->
  asJSConfig data = Some j ->
  ReadProjectConfig stat readFile rootDir
  = applyJSConfig {| BaseURL := ""; Aliases := ∅ |} j
  /\ BaseURL (ReadProjectConfig stat readFile rootDir) = CompilerOptions_BaseURL j.
Proof.
  intros Hfile Hjson.
  assert (Heq : ReadProjectConfig stat readFile rootDir
                = applyJSConfig {| BaseURL := ""; Aliases := ∅ |} j).
  { unfold ReadProjectConfig, configFiles.
    destruct Hfile as [[Hstat Hread] | (Hjs & Hstat & Hread)].
    - cbn [readConfigs]. rewrite Hstat.
      change (String.eqb (Filepath.Ext "jsconfig.json") ".json") with true. cbn match.
      by rewrite (parseJSONConfig_jsconfig _ _ "jsconfig.json" _ data j (or_introl eq_refl)).
    - rewrite (readConfigs_skips_json stat readFile rootDir "jsconfig.json")
        by (reflexivity || exact Hjs).
      cbn [readConfigs]. rewrite Hstat.
      change (String.eqb (Filepath.Ext "tsconfig.json") ".json") with true. cbn match.
      by rewrite (parseJSONConfig_jsconfig _ _ "tsconfig.json" _ data j (or_intror eq_refl)). }
  split; [exact Heq |]. rewrite Heq. unfold applyJSConfig. by rewrite foldl_addPath_BaseURL.
Qed.

Lemma tsconfig_decides_alone_witness :
  ReadProjectConfig soundStat brokenRead "/p"
  = applyJSConfig {| BaseURL := ""; Aliases := ∅ |}
      {| CompilerOptions_BaseURL := "app";
         CompilerOptions_Paths := [("@c/*", ["src/components/*"])] |}
  /\ BaseURL (ReadProjectConfig soundStat brokenRead "/p") = "app".
Proof.
  apply (tsconfig_decides_alone soundStat brokenRead "/p" tsconfigData).
  - right. split; [by left |]. split; reflexivity.
  - reflexivity.
Defined.

Lemma HasPrefix_append_byte s rest c :
  String.eqb s "" = false ->
  HasPrefix (s +:+ rest) (String c "") = HasPrefix s (String c "").
Proof. destruct s as [| c' s]; [discriminate | reflexivity]. Qed.

(** X22: an import that starts with a configured alias followed by a
    slash, and that no other configured alias prefix-matches, resolves to
    the alias's target with the rest of the import below it: under the
    target itself when the target is absolute, else under the base URL
    below the project root when there is one, else under the project root.
    The directory of the importing file plays no part. *)
Theorem ResolveImportPath_substitutes_alias config order projectDir currentDir
    alias target rest :
  enumerates order (Aliases config) ->
  Aliases config !! alias = Some target ->
  (forall a, is_Some (Aliases config !! a) ->
     HasPrefix (alias +:+ String "/" rest) a = true -> a = alias) ->
  HasPrefix alias "." = false -> HasPrefix alias "/" = false -> alias <> "" ->
  ResolveImportPath (alias +:+ String "/" rest) config order projectDir currentDir
  = if Filepath.IsAbs target then Filepath.Join [target; rest]
    else if Filepath.nonEmpty (BaseURL config)
         then Filepath.Join [projectDir; BaseURL config; target; rest]
         else Filepath.Join [projectDir; target; rest].
Proof.
  intros Horder Halias Huniq Hdot Hslash Hne. unfold ResolveImportPath.
  assert (Hnonempty : String.eqb alias "" = false) by (by apply String.eqb_neq).
  rewrite !HasPrefix_append_byte by exact Hnonempty. rewrite Hdot, Hslash.
  assert (Hfirst : firstAlias (alias +:+ String "/" rest) order = Some (alias, target)).
  { destruct (firstAlias (alias +:+ String "/" rest) order) as [[a t]|] eqn:E.
    - apply firstAlias_Some in E as [Hin Hprefix].
      rewrite Horder in Hin. apply elem_of_map_to_list in Hin.
      assert (a = alias) as -> by (apply Huniq; [by rewrite Hin | exact Hprefix]).
      congruence.
    - assert (Hin : (alias, target) ∈ order).
      { rewrite Horder. by apply elem_of_map_to_list. }
      apply (firstAlias_None _ _ _ _ E) in Hin. by rewrite HasPrefix_app in Hin. }
  rewrite Hfirst. unfold aliasTarget. rewrite TrimPrefix_app. reflexivity.
Qed.

Lemma ResolveImportPath_substitutes_alias_witness :
  ResolveImportPath ("@c" +:+ String "/" "Button") apartAliases
    (map_to_list (Aliases apartAliases)) "/p" "/p/src/pages"
  = if Filepath.IsAbs "components" then Filepath.Join ["components"; "Button"]
    else if Filepath.nonEmpty (BaseURL apartAliases)
         then Filepath.Join ["/p"; BaseURL apartAliases; "components"; "Button"]
         else Filepath.Join ["/p"; "components"; "Button"].
Proof.
  apply (ResolveImportPath_substitutes_alias apartAliases
           (map_to_list (Aliases apartAliases)) "/p" "/p/src/pages" "@c" "components"
           "Button").
  - unfold enumerates. reflexivity.
  - reflexivity.
  - intros a [t Ha] Hprefix. unfold apartAliases in Ha. cbn [Aliases] in Ha.
    apply lookup_insert_Some in Ha as [[<- _] | [_ Ha]]; [discriminate Hprefix |].
    apply lookup_insert_Some in Ha as [[<- _] | [_ Ha]]; [reflexivity |].
    rewrite lookup_empty in Ha. discriminate Ha.
  - reflexivity.
  - reflexivity.
  - discriminate.
Defined.

(** * Which names are eligible *)

Lemma fromLastDot_noDot s : hasDot s = false -> Filepath.fromLastDot s = "".
Proof.
  unfold hasDot. induction s as [| c s IH]; [reflexivity |]. cbn [anyByte Filepath.fromLastDot].
  intros H. apply orb_false_iff in H as [Hc Hs]. by rewrite (IH Hs), Hc.
Qed.

Lemma fromLastDot_app stem ext :
  hasDot ext = false ->
  Filepath.fromLastDot (stem +:+ String "." ext) = String "." ext.
Proof.
  intros Hext. induction stem as [| c stem IH].
  - rewrite append_empty. cbn [Filepath.fromLastDot]. by rewrite (fromLastDot_noDot _ Hext).
  - rewrite append_String. cbn [Filepath.fromLastDot]. by rewrite IH.
Qed.

Lemma fromLastDot_inv s c ext :
  Filepath.fromLastDot s = String c ext ->
  c = "."%char /\ hasDot ext = false /\ exists stem, s = stem +:+ String "." ext.
Proof.
  induction s as [| c0 s IH]; [discriminate |]. cbn [Filepath.fromLastDot].
  destruct (Filepath.fromLastDot s) as [| c1 r] eqn:E.
  - cbn [Filepath.nonEmpty String.eqb negb]. destruct (Ascii.eqb_spec c0 "."%char) as [-> |];
      [| intros H; discriminate H].
    intros [= <- <-]. split; [reflexivity |]. split; [| by exists ""].
    clear IH. unfold hasDot. revert E. induction s as [| c2 s IH]; [reflexivity |].
    cbn [Filepath.fromLastDot anyByte].
    destruct (Filepath.fromLastDot s) as [| c3 r]; [| discriminate].
    cbn [Filepath.nonEmpty String.eqb negb].
    destruct (Ascii.eqb c2 "."%char); [discriminate |]. intros _. by apply IH.
  - cbn [Filepath.nonEmpty String.eqb negb]. intros H.
    destruct (IH H) as (Hc & Hdot & stem & ->). split; [assumption |]. split; [assumption |].
    by exists (String c0 stem).
Qed.

Lemma Split_hasSep s : hasSep s = true -> exists e e' es, Split "/" s = e :: e' :: es.
Proof.
  unfold hasSep, Filepath.Separator.
  induction s as [| c s IH]; [discriminate |]. cbn [anyByte Split].
  destruct (Ascii.eqb c "/"%char) eqn:Hc.
  - intros _. destruct (Split_nonempty "/"%char s) as (e & es & ->). by exists "", e, es.
  - cbn [orb]. intros H. destruct (IH H) as (e & e' & es & ->). by exists (String c e), e', es.
Qed.

Lemma lastElem_cons c s :
  Filepath.lastElem (String c s)
  = if hasSep s then Filepath.lastElem s
    else if Ascii.eqb c "/"%char then s else String c s.
Proof.
  unfold Filepath.lastElem, Filepath.Separator. cbn [Split].
  destruct (hasSep s) eqn:Hsep.
  - destruct (Split_hasSep s Hsep) as (e & e' & es & ->).
    by destruct (Ascii.eqb c "/"%char).
  - rewrite (Split_noSep s Hsep). by destruct (Ascii.eqb c "/"%char).
Qed.

Lemma hasSep_app s t : hasSep (s +:+ t) = hasSep s || hasSep t.
Proof.
  unfold hasSep. induction s as [| c s IH]; [reflexivity |].
  rewrite append_String. cbn [anyByte]. by rewrite IH, orb_assoc.
Qed.

Lemma lastElem_app stem tail :
  hasSep tail = false ->
  Filepath.lastElem (stem +:+ String "." tail) = Filepath.lastElem stem +:+ String "." tail.
Proof.
  intros Htail.
  assert (Hdot : hasSep (String "." tail) = false) by exact Htail.
  induction stem as [| c stem IH].
  - rewrite append_empty. unfold Filepath.lastElem, Filepath.Separator.
    by rewrite (Split_noSep _ Hdot).
  - rewrite append_String, !lastElem_cons, hasSep_app, Hdot, orb_false_r.
    destruct (hasSep stem); [exact IH |]. by destruct (Ascii.eqb c "/"%char).
Qed.

Lemma lastElem_suffix path : exists pre, path = pre +:+ Filepath.lastElem path.
Proof.
  induction path as [| c path [pre IH]]; [by exists "" |].
  rewrite lastElem_cons. destruct (hasSep path).
  - exists (String c pre). by rewrite append_String, <- IH.
  - destruct (Ascii.eqb c "/"%char); [by exists (String c "") | by exists ""].
Qed.

Lemma lowerByte_keeps_punctuation c d :
  d = "."%char \/ d = "/"%char ->
  Ascii.eqb (lowerByte c) d = Ascii.eqb c d.
Proof.
  intros [-> | ->]; destruct c as [[] [] [] [] [] [] [] []]; reflexivity.
Qed.

Lemma anyByte_ToLower d s :
  d = "."%char \/ d = "/"%char ->
  anyByte (fun c => Ascii.eqb c d) (ToLower s) = anyByte (fun c => Ascii.eqb c d) s.
Proof.
  intros Hd. induction s as [| c s IH]; [reflexivity |].
  cbn [ToLower anyByte]. by rewrite IH, lowerByte_keeps_punctuation.
Qed.

(** X23: [isReactFile] accepts exactly the names that end with a dot and
    one of [js], [jsx], [ts], [tsx] in any mix of upper and lower case;
    what stands before that dot plays no part, and it may be empty. *)
Theorem isReactFile_extension name :
  isReactFile name = true
  <-> exists stem ext,
        name = stem +:+ String "." ext /\ ToLower ext ∈ ["js"; "jsx"; "ts"; "tsx"].
Proof.
  unfold isReactFile, Filepath.Ext. split.
  - intros H. destruct (lastElem_suffix name) as [pre Hpre].
    destruct (Filepath.fromLastDot (Filepath.lastElem name)) as [| c ext] eqn:E;
      [discriminate H |].
    destruct (fromLastDot_inv _ _ _ E) as (-> & _ & stem & Hstem).
    exists (pre +:+ stem), ext. split.
    + rewrite Hpre at 1. rewrite Hstem. by rewrite append_assoc_string.
    + cbn [ToLower] in H. change (lowerByte ".") with "."%char in H.
      rewrite !orb_true_iff in H. cbn [String.eqb Ascii.eqb Bool.eqb] in H.
      rewrite !String.eqb_eq in H.
      destruct H as [[[-> | ->] | ->] | ->]; set_solver.
  - intros (stem & ext & -> & Hext).
    assert (Hplain : hasDot ext = false /\ hasSep ext = false).
    { unfold hasDot, hasSep, Filepath.Separator.
      rewrite <- (anyByte_ToLower "." ext), <- (anyByte_ToLower "/" ext) by tauto.
      repeat (apply elem_of_cons in Hext as [-> | Hext]; [by split |]).
      by apply elem_of_nil in Hext. }
    destruct Hplain as [Hdot Hsep].
    rewrite lastElem_app, fromLastDot_app by assumption.
    cbn [ToLower]. change (lowerByte ".") with "."%char.
    repeat (apply elem_of_cons in Hext as [-> | Hext]; [reflexivity |]).
    by apply elem_of_nil in Hext.
Qed.

(** * Classification and added text *)

Lemma HasPrefix_extend s sub post : HasPrefix s sub = true -> HasPrefix (s +:+ post) sub = true.
Proof.
  revert s. induction sub as [| c sub IH]; intros s; [reflexivity |].
  destruct s as [| c' s]; [discriminate |]. rewrite append_String. cbn [HasPrefix].
  intros H. apply andb_true_iff in H as [-> H]. by rewrite (IH s H).
Qed.

Lemma Contains_empty s : Contains s "" = true.
Proof. by destruct s. Qed.

Lemma Contains_extend_right s sub post :
  Contains s sub = true -> Contains (s +:+ post) sub = true.
Proof.
  induction s as [| c s IH].
  - cbn [Contains]. rewrite orb_false_r. destruct sub; [| discriminate].
    intros _. apply Contains_empty.
  - rewrite append_String. cbn [Contains]. intros H.
    apply orb_true_iff in H as [H | H].
    + apply (HasPrefix_extend _ _ post) in H. rewrite append_String in H. by rewrite H.
    + by rewrite (IH H), orb_true_r.
Qed.

Lemma Contains_extend_left pre s sub :
  Contains s sub = true -> Contains (pre +:+ s) sub = true.
Proof.
  intros H. induction pre as [| c pre IH]; [exact H |].
  rewrite append_String. cbn [Contains]. by rewrite IH, orb_true_r.
Qed.

Lemma Contains_extend pre s post sub :
  Contains s sub = true -> Contains (pre +:+ s +:+ post) sub = true.
Proof. intros H. by apply Contains_extend_left, Contains_extend_right. Qed.

Lemma matchLen_extend post : forall s r n,
  matchLen r s = Some n -> matchLen r (s +:+ post) = Some n.
Proof.
  induction s as [| c s IH]; intros r n.
  - cbn [matchLen]. destruct (nullable r) eqn:E; [| discriminate].
    intros [= <-]. rewrite append_empty. destruct post; cbn [matchLen]; by rewrite E.
  - rewrite append_String. cbn [matchLen]. destruct (nullable r); [done |].
    destruct (matchLen (deriv c r) s) as [m|] eqn:E; [| discriminate].
    by rewrite (IH _ _ E).
Qed.

Lemma MatchString_extend r pre s post :
  MatchString r s = true -> MatchString r (pre +:+ s +:+ post) = true.
Proof.
  intros H.
  assert (Hright : MatchString r (s +:+ post) = true).
  { clear pre. induction s as [| c s IH].
    - cbn [MatchString] in H. destruct (matchLen r "") as [n|] eqn:E; [| discriminate H].
      apply (matchLen_extend post) in E. rewrite append_empty in E |- *.
      destruct post; cbn [MatchString]; by rewrite E.
    - rewrite append_String. cbn [MatchString] in H |- *.
      destruct (matchLen r (String c s)) as [n|] eqn:E.
      + apply (matchLen_extend post) in E. rewrite append_String in E. by rewrite E.
      + rewrite (IH H). by destruct (matchLen r (String c (s +:+ post))). }
  induction pre as [| c pre IH]; [exact Hright |].
  rewrite append_String. cbn [MatchString]. rewrite IH.
  by destruct (matchLen r (String c (pre +:+ s +:+ post))).
Qed.

Ltac extend_tests :=
  repeat match goal with
    | H : _ && _ = true |- _ => apply andb_true_iff in H as [? ?]
    | H : _ || _ = true |- _ => apply orb_true_iff in H as [? | ?]
    | H : Contains ?s ?sub = true |- context [Contains (?pre +:+ ?s +:+ ?post) ?sub] =>
        rewrite (Contains_extend pre s post sub H)
    | H : MatchString ?r ?s = true |- context [MatchString ?r (?pre +:+ ?s +:+ ?post)] =>
        rewrite (MatchString_extend r pre s post H)
    | H : ?b = true |- context [?b] => rewrite H
    end;
  rewrite ?orb_true_r; try reflexivity.

(** X24: the tests of the classification look for fragments of the text,
    so text added before or after the contents of a file never takes a
    classification away: a file the component rule accepts is still
    accepted, and a file the state rule accepts is still accepted. *)
Theorem classification_survives_added_text content fileName path before after :
  (isComponentFile content fileName = true ->
   isComponentFile (before +:+ content +:+ after) fileName = true)
  /\ (isStateFile content path = true ->
      isStateFile (before +:+ content +:+ after) path = true).
Proof.
  split.
  - unfold isComponentFile, hasReactImport, hasJSXReturn, hasComponentDef.
    intros H. extend_tests.
  - unfold isStateFile. intros H. extend_tests.
Qed.

(** * What the statistics count *)

Lemma parseFile_Name stat rangeAliases content path relPath rootDir aliasConfig node :
  parseFile stat rangeAliases (Some content) path relPath rootDir aliasConfig = Some node ->
  Filepath.nonEmpty (Name node)
  = Filepath.nonEmpty (TrimSuffix (Filepath.Base path) (Filepath.Ext (Filepath.Base path))).
Proof.
  unfold parseFile. intros [= <-]. cbn [Name]. unfold displayName.
  destruct (String.eqb_spec (TrimSuffix (Filepath.Base path) (Filepath.Ext (Filepath.Base path)))
              "index") as [-> | _]; [| reflexivity].
  destruct (String.eqb (Filepath.Dir relPath) "."); [reflexivity |]. cbn [fst].
  unfold Filepath.nonEmpty. destruct (Filepath.Base (Filepath.Dir relPath)); reflexivity.
Qed.

Lemma visit_TotalComponents stat rangeAliases rootDir aliasConfig fs : forall project,
  (forall f, f ∈ fs -> isReactFile f.1.2 = true -> f.2 <> None) ->
  TotalComponents (Stats (foldl (visit stat rangeAliases rootDir aliasConfig) project fs))
  = TotalComponents (Stats project) + length (filter (fun f => registrable f = true) fs).
Proof.
  induction fs as [| [[path name] content] fs IH]; intros project Hread; [cbn; lia |].
  cbn [foldl]. rewrite IH by (intros f Hf; apply Hread; by right).
  rewrite filter_cons.
  assert (Hreg : registrable (path, name, content)
                 = isReactFile name
                   && Filepath.nonEmpty (TrimSuffix (Filepath.Base path)
                                           (Filepath.Ext (Filepath.Base path))))
    by reflexivity.
  unfold visit, visitFile. cbn [fst snd].
  destruct (isReactFile name) eqn:Helig; cbn [andb fst] in *.
  - destruct content as [content|];
      [| by destruct (Hread (path, name, None) ltac:(by left) Helig)].
    destruct (parseFile _ _ _ _ _ _ _) as [node|] eqn:Hparse; [| discriminate Hparse].
    rewrite (parseFile_Name _ _ _ _ _ _ _ _ Hparse).
    destruct (Filepath.nonEmpty _) eqn:Hname.
    + rewrite decide_True by exact Hreg. cbn. lia.
    + rewrite decide_False by (rewrite Hreg; discriminate). reflexivity.
  - rewrite decide_False by (rewrite Hreg; discriminate). reflexivity.
Qed.

(** X25: when a scan returns no error, [TotalComponents] is the number of
    the visited files that are eligible and whose name has something before
    its extension: every such file is counted once, also when it shares its
    identifier with another, and a file named by an extension alone, such as
    [.ts], is listed but not counted. *)
Theorem ScanProject_total_components stat readFile rangeAliases rangeNodes rangeDirs
    rootDir root :
  (ScanProject stat readFile rangeAliases rangeNodes rangeDirs rootDir root).2 = false ->
  TotalComponents
    (Stats (ScanProject stat readFile rangeAliases rangeNodes rangeDirs rootDir root).1)
  = length (filter (fun f => registrable f = true) (visitedFiles rootDir root)).
Proof.
  destruct (walk_fold stat rangeAliases rootDir (ReadProjectConfig stat readFile rootDir)
              root rootDir (emptyProject rootDir))
    as (seen & _ & Hfold & Hall).
  pose proof (walk_fails stat rangeAliases rootDir (ReadProjectConfig stat readFile rootDir)
                root rootDir (emptyProject rootDir)) as Hfails.
  unfold ScanProject, Walk.
  destruct (walk _ _ _ _ _ root _) as [project r]; cbn [fst snd] in *.
  assert (Hok : r <> Some Failed ->
            TotalComponents (Stats project)
            = length (filter (fun f => registrable f = true) (visitedFiles rootDir root))).
  { intros Hr. rewrite Hfold, (Hall Hr), visit_TotalComponents; [reflexivity |].
    intros f Hf Helig Hnone. apply Hr. by apply (Hfails f). }
  destruct r as [[]|]; cbn [fst snd Stats]; intros H; try discriminate H;
    apply Hok; discriminate.
Qed.

Lemma ScanProject_total_components_witness :
  TotalComponents (Stats (scan "/home/u/proj" sampleTree).1)
  = length (filter (fun f => registrable f = true) (visitedFiles "/home/u/proj" sampleTree)).
Proof.
  apply (ScanProject_total_components noStat noFile map_to_list keysOf keysOf
           "/home/u/proj" sampleTree).
  vm_compute. reflexivity.
Defined.

(** * The import graph of a scan *)

(** X26: in the registry of a scan that returns no error, every reverse
    import of a node is the key of a registered node that imports it, and
    between two registered nodes the edge is there in both directions or in
    none: N is a reverse import of I exactly when I is an import of N. *)
Theorem ScanProject_import_graph stat readFile rangeAliases rangeNodes rangeDirs
    rootDir root I nodeI :
  (forall nodes, rangeNodes nodes ≡ₚ keysOf nodes) ->
  (ScanProject stat readFile rangeAliases rangeNodes rangeDirs rootDir root).2 = false ->
  NodesMap (ScanProject stat readFile rangeAliases rangeNodes rangeDirs rootDir root).1 !! I
  = Some nodeI ->
  (forall x, x ∈ ImportedBy nodeI ->
     exists nodeX,
       NodesMap (ScanProject stat readFile rangeAliases rangeNodes rangeDirs rootDir root).1 !! x
       = Some nodeX /\ I ∈ Imports nodeX)
  /\ (forall N nodeN,
        NodesMap (ScanProject stat readFile rangeAliases rangeNodes rangeDirs rootDir root).1 !! N
        = Some nodeN ->
        N ∈ ImportedBy nodeI <-> I ∈ Imports nodeN).
Proof.
  intros Henum Hok HI.
  assert (Hboth : forall N nodeN,
            NodesMap (ScanProject stat readFile rangeAliases rangeNodes rangeDirs rootDir root).1
              !! N = Some nodeN ->
            N ∈ ImportedBy nodeI <-> I ∈ Imports nodeN).
  { intros N nodeN HN. rewrite <- !occurrences_pos.
    by rewrite (ScanProject_reverse_edges _ _ _ _ _ _ _ N I nodeN nodeI Henum Hok HN HI). }
  split; [| exact Hboth].
  intros x Hx.
  assert (Hkey : is_Some (NodesMap (ScanProject stat readFile rangeAliases rangeNodes rangeDirs
                                      rootDir root).1 !! x)).
  { pose proof (walk_importedBy_empty stat rangeAliases rootDir
                  (ReadProjectConfig stat readFile rootDir) root rootDir (emptyProject rootDir))
      as Hempty.
    revert HI Hok. unfold ScanProject, Walk.
    destruct (walk _ _ _ _ _ root _) as [project r]; cbn [fst] in Hempty.
    assert (Hbuilt : buildRelationships (rangeNodes (NodesMap project)) (NodesMap project) !! I
                     = Some nodeI ->
              is_Some (buildRelationships (rangeNodes (NodesMap project)) (NodesMap project)
                         !! x)).
    { rewrite buildRelationships_lookup.
      destruct (NodesMap project !! I) as [i0|] eqn:EI; [| discriminate].
      cbn. intros [= <-]. cbn [ImportedBy extendImportedBy] in Hx.
      rewrite (Hempty ltac:(intros k node Hk; cbn in Hk; rewrite lookup_empty in Hk;
                            discriminate Hk) I i0 EI) in Hx.
      cbn [app] in Hx. apply elem_of_reverseEntries in Hx as (node & Hnode & _).
      apply buildRelationships_is_Some. by rewrite Hnode. }
    destruct r as [[]|]; cbn [fst snd NodesMap]; intros HI Hr; try discriminate Hr;
      by apply Hbuilt. }
  destruct Hkey as [nodeX HX]. exists nodeX. split; [exact HX |].
  by apply (Hboth x nodeX HX).
Qed.

Lemma ScanProject_import_graph_witness :
  exists nodeI,
    NodesMap (ScanProject aliasStat aliasRead map_to_list keysOf keysOf "/p" aliasTree).1
      !! "src/components/Button.jsx" = Some nodeI
    /\ (forall x, x ∈ ImportedBy nodeI ->
          exists nodeX,
            NodesMap (ScanProject aliasStat aliasRead map_to_list keysOf keysOf "/p" aliasTree).1
              !! x = Some nodeX
            /\ "src/components/Button.jsx" ∈ Imports nodeX)
    /\ (forall N nodeN,
          NodesMap (ScanProject aliasStat aliasRead map_to_list keysOf keysOf "/p" aliasTree).1
            !! N = Some nodeN ->
          N ∈ ImportedBy nodeI <-> "src/components/Button.jsx" ∈ Imports nodeN).
Proof.
  destruct (NodesMap (ScanProject aliasStat aliasRead map_to_list keysOf keysOf "/p" aliasTree).1
              !! "src/components/Button.jsx") as [nodeI|] eqn:E;
    [| vm_compute in E; discriminate E].
  exists nodeI. split; [reflexivity |].
  apply (ScanProject_import_graph aliasStat aliasRead map_to_list keysOf keysOf "/p" aliasTree
           "src/components/Button.jsx" nodeI).
  - reflexivity.
  - vm_compute. reflexivity.
  - exact E.
Defined.

(** * Relative imports *)
























(** * Imports through an alias *)










(** * The result handed to the front end *)

Section GetProjectJSONFacts.

Variable stat : string -> bool.
Variable readFile : string -> option FileData.
Variable rangeAliases : gmap string string -> list (string * string).
Variable rangeNodes : gmap string ComponentNode -> list string.
Variable rangeDirs : gmap string (list ComponentNode) -> list string.
Variable rangeConvert : gmap string ComponentNode -> list string.
Variable host : Host.
Variable rootDir : string.
Variable root : FsEntry.

#[local] Abbreviation scanned' :=
  (ScanProject stat readFile rangeAliases rangeNodes rangeDirs rootDir root).
#[local] Abbreviation result :=
  (GetProjectJSON stat readFile rangeAliases rangeNodes rangeDirs rangeConvert
     host rootDir root).

(** X29: [GetProjectJSON] returns the empty string whenever it returns an
    error; it touches the file system only after the scan, the conversion
    and the marshalling have succeeded, and then creates the directory
    [.local/reactviz] below the home directory before it writes; the one
    file it writes lies in that directory, is named by the base name of the
    project root and the time, and holds the marshalled converted project;
    and when no error is returned, the string returned is the one
    written. *)
Theorem GetProjectJSON_writes_what_it_returns :
  (result.1.2 = true -> result.1.1 = "")
  /\ (scanned'.2 = true -> result.1.2 = true /\ result.2 = [])
  /\ (forall call, call ∈ result.2 ->
        scanned'.2 = false
        /\ exists home jsonData,
             UserHomeDir host = Some home
             /\ MarshalIndent host
                  (ConvertProjectPathsToUnix (rangeConvert (NodesMap scanned'.1)) scanned'.1)
                = Some jsonData
             /\ head result.2 = Some (MkdirAll (Filepath.Join [home; ".local"; "reactviz"]))
             /\ (call = MkdirAll (Filepath.Join [home; ".local"; "reactviz"])
                 \/ call = WriteFile
                             (Filepath.Join
                                [Filepath.Join [home; ".local"; "reactviz"];
                                 Filepath.Base rootDir +:+ "_" +:+ timestamp host +:+ ".json"])
                             jsonData))
  /\ (result.1.2 = false ->
      exists name, last result.2 = Some (WriteFile name result.1.1)).
Proof.
  assert (Hnone : forall call : FsCall, call ∈ @nil FsCall -> False).
  { intros call H. by apply elem_of_nil in H. }
  unfold GetProjectJSON. destruct scanned' as [project failed].
  destruct failed; cbn [fst snd].
  { split; [done |]. split; [done |]. split; [| done].
    intros call H. destruct (Hnone call H). }
  destruct (MarshalIndent host _) as [jsonData|] eqn:Hjson; cbn [fst snd];
    [| split; [done |]; split; [done |]; split; [| done];
       intros call H; destruct (Hnone call H)].
  unfold saveProjectJSON. destruct (UserHomeDir host) as [home|]; cbn [fst snd];
    [| split; [done |]; split; [done |]; split; [| done];
       intros call H; destruct (Hnone call H)].
  assert (Hcalls : forall call rest,
            call ∈ MkdirAll (Filepath.Join [home; ".local"; "reactviz"]) :: rest ->
            (forall call', call' ∈ rest ->
               call' = WriteFile
                         (Filepath.Join
                            [Filepath.Join [home; ".local"; "reactviz"];
                             Filepath.Base rootDir +:+ "_" +:+ timestamp host +:+ ".json"])
                         jsonData) ->
            false = false
            /\ exists home' jsonData',
                 Some home = Some home' /\ Some jsonData = Some jsonData'
                 /\ head (MkdirAll (Filepath.Join [home; ".local"; "reactviz"]) :: rest)
                    = Some (MkdirAll (Filepath.Join [home'; ".local"; "reactviz"]))
                 /\ (call = MkdirAll (Filepath.Join [home'; ".local"; "reactviz"])
                     \/ call = WriteFile
                                 (Filepath.Join
                                    [Filepath.Join [home'; ".local"; "reactviz"];
                                     Filepath.Base rootDir +:+ "_" +:+ timestamp host
                                     +:+ ".json"])
                                 jsonData')).
  { intros call rest Hcall Hrest. split; [reflexivity |]. exists home, jsonData.
    split; [reflexivity |]. split; [reflexivity |]. split; [reflexivity |].
    apply elem_of_cons in Hcall as [-> | Hcall]; [by left | right; by apply Hrest]. }
  destruct (mkdirAllSucceeds host _); cbn [fst snd].
  - destruct (writeFileSucceeds host _ _); cbn [negb fst snd].
    + split; [done |]. split; [done |]. split.
      * intros call Hcall. apply (Hcalls call _ Hcall).
        intros call' H. by apply list_elem_of_singleton in H.
      * intros _. by eexists.
    + split; [done |]. split; [done |]. split; [| done].
      intros call Hcall. apply (Hcalls call _ Hcall).
      intros call' H. by apply list_elem_of_singleton in H.
  - split; [done |]. split; [done |]. split; [| done].
    intros call Hcall. apply (Hcalls call _ Hcall).
    intros call' H. destruct (Hnone call' H).
Qed.

End GetProjectJSONFacts.

Example GetProjectJSON_run :
  GetProjectJSON noStat noFile map_to_list keysOf keysOf keysOf plainHost
    "/home/u/proj" sampleTree
  = (".hidden.ts,index.js,src/App.jsx,src/util/b.js", false,
     [MkdirAll "/home/u/.local/reactviz";
      WriteFile "/home/u/.local/reactviz/proj_20260101_120000.json"
                ".hidden.ts,index.js,src/App.jsx,src/util/b.js"]).
Proof. vm_compute. reflexivity. Qed.

(** * The scan and the order of the maps *)

Lemma sameUpToReverseOrder_refl node : sameUpToReverseOrder node node.
Proof. unfold sameUpToReverseOrder. by repeat split. Qed.

Lemma reverseEntries_Permutation (nodes : gmap string ComponentNode) order1 order2 k :
  order1 ≡ₚ order2 -> reverseEntries nodes order1 k ≡ₚ reverseEntries nodes order2 k.
Proof.
  unfold reverseEntries. induction 1 as [| x l1 l2 _ IH | x y l | l1 l2 l3 _ IH1 _ IH2].
  - reflexivity.
  - cbn [flat_map]. by rewrite IH.
  - cbn [flat_map]. rewrite !app_assoc. apply Permutation_app_tail, Permutation_app_comm.
  - by rewrite IH1.
Qed.

(** X30: the result of a scan depends on the order in which the runtime
    enumerates the registry and the grouping only through the order of the
    reverse imports and the tree: for any two enumerations the scans agree
    on whether an error is returned, on the files list, on the statistics
    and on the keys of the registry, and the nodes under a key differ at
    most in the order of their reverse imports. *)
Theorem ScanProject_enumeration_independent stat readFile rangeAliases
    rangeNodes1 rangeNodes2 rangeDirs1 rangeDirs2 rootDir root :
  (forall nodes, rangeNodes1 nodes ≡ₚ keysOf nodes) ->
  (forall nodes, rangeNodes2 nodes ≡ₚ keysOf nodes) ->
  (ScanProject stat readFile rangeAliases rangeNodes1 rangeDirs1 rootDir root).2
  = (ScanProject stat readFile rangeAliases rangeNodes2 rangeDirs2 rootDir root).2
  /\ Files (ScanProject stat readFile rangeAliases rangeNodes1 rangeDirs1 rootDir root).1
     = Files (ScanProject stat readFile rangeAliases rangeNodes2 rangeDirs2 rootDir root).1
  /\ Stats (ScanProject stat readFile rangeAliases rangeNodes1 rangeDirs1 rootDir root).1
     = Stats (ScanProject stat readFile rangeAliases rangeNodes2 rangeDirs2 rootDir root).1
  /\ (forall k,
        option_Forall2 sameUpToReverseOrder
          (NodesMap (ScanProject stat readFile rangeAliases rangeNodes1 rangeDirs1
                       rootDir root).1 !! k)
          (NodesMap (ScanProject stat readFile rangeAliases rangeNodes2 rangeDirs2
                       rootDir root).1 !! k)).
Proof.
  intros Henum1 Henum2. unfold ScanProject, Walk.
  destruct (walk _ _ _ _ _ root _) as [project r].
  assert (Hsame : forall k,
            option_Forall2 sameUpToReverseOrder (NodesMap project !! k) (NodesMap project !! k)).
  { intros k. destruct (NodesMap project !! k); constructor. apply sameUpToReverseOrder_refl. }
  assert (Hbuilt : forall k,
            option_Forall2 sameUpToReverseOrder
              (buildRelationships (rangeNodes1 (NodesMap project)) (NodesMap project) !! k)
              (buildRelationships (rangeNodes2 (NodesMap project)) (NodesMap project) !! k)).
  { intros k. rewrite !buildRelationships_lookup.
    destruct (NodesMap project !! k) as [node|]; constructor.
    unfold sameUpToReverseOrder. cbn [extendImportedBy ID Name Path Type_ MultipleComp
                                       Imports Children ImportedBy].
    repeat split. apply Permutation_app_head, reverseEntries_Permutation.
    by rewrite Henum1, Henum2. }
  destruct r as [[]|]; cbn [fst snd Files Stats NodesMap]; repeat split; auto.
Qed.

Lemma ScanProject_enumeration_independent_witness :
  (ScanProject aliasStat aliasRead map_to_list keysOf keysOf "/p" aliasTree).2
  = (ScanProject aliasStat aliasRead map_to_list (fun nodes => reverse (keysOf nodes))
       (fun dirNodes => reverse (keysOf dirNodes)) "/p" aliasTree).2
  /\ Files (ScanProject aliasStat aliasRead map_to_list keysOf keysOf "/p" aliasTree).1
     = Files (ScanProject aliasStat aliasRead map_to_list (fun nodes => reverse (keysOf nodes))
                (fun dirNodes => reverse (keysOf dirNodes)) "/p" aliasTree).1
  /\ Stats (ScanProject aliasStat aliasRead map_to_list keysOf keysOf "/p" aliasTree).1
     = Stats (ScanProject aliasStat aliasRead map_to_list (fun nodes => reverse (keysOf nodes))
                (fun dirNodes => reverse (keysOf dirNodes)) "/p" aliasTree).1
  /\ (forall k,
        option_Forall2 sameUpToReverseOrder
          (NodesMap (ScanProject aliasStat aliasRead map_to_list keysOf keysOf
                       "/p" aliasTree).1 !! k)
          (NodesMap (ScanProject aliasStat aliasRead map_to_list
                       (fun nodes => reverse (keysOf nodes))
                       (fun dirNodes => reverse (keysOf dirNodes)) "/p" aliasTree).1 !! k)).
Proof.
  apply (ScanProject_enumeration_independent aliasStat aliasRead map_to_list
           keysOf (fun nodes => reverse (keysOf nodes))
           keysOf (fun dirNodes => reverse (keysOf dirNodes)) "/p" aliasTree).
  - reflexivity.
  - intros nodes. apply reverse_Permutation.
Defined.

(** * The loop body of the conversion and [convertChildrenPaths] *)

(** The loop body of [ConvertProjectPathsToUnix] converts the fields of the
    node itself and then calls [convertChildrenPaths] on it. *)
Lemma convertNodePaths_convertChildrenPaths node :
  convertNodePaths node
  = convertChildrenPaths
      {| ID := ConvertToUnixPath (ID node); Name := Name node;
         Path := ConvertToUnixPath (Path node); Type_ := Type_ node;
         MultipleComp := MultipleComp node;
         Imports := map ConvertToUnixPath (Imports node);
         ImportedBy := map ConvertToUnixPath (ImportedBy node);
         Children := Children node |}.
Proof. by destruct node. Qed.

Example ConvertToUnixPath_ex :
  ConvertToUnixPath (String.append "src" (String.append backslash
                       (String.append "ui" (String.append backslash "App.jsx"))))
  = "src/ui/App.jsx".
Proof. reflexivity. Qed.

(** * The node registered for a visited file *)

(** Every visited file lies below the walked entry, outside the directories
    with a skipped name. *)
Lemma visitedFiles_Reaches e : forall path f,
  f ∈ visitedFiles path e ->
  exists dirs,
    Reaches path e dirs f.1.1 f.1.2 f.2 /\ Forall (fun d => skipName d = false) dirs.
Proof.
  induction e as [name content | name | name entries IH] using FsEntry_nested_ind;
    intros path f Hin; cbn [visitedFiles] in Hin.
  - apply list_elem_of_singleton in Hin as ->. exists []. split; constructor.
  - by apply elem_of_nil in Hin.
  - destruct (skipName name) eqn:Hskip; [by apply elem_of_nil in Hin |].
    apply list_elem_of_In, in_flat_map in Hin as (child & Hchild & Hin).
    apply list_elem_of_In in Hchild, Hin.
    destruct (proj1 (Forall_forall _ _) IH child Hchild _ _ Hin) as (dirs & Hreach & Hdirs).
    exists (name :: dirs). split; [by econstructor | by constructor].
Qed.

(** Where a node of the registry comes from, when the callback has seen
    the files [fs]. *)
Lemma foldl_visit_registry stat rangeAliases rootDir aliasConfig fs : forall project k node,
  NodesMap (foldl (visit stat rangeAliases rootDir aliasConfig) project fs) !! k = Some node ->
  NodesMap project !! k = Some node
  \/ exists f,
       f ∈ fs /\ k = relPathOf rootDir f.1.1
       /\ parseFile stat rangeAliases f.2 f.1.1 (relPathOf rootDir f.1.1) rootDir aliasConfig
          = Some node.
Proof.
  induction fs as [| [[path name] content] fs IH]; intros project k node Hk; [by left |].
  cbn [foldl] in Hk. apply IH in Hk as [Hk | (f & Hf & Hkey & Hparse)].
  - unfold visit, visitFile in Hk. cbn [fst snd] in Hk.
    destruct (isReactFile name); [| by left].
    fold (relPathOf rootDir path) in Hk.
    destruct (parseFile stat rangeAliases content path (relPathOf rootDir path) rootDir
                aliasConfig) as [parsed|] eqn:Hparse; cbn [fst] in Hk; [| by left].
    destruct (Filepath.nonEmpty (Name parsed)); [| by left].
    cbn [register addFile NodesMap] in Hk.
    pose proof (parseFile_fileRole _ _ _ _ _ _ _ _ Hparse) as (_ & HID & _).
    rewrite HID in Hk. apply lookup_insert_Some in Hk as [[<- <-] | [_ Hk]]; [| by left].
    right. exists (path, name, content). split; [by left | by split].
  - right. exists f. split; [by right | by split].
Qed.

(** ** Identifiers that name one file *)

Lemma Reaches_head path e dirs fpath fname content :
  Reaches path e dirs fpath fname content -> head (dirs ++ [fname]) = Some (entryName e).
Proof. by destruct 1. Qed.

Lemma distinctNames_child name entries child :
  distinctNames (Dir name (Some entries)) = true -> child ∈ entries ->
  distinctNames child = true.
Proof.
  cbn [distinctNames]. intros H. apply andb_true_iff in H as [_ H]. revert H.
  induction entries as [| first rest IH]; intros Hall Hin; [inversion Hin |].
  apply andb_true_iff in Hall as [Hfirst Hrest].
  apply elem_of_cons in Hin as [-> | Hin]; [exact Hfirst | by apply IH].
Qed.

Lemma distinctNames_entries name entries child1 child2 :
  distinctNames (Dir name (Some entries)) = true ->
  child1 ∈ entries -> child2 ∈ entries -> entryName child1 = entryName child2 ->
  child1 = child2.
Proof.
  cbn [distinctNames]. intros H. apply andb_true_iff in H as [H _].
  apply bool_decide_eq_true in H. revert H.
  induction entries as [| first rest IH]; intros Hnodup H1 H2 Heq; [inversion H1 |].
  cbn [map] in Hnodup. apply NoDup_cons in Hnodup as [Hfirst Hnodup].
  apply elem_of_cons in H1 as [-> | H1], H2 as [-> | H2].
  - reflexivity.
  - exfalso. apply Hfirst. rewrite Heq. apply list_elem_of_fmap. by exists child2.
  - exfalso. apply Hfirst. rewrite <- Heq. apply list_elem_of_fmap. by exists child1.
  - by apply IH.
Qed.

(** Below an entry whose directories list no name twice, the names on the
    way to a file determine the file. *)
Lemma Reaches_unique path e dirs fpath1 fname content1 :
  Reaches path e dirs fpath1 fname content1 ->
  forall fpath2 content2,
    distinctNames e = true ->
    Reaches path e dirs fpath2 fname content2 ->
    fpath1 = fpath2 /\ content1 = content2.
Proof.
  induction 1 as [path name content | path name entries child dirs fpath fname content
                                       Hin Hchild IH];
    intros fpath2 content2 Hdistinct Hreach2.
  - inversion Hreach2; subst. by split.
  - inversion Hreach2 as [| ? ? ? child2 ? ? ? ? Hin2 Hchild2]; subst.
    assert (child = child2) as <-.
    { apply (distinctNames_entries name entries); try assumption.
      apply Reaches_head in Hchild, Hchild2. congruence. }
    apply IH; [by apply (distinctNames_child name entries) | exact Hchild2].
Qed.

(** Under a clean root, in a tree of plain names none of which a directory
    lists twice, every identifier names one file. *)
Lemma plain_identifierDetermines rooted elems root dirs fpath fname content :
  Forall (fun e => plain e = true) elems ->
  plainBelow root = true ->
  distinctNames root = true ->
  Reaches (Filepath.fromElems rooted elems) root dirs fpath fname content ->
  identifierDetermines (Filepath.fromElems rooted elems) root fpath content.
Proof.
  intros Helems Hplain Hdistinct Hreach dirs' fpath' fname' content' Hreach' _ Hsame.
  destruct root as [name c | name [entries|]].
  - inversion Hreach; inversion Hreach'; subst. by split.
  - destruct (relPathOf_Reaches _ _ _ _ _ _ _ _ Helems Hplain Hreach)
      as (names & Hdirs & Hnames & Hne & Hrel).
    destruct (relPathOf_Reaches _ _ _ _ _ _ _ _ Helems Hplain Hreach')
      as (names' & Hdirs' & Hnames' & Hne' & Hrel').
    rewrite Hrel, Hrel' in Hsame.
    apply Join_inj in Hsame; try assumption. subst names'.
    rewrite <- Hdirs in Hdirs'. apply app_inj_tail in Hdirs' as [-> ->].
    by apply (Reaches_unique _ _ _ _ _ _ Hreach').
  - inversion Hreach.
Qed.

(** C10: the skip test concerns directories only.  When the scan returns
    without an error, a file whose name begins with a dot and ends in one
    of the four extensions, and that no skipped directory encloses, has its
    identifier in the files list; when its display name is not empty the
    registry holds a node under that identifier, with that identifier and
    one of the three file roles; and when no other visited file has the
    same identifier, that node is the one the classification gives the
    file: its role is component when the component rule accepts the text
    and the name of the file, else state when the state rule accepts the
    text and the identifier, else util, the flag for several components is
    set as for any component, and name, path and imports are those
    computed from this file. *)
Theorem hidden_files_are_scanned
    stat readFile rangeAliases rangeNodes rangeDirs rootDir root
    dirs fpath fname content :
  (ScanProject stat readFile rangeAliases rangeNodes rangeDirs rootDir root).2 = false ->
  Reaches rootDir root dirs fpath fname content ->
  Forall (fun d => skipName d = false) dirs ->
  HasPrefix fname "." = true ->
  isReactFile fname = true ->
  relPathOf rootDir fpath
    ∈ Files (ScanProject stat readFile rangeAliases rangeNodes rangeDirs rootDir root).1
  /\ (forall node,
        parseFile stat rangeAliases content fpath (relPathOf rootDir fpath) rootDir
          (ReadProjectConfig stat readFile rootDir) = Some node ->
        Name node <> "" ->
        exists node',
          NodesMap (ScanProject stat readFile rangeAliases rangeNodes rangeDirs rootDir root).1
            !! relPathOf rootDir fpath = Some node'
          /\ ID node' = relPathOf rootDir fpath
          /\ fileRole (Type_ node')
          /\ (identifierDetermines rootDir root fpath content ->
              exists text,
                content = Some text
                /\ Type_ node'
                   = (if isComponentFile text (Filepath.Base fpath) then "component"
                      else if isStateFile text (relPathOf rootDir fpath) then "state"
                      else "util")
                /\ MultipleComp node'
                   = (if isComponentFile text (Filepath.Base fpath)
                      then hasMultipleComponents text else false)
                /\ Name node' = Name node
                /\ Path node' = relPathOf rootDir fpath
                /\ Imports node'
                   = extractImports stat rangeAliases text
                       (Filepath.Dir (relPathOf rootDir fpath)) rootDir
                       (ReadProjectConfig stat readFile rootDir)
                /\ Children node' = [])).
Proof.
  intros Hok Hreach Hdirs _ Helig.
  pose proof (walk_scans stat rangeAliases rootDir (ReadProjectConfig stat readFile rootDir)
                root rootDir (emptyProject rootDir) dirs fpath fname content) as Hscan.
  pose proof (walk_registry stat rangeAliases rootDir (ReadProjectConfig stat readFile rootDir)
                root rootDir (emptyProject rootDir)) as Hwf.
  destruct (walk_fold stat rangeAliases rootDir (ReadProjectConfig stat readFile rootDir)
              root rootDir (emptyProject rootDir)) as (seen & _ & Hfold & Hall).
  unfold ScanProject, Walk in *.
  destruct (walk _ _ _ _ _ root _) as [project r]; cbn [fst snd] in Hscan, Hwf, Hfold, Hall.
  assert (Hr : r <> Some Failed) by (intros ->; cbn in Hok; discriminate Hok).
  destruct (Hscan Hr Hreach Hdirs Helig) as [Hfile Hreg].
  assert (Hwf' : registryWellFormed (NodesMap project)).
  { apply Hwf. intros k node Hk. cbn in Hk. rewrite lookup_empty in Hk. discriminate Hk. }
  rewrite (Hall Hr) in Hfold. clear Hall seen.
  (* what the registry holds for the file before the reverse imports *)
  assert (Hwalked : forall node,
            parseFile stat rangeAliases content fpath (relPathOf rootDir fpath) rootDir
              (ReadProjectConfig stat readFile rootDir) = Some node ->
            Name node <> "" ->
            exists node0,
              NodesMap project !! relPathOf rootDir fpath = Some node0
              /\ (identifierDetermines rootDir root fpath content -> node0 = node)).
  { intros node Hparse Hname. destruct (Hreg node Hparse Hname) as [node0 Hnode0].
    exists node0. split; [exact Hnode0 |]. intros Huniq.
    rewrite Hfold in Hnode0.
    apply foldl_visit_registry in Hnode0 as [Hnode0 | (f & Hf & Hkey & Hparse0)].
    { cbn in Hnode0. rewrite lookup_empty in Hnode0. discriminate Hnode0. }
    apply visitedFiles_Reaches in Hf as (dirs0 & Hreach0 & Hdirs0).
    destruct (Huniq dirs0 f.1.1 f.1.2 f.2 Hreach0 Hdirs0 (eq_sym Hkey)) as [Hpath Hcontent].
    rewrite Hpath, Hcontent in Hparse0. congruence. }
  (* the same after them *)
  assert (Hbuilt : forall order node,
            parseFile stat rangeAliases content fpath (relPathOf rootDir fpath) rootDir
              (ReadProjectConfig stat readFile rootDir) = Some node ->
            Name node <> "" ->
            exists node',
              buildRelationships order (NodesMap project) !! relPathOf rootDir fpath
              = Some node'
              /\ ID node' = relPathOf rootDir fpath
              /\ fileRole (Type_ node')
              /\ (identifierDetermines rootDir root fpath content ->
                  exists text,
                    content = Some text
                    /\ Type_ node'
                       = (if isComponentFile text (Filepath.Base fpath) then "component"
                          else if isStateFile text (relPathOf rootDir fpath) then "state"
                          else "util")
                    /\ MultipleComp node'
                       = (if isComponentFile text (Filepath.Base fpath)
                          then hasMultipleComponents text else false)
                    /\ Name node' = Name node
                    /\ Path node' = relPathOf rootDir fpath
                    /\ Imports node'
                       = extractImports stat rangeAliases text
                           (Filepath.Dir (relPathOf rootDir fpath)) rootDir
                           (ReadProjectConfig stat readFile rootDir)
                    /\ Children node' = [])).
  { intros order node Hparse Hname.
    destruct (Hwalked node Hparse Hname) as (node0 & Hnode0 & Hsame).
    exists (extendImportedBy (reverseEntries (NodesMap project) order
                                (relPathOf rootDir fpath)) node0).
    rewrite buildRelationships_lookup, Hnode0.
    destruct (Hwf' _ _ Hnode0) as [Hrole HID].
    split; [reflexivity |]. split; [exact HID |]. split; [exact Hrole |].
    intros Huniq. rewrite (Hsame Huniq).
    destruct content as [text|]; [| discriminate Hparse].
    exists text. unfold parseFile in Hparse. injection Hparse as <-.
    repeat split. }
  destruct r as [[]|]; [| congruence |]; cbn [fst snd Files NodesMap];
    (split; [exact Hfile | apply Hbuilt]).
Qed.

Lemma hidden_files_are_scanned_witness :
  ".hidden.ts" ∈ Files (scan "/home/u/proj" sampleTree).1
  /\ exists node',
       NodesMap (scan "/home/u/proj" sampleTree).1 !! ".hidden.ts" = Some node'
       /\ ID node' = ".hidden.ts"
       /\ fileRole (Type_ node')
       /\ Type_ node' = "util"
       /\ MultipleComp node' = false
       /\ Name node' = ".hidden"
       /\ Path node' = ".hidden.ts"
       /\ Imports node' = []
       /\ Children node' = [].
Proof.
  destruct (hidden_files_are_scanned
              noStat noFile map_to_list keysOf keysOf "/home/u/proj" sampleTree
              ["proj"] "/home/u/proj/.hidden.ts" ".hidden.ts" (Some "export const x = 1;"))
    as [Hfile Hreg].
  - vm_compute. reflexivity.
  - eapply Reaches_dir; [left |]. apply (Reaches_file "/home/u/proj/.hidden.ts").
  - repeat constructor.
  - reflexivity.
  - reflexivity.
  - split; [exact Hfile |].
    destruct (parseFile noStat map_to_list (Some "export const x = 1;")
                "/home/u/proj/.hidden.ts" (relPathOf "/home/u/proj" "/home/u/proj/.hidden.ts")
                "/home/u/proj" (ReadProjectConfig noStat noFile "/home/u/proj"))
      as [node|] eqn:Hparse; [| vm_compute in Hparse; discriminate Hparse].
    destruct (Hreg node eq_refl) as (node' & Hlookup & HID & Hrole & Hclass).
    { vm_compute in Hparse. injection Hparse as <-. discriminate. }
    exists node'. split; [exact Hlookup |]. split; [exact HID |]. split; [exact Hrole |].
    destruct Hclass as (text & Htext & Htype & Hmulti & Hname & Hpath & Himports & Hchildren).
    { apply (plain_identifierDetermines true ["home"; "u"; "proj"] sampleTree
               ["proj"] "/home/u/proj/.hidden.ts" ".hidden.ts" (Some "export const x = 1;")).
      - repeat constructor.
      - reflexivity.
      - vm_compute. reflexivity.
      - eapply Reaches_dir; [left |]. apply (Reaches_file "/home/u/proj/.hidden.ts"). }
    injection Htext as <-.
    vm_compute in Hparse. injection Hparse as <-.
    repeat split; assumption.
Defined.
